(** * NTU administrative helper: chunk pipeline and two-stage retrieval

    A shallow embedding of [src/processor.py] ([DataProcessor]) and
    [src/rag_engine.py] ([EnhancedRAGEngine]), with the Python string and
    regular-expression primitives they rely on, followed by the properties
    stated for them.

    Conventions.
    - A Python [str] is a sequence of Unicode code points: [list N].
      String literals of the source are written [utf8 "..."].
    - A Python exception is a result [None]; the vector store may raise.
    - Distances are values of an ordered type with a subtraction
      (class [Dist]); the laws of the order are class [DistOrder]. *)

From Stdlib Require Import NArith ZArith QArith List Bool Lia String Ascii.
From Stdlib Require Import Permutation Sorted.
From stdpp Require Import base option list gmap strings sorting.

Local Open Scope N_scope.

(** ** Part I. Python strings *)

Module Py.

Abbreviation char := N (only parsing).
Abbreviation str := (list N) (only parsing).

(** *** Source literals: UTF-8 decoding of a Rocq string *)

Fixpoint bytes_of (s : string) : list N :=
  match s with
  | EmptyString => []
  | String a r => N_of_ascii a :: bytes_of r
  end.

Fixpoint utf8_decode (bs : list N) : str :=
  match bs with
  | [] => []
  | b0 :: r0 =>
    if b0 <? 0x80 then b0 :: utf8_decode r0
    else match r0 with
    | [] => []
    | b1 :: r1 =>
      if b0 <? 0xE0 then ((b0 - 0xC0) * 0x40 + (b1 - 0x80)) :: utf8_decode r1
      else match r1 with
      | [] => []
      | b2 :: r2 =>
        if b0 <? 0xF0
        then ((b0 - 0xE0) * 0x1000 + (b1 - 0x80) * 0x40 + (b2 - 0x80))
               :: utf8_decode r2
        else match r2 with
        | [] => []
        | b3 :: r3 =>
          ((b0 - 0xF0) * 0x40000 + (b1 - 0x80) * 0x1000
             + (b2 - 0x80) * 0x40 + (b3 - 0x80)) :: utf8_decode r3
        end
      end
    end
  end.

Definition utf8 (s : string) : str := utf8_decode (bytes_of s).

(** The single code point of a one-character literal. *)
Definition ch (s : string) : char := hd 0 (utf8 s).

Definition LF : char := 10.

(** *** Unicode tables of the Python runtime (Unicode 14.0) *)

Definition in_ranges (c : char) (t : list (N * N)) : bool :=
  existsb (fun r => (fst r <=? c) && (c <=? snd r)) t.

(** Code points for which [str.isspace] holds; the same set is matched by [\s] in [re]. *)
Definition WHITESPACE : list (N * N) := [
  (0x9, 0xD); (0x1C, 0x20); (0x85, 0x85); (0xA0, 0xA0); (0x1680, 0x1680);
  (0x2000, 0x200A); (0x2028, 0x2029); (0x202F, 0x202F); (0x205F, 0x205F); (0x3000, 0x3000)
]%N.

(** Code points for which [str.isdigit] holds (numeric type Digit or Decimal). *)
Definition DIGIT : list (N * N) := [
  (0x30, 0x39); (0xB2, 0xB3); (0xB9, 0xB9); (0x660, 0x669); (0x6F0, 0x6F9);
  (0x7C0, 0x7C9); (0x966, 0x96F); (0x9E6, 0x9EF); (0xA66, 0xA6F); (0xAE6, 0xAEF);
  (0xB66, 0xB6F); (0xBE6, 0xBEF); (0xC66, 0xC6F); (0xCE6, 0xCEF); (0xD66, 0xD6F);
  (0xDE6, 0xDEF); (0xE50, 0xE59); (0xED0, 0xED9); (0xF20, 0xF29); (0x1040, 0x1049);
  (0x1090, 0x1099); (0x1369, 0x1371); (0x17E0, 0x17E9); (0x1810, 0x1819); (0x1946, 0x194F);
  (0x19D0, 0x19DA); (0x1A80, 0x1A89); (0x1A90, 0x1A99); (0x1B50, 0x1B59); (0x1BB0, 0x1BB9);
  (0x1C40, 0x1C49); (0x1C50, 0x1C59); (0x2070, 0x2070); (0x2074, 0x2079); (0x2080, 0x2089);
  (0x2460, 0x2468); (0x2474, 0x247C); (0x2488, 0x2490); (0x24EA, 0x24EA); (0x24F5, 0x24FD);
  (0x24FF, 0x24FF); (0x2776, 0x277E); (0x2780, 0x2788); (0x278A, 0x2792); (0xA620, 0xA629);
  (0xA8D0, 0xA8D9); (0xA900, 0xA909); (0xA9D0, 0xA9D9); (0xA9F0, 0xA9F9); (0xAA50, 0xAA59);
  (0xABF0, 0xABF9); (0xFF10, 0xFF19); (0x104A0, 0x104A9); (0x10A40, 0x10A43); (0x10D30, 0x10D39);
  (0x10E60, 0x10E68); (0x11052, 0x1105A); (0x11066, 0x1106F); (0x110F0, 0x110F9); (0x11136, 0x1113F);
  (0x111D0, 0x111D9); (0x112F0, 0x112F9); (0x11450, 0x11459); (0x114D0, 0x114D9); (0x11650, 0x11659);
  (0x116C0, 0x116C9); (0x11730, 0x11739); (0x118E0, 0x118E9); (0x11950, 0x11959); (0x11C50, 0x11C59);
  (0x11D50, 0x11D59); (0x11DA0, 0x11DA9); (0x16A60, 0x16A69); (0x16AC0, 0x16AC9); (0x16B50, 0x16B59);
  (0x1D7CE, 0x1D7FF); (0x1E140, 0x1E149); (0x1E2F0, 0x1E2F9); (0x1E950, 0x1E959); (0x1F100, 0x1F10A);
  (0x1FBF0, 0x1FBF9)
]%N.

(** Code points of category Nd, matched by [\d] in [re]. *)
Definition DECIMAL : list (N * N) := [
  (0x30, 0x39); (0x660, 0x669); (0x6F0, 0x6F9); (0x7C0, 0x7C9); (0x966, 0x96F);
  (0x9E6, 0x9EF); (0xA66, 0xA6F); (0xAE6, 0xAEF); (0xB66, 0xB6F); (0xBE6, 0xBEF);
  (0xC66, 0xC6F); (0xCE6, 0xCEF); (0xD66, 0xD6F); (0xDE6, 0xDEF); (0xE50, 0xE59);
  (0xED0, 0xED9); (0xF20, 0xF29); (0x1040, 0x1049); (0x1090, 0x1099); (0x17E0, 0x17E9);
  (0x1810, 0x1819); (0x1946, 0x194F); (0x19D0, 0x19D9); (0x1A80, 0x1A89); (0x1A90, 0x1A99);
  (0x1B50, 0x1B59); (0x1BB0, 0x1BB9); (0x1C40, 0x1C49); (0x1C50, 0x1C59); (0xA620, 0xA629);
  (0xA8D0, 0xA8D9); (0xA900, 0xA909); (0xA9D0, 0xA9D9); (0xA9F0, 0xA9F9); (0xAA50, 0xAA59);
  (0xABF0, 0xABF9); (0xFF10, 0xFF19); (0x104A0, 0x104A9); (0x10D30, 0x10D39); (0x11066, 0x1106F);
  (0x110F0, 0x110F9); (0x11136, 0x1113F); (0x111D0, 0x111D9); (0x112F0, 0x112F9); (0x11450, 0x11459);
  (0x114D0, 0x114D9); (0x11650, 0x11659); (0x116C0, 0x116C9); (0x11730, 0x11739); (0x118E0, 0x118E9);
  (0x11950, 0x11959); (0x11C50, 0x11C59); (0x11D50, 0x11D59); (0x11DA0, 0x11DA9); (0x16A60, 0x16A69);
  (0x16AC0, 0x16AC9); (0x16B50, 0x16B59); (0x1D7CE, 0x1D7FF); (0x1E140, 0x1E149); (0x1E2F0, 0x1E2F9);
  (0x1E950, 0x1E959); (0x1FBF0, 0x1FBF9)
]%N.

(** Case-ignorable code points, skipped by the final-sigma rule of [str.lower]. *)
Definition CASE_IGNORABLE : list (N * N) := [
  (0x27, 0x27); (0x2E, 0x2E); (0x3A, 0x3A); (0x5E, 0x5E); (0x60, 0x60);
  (0xA8, 0xA8); (0xAD, 0xAD); (0xAF, 0xAF); (0xB4, 0xB4); (0xB7, 0xB8);
  (0x2B0, 0x36F); (0x374, 0x375); (0x37A, 0x37A); (0x384, 0x385); (0x387, 0x387);
  (0x483, 0x489); (0x559, 0x559); (0x55F, 0x55F); (0x591, 0x5BD); (0x5BF, 0x5BF);
  (0x5C1, 0x5C2); (0x5C4, 0x5C5); (0x5C7, 0x5C7); (0x5F4, 0x5F4); (0x600, 0x605);
  (0x610, 0x61A); (0x61C, 0x61C); (0x640, 0x640); (0x64B, 0x65F); (0x670, 0x670);
  (0x6D6, 0x6DD); (0x6DF, 0x6E8); (0x6EA, 0x6ED); (0x70F, 0x70F); (0x711, 0x711);
  (0x730, 0x74A); (0x7A6, 0x7B0); (0x7EB, 0x7F5); (0x7FA, 0x7FA); (0x7FD, 0x7FD);
  (0x816, 0x82D); (0x859, 0x85B); (0x888, 0x888); (0x890, 0x891); (0x898, 0x89F);
  (0x8C9, 0x902); (0x93A, 0x93A); (0x93C, 0x93C); (0x941, 0x948); (0x94D, 0x94D);
  (0x951, 0x957); (0x962, 0x963); (0x971, 0x971); (0x981, 0x981); (0x9BC, 0x9BC);
  (0x9C1, 0x9C4); (0x9CD, 0x9CD); (0x9E2, 0x9E3); (0x9FE, 0x9FE); (0xA01, 0xA02);
  (0xA3C, 0xA3C); (0xA41, 0xA42); (0xA47, 0xA48); (0xA4B, 0xA4D); (0xA51, 0xA51);
  (0xA70, 0xA71); (0xA75, 0xA75); (0xA81, 0xA82); (0xABC, 0xABC); (0xAC1, 0xAC5);
  (0xAC7, 0xAC8); (0xACD, 0xACD); (0xAE2, 0xAE3); (0xAFA, 0xAFF); (0xB01, 0xB01);
  (0xB3C, 0xB3C); (0xB3F, 0xB3F); (0xB41, 0xB44); (0xB4D, 0xB4D); (0xB55, 0xB56);
  (0xB62, 0xB63); (0xB82, 0xB82); (0xBC0, 0xBC0); (0xBCD, 0xBCD); (0xC00, 0xC00);
  (0xC04, 0xC04); (0xC3C, 0xC3C); (0xC3E, 0xC40); (0xC46, 0xC48); (0xC4A, 0xC4D);
  (0xC55, 0xC56); (0xC62, 0xC63); (0xC81, 0xC81); (0xCBC, 0xCBC); (0xCBF, 0xCBF);
  (0xCC6, 0xCC6); (0xCCC, 0xCCD); (0xCE2, 0xCE3); (0xD00, 0xD01); (0xD3B, 0xD3C);
  (0xD41, 0xD44); (0xD4D, 0xD4D); (0xD62, 0xD63); (0xD81, 0xD81); (0xDCA, 0xDCA);
  (0xDD2, 0xDD4); (0xDD6, 0xDD6); (0xE31, 0xE31); (0xE34, 0xE3A); (0xE46, 0xE4E);
  (0xEB1, 0xEB1); (0xEB4, 0xEBC); (0xEC6, 0xEC6); (0xEC8, 0xECD); (0xF18, 0xF19);
  (0xF35, 0xF35); (0xF37, 0xF37); (0xF39, 0xF39); (0xF71, 0xF7E); (0xF80, 0xF84);
  (0xF86, 0xF87); (0xF8D, 0xF97); (0xF99, 0xFBC); (0xFC6, 0xFC6); (0x102D, 0x1030);
  (0x1032, 0x1037); (0x1039, 0x103A); (0x103D, 0x103E); (0x1058, 0x1059); (0x105E, 0x1060);
  (0x1071, 0x1074); (0x1082, 0x1082); (0x1085, 0x1086); (0x108D, 0x108D); (0x109D, 0x109D);
  (0x10FC, 0x10FC); (0x135D, 0x135F); (0x1712, 0x1714); (0x1732, 0x1733); (0x1752, 0x1753);
  (0x1772, 0x1773); (0x17B4, 0x17B5); (0x17B7, 0x17BD); (0x17C6, 0x17C6); (0x17C9, 0x17D3);
  (0x17D7, 0x17D7); (0x17DD, 0x17DD); (0x180B, 0x180F); (0x1843, 0x1843); (0x1885, 0x1886);
  (0x18A9, 0x18A9); (0x1920, 0x1922); (0x1927, 0x1928); (0x1932, 0x1932); (0x1939, 0x193B);
  (0x1A17, 0x1A18); (0x1A1B, 0x1A1B); (0x1A56, 0x1A56); (0x1A58, 0x1A5E); (0x1A60, 0x1A60);
  (0x1A62, 0x1A62); (0x1A65, 0x1A6C); (0x1A73, 0x1A7C); (0x1A7F, 0x1A7F); (0x1AA7, 0x1AA7);
  (0x1AB0, 0x1ACE); (0x1B00, 0x1B03); (0x1B34, 0x1B34); (0x1B36, 0x1B3A); (0x1B3C, 0x1B3C);
  (0x1B42, 0x1B42); (0x1B6B, 0x1B73); (0x1B80, 0x1B81); (0x1BA2, 0x1BA5); (0x1BA8, 0x1BA9);
  (0x1BAB, 0x1BAD); (0x1BE6, 0x1BE6); (0x1BE8, 0x1BE9); (0x1BED, 0x1BED); (0x1BEF, 0x1BF1);
  (0x1C2C, 0x1C33); (0x1C36, 0x1C37); (0x1C78, 0x1C7D); (0x1CD0, 0x1CD2); (0x1CD4, 0x1CE0);
  (0x1CE2, 0x1CE8); (0x1CED, 0x1CED); (0x1CF4, 0x1CF4); (0x1CF8, 0x1CF9); (0x1D2C, 0x1D6A);
  (0x1D78, 0x1D78); (0x1D9B, 0x1DFF); (0x1FBD, 0x1FBD); (0x1FBF, 0x1FC1); (0x1FCD, 0x1FCF);
  (0x1FDD, 0x1FDF); (0x1FED, 0x1FEF); (0x1FFD, 0x1FFE); (0x200B, 0x200F); (0x2018, 0x2019);
  (0x2024, 0x2024); (0x2027, 0x2027); (0x202A, 0x202E); (0x2060, 0x2064); (0x2066, 0x206F);
  (0x2071, 0x2071); (0x207F, 0x207F); (0x2090, 0x209C); (0x20D0, 0x20F0); (0x2C7C, 0x2C7D);
  (0x2CEF, 0x2CF1); (0x2D6F, 0x2D6F); (0x2D7F, 0x2D7F); (0x2DE0, 0x2DFF); (0x2E2F, 0x2E2F);
  (0x3005, 0x3005); (0x302A, 0x302D); (0x3031, 0x3035); (0x303B, 0x303B); (0x3099, 0x309E);
  (0x30FC, 0x30FE); (0xA015, 0xA015); (0xA4F8, 0xA4FD); (0xA60C, 0xA60C); (0xA66F, 0xA672);
  (0xA674, 0xA67D); (0xA67F, 0xA67F); (0xA69C, 0xA69F); (0xA6F0, 0xA6F1); (0xA700, 0xA721);
  (0xA770, 0xA770); (0xA788, 0xA78A); (0xA7F2, 0xA7F4); (0xA7F8, 0xA7F9); (0xA802, 0xA802);
  (0xA806, 0xA806); (0xA80B, 0xA80B); (0xA825, 0xA826); (0xA82C, 0xA82C); (0xA8C4, 0xA8C5);
  (0xA8E0, 0xA8F1); (0xA8FF, 0xA8FF); (0xA926, 0xA92D); (0xA947, 0xA951); (0xA980, 0xA982);
  (0xA9B3, 0xA9B3); (0xA9B6, 0xA9B9); (0xA9BC, 0xA9BD); (0xA9CF, 0xA9CF); (0xA9E5, 0xA9E6);
  (0xAA29, 0xAA2E); (0xAA31, 0xAA32); (0xAA35, 0xAA36); (0xAA43, 0xAA43); (0xAA4C, 0xAA4C);
  (0xAA70, 0xAA70); (0xAA7C, 0xAA7C); (0xAAB0, 0xAAB0); (0xAAB2, 0xAAB4); (0xAAB7, 0xAAB8);
  (0xAABE, 0xAABF); (0xAAC1, 0xAAC1); (0xAADD, 0xAADD); (0xAAEC, 0xAAED); (0xAAF3, 0xAAF4);
  (0xAAF6, 0xAAF6); (0xAB5B, 0xAB5F); (0xAB69, 0xAB6B); (0xABE5, 0xABE5); (0xABE8, 0xABE8);
  (0xABED, 0xABED); (0xFB1E, 0xFB1E); (0xFBB2, 0xFBC2); (0xFE00, 0xFE0F); (0xFE13, 0xFE13);
  (0xFE20, 0xFE2F); (0xFE52, 0xFE52); (0xFE55, 0xFE55); (0xFEFF, 0xFEFF); (0xFF07, 0xFF07);
  (0xFF0E, 0xFF0E); (0xFF1A, 0xFF1A); (0xFF3E, 0xFF3E); (0xFF40, 0xFF40); (0xFF70, 0xFF70);
  (0xFF9E, 0xFF9F); (0xFFE3, 0xFFE3); (0xFFF9, 0xFFFB); (0x101FD, 0x101FD); (0x102E0, 0x102E0);
  (0x10376, 0x1037A); (0x10780, 0x10785); (0x10787, 0x107B0); (0x107B2, 0x107BA); (0x10A01, 0x10A03);
  (0x10A05, 0x10A06); (0x10A0C, 0x10A0F); (0x10A38, 0x10A3A); (0x10A3F, 0x10A3F); (0x10AE5, 0x10AE6);
  (0x10D24, 0x10D27); (0x10EAB, 0x10EAC); (0x10F46, 0x10F50); (0x10F82, 0x10F85); (0x11001, 0x11001);
  (0x11038, 0x11046); (0x11070, 0x11070); (0x11073, 0x11074); (0x1107F, 0x11081); (0x110B3, 0x110B6);
  (0x110B9, 0x110BA); (0x110BD, 0x110BD); (0x110C2, 0x110C2); (0x110CD, 0x110CD); (0x11100, 0x11102);
  (0x11127, 0x1112B); (0x1112D, 0x11134); (0x11173, 0x11173); (0x11180, 0x11181); (0x111B6, 0x111BE);
  (0x111C9, 0x111CC); (0x111CF, 0x111CF); (0x1122F, 0x11231); (0x11234, 0x11234); (0x11236, 0x11237);
  (0x1123E, 0x1123E); (0x112DF, 0x112DF); (0x112E3, 0x112EA); (0x11300, 0x11301); (0x1133B, 0x1133C);
  (0x11340, 0x11340); (0x11366, 0x1136C); (0x11370, 0x11374); (0x11438, 0x1143F); (0x11442, 0x11444);
  (0x11446, 0x11446); (0x1145E, 0x1145E); (0x114B3, 0x114B8); (0x114BA, 0x114BA); (0x114BF, 0x114C0);
  (0x114C2, 0x114C3); (0x115B2, 0x115B5); (0x115BC, 0x115BD); (0x115BF, 0x115C0); (0x115DC, 0x115DD);
  (0x11633, 0x1163A); (0x1163D, 0x1163D); (0x1163F, 0x11640); (0x116AB, 0x116AB); (0x116AD, 0x116AD);
  (0x116B0, 0x116B5); (0x116B7, 0x116B7); (0x1171D, 0x1171F); (0x11722, 0x11725); (0x11727, 0x1172B);
  (0x1182F, 0x11837); (0x11839, 0x1183A); (0x1193B, 0x1193C); (0x1193E, 0x1193E); (0x11943, 0x11943);
  (0x119D4, 0x119D7); (0x119DA, 0x119DB); (0x119E0, 0x119E0); (0x11A01, 0x11A0A); (0x11A33, 0x11A38);
  (0x11A3B, 0x11A3E); (0x11A47, 0x11A47); (0x11A51, 0x11A56); (0x11A59, 0x11A5B); (0x11A8A, 0x11A96);
  (0x11A98, 0x11A99); (0x11C30, 0x11C36); (0x11C38, 0x11C3D); (0x11C3F, 0x11C3F); (0x11C92, 0x11CA7);
  (0x11CAA, 0x11CB0); (0x11CB2, 0x11CB3); (0x11CB5, 0x11CB6); (0x11D31, 0x11D36); (0x11D3A, 0x11D3A);
  (0x11D3C, 0x11D3D); (0x11D3F, 0x11D45); (0x11D47, 0x11D47); (0x11D90, 0x11D91); (0x11D95, 0x11D95);
  (0x11D97, 0x11D97); (0x11EF3, 0x11EF4); (0x13430, 0x13438); (0x16AF0, 0x16AF4); (0x16B30, 0x16B36);
  (0x16B40, 0x16B43); (0x16F4F, 0x16F4F); (0x16F8F, 0x16F9F); (0x16FE0, 0x16FE1); (0x16FE3, 0x16FE4);
  (0x1AFF0, 0x1AFF3); (0x1AFF5, 0x1AFFB); (0x1AFFD, 0x1AFFE); (0x1BC9D, 0x1BC9E); (0x1BCA0, 0x1BCA3);
  (0x1CF00, 0x1CF2D); (0x1CF30, 0x1CF46); (0x1D167, 0x1D169); (0x1D173, 0x1D182); (0x1D185, 0x1D18B);
  (0x1D1AA, 0x1D1AD); (0x1D242, 0x1D244); (0x1DA00, 0x1DA36); (0x1DA3B, 0x1DA6C); (0x1DA75, 0x1DA75);
  (0x1DA84, 0x1DA84); (0x1DA9B, 0x1DA9F); (0x1DAA1, 0x1DAAF); (0x1E000, 0x1E006); (0x1E008, 0x1E018);
  (0x1E01B, 0x1E021); (0x1E023, 0x1E024); (0x1E026, 0x1E02A); (0x1E130, 0x1E13D); (0x1E2AE, 0x1E2AE);
  (0x1E2EC, 0x1E2EF); (0x1E8D0, 0x1E8D6); (0x1E944, 0x1E94B); (0x1F3FB, 0x1F3FF); (0xE0001, 0xE0001);
  (0xE0020, 0xE007F); (0xE0100, 0xE01EF)
]%N.

(** Cased code points that are not case-ignorable. *)
Definition CASED : list (N * N) := [
  (0x41, 0x5A); (0x61, 0x7A); (0xAA, 0xAA); (0xB5, 0xB5); (0xBA, 0xBA);
  (0xC0, 0xD6); (0xD8, 0xF6); (0xF8, 0x1BA); (0x1BC, 0x1BF); (0x1C4, 0x293);
  (0x295, 0x2AF); (0x370, 0x373); (0x376, 0x377); (0x37B, 0x37D); (0x37F, 0x37F);
  (0x386, 0x386); (0x388, 0x38A); (0x38C, 0x38C); (0x38E, 0x3A1); (0x3A3, 0x3F5);
  (0x3F7, 0x481); (0x48A, 0x52F); (0x531, 0x556); (0x560, 0x588); (0x10A0, 0x10C5);
  (0x10C7, 0x10C7); (0x10CD, 0x10CD); (0x10D0, 0x10FA); (0x10FD, 0x10FF); (0x13A0, 0x13F5);
  (0x13F8, 0x13FD); (0x1C80, 0x1C88); (0x1C90, 0x1CBA); (0x1CBD, 0x1CBF); (0x1D00, 0x1D2B);
  (0x1D6B, 0x1D77); (0x1D79, 0x1D9A); (0x1E00, 0x1F15); (0x1F18, 0x1F1D); (0x1F20, 0x1F45);
  (0x1F48, 0x1F4D); (0x1F50, 0x1F57); (0x1F59, 0x1F59); (0x1F5B, 0x1F5B); (0x1F5D, 0x1F5D);
  (0x1F5F, 0x1F7D); (0x1F80, 0x1FB4); (0x1FB6, 0x1FBC); (0x1FBE, 0x1FBE); (0x1FC2, 0x1FC4);
  (0x1FC6, 0x1FCC); (0x1FD0, 0x1FD3); (0x1FD6, 0x1FDB); (0x1FE0, 0x1FEC); (0x1FF2, 0x1FF4);
  (0x1FF6, 0x1FFC); (0x2102, 0x2102); (0x2107, 0x2107); (0x210A, 0x2113); (0x2115, 0x2115);
  (0x2119, 0x211D); (0x2124, 0x2124); (0x2126, 0x2126); (0x2128, 0x2128); (0x212A, 0x212D);
  (0x212F, 0x2134); (0x2139, 0x2139); (0x213C, 0x213F); (0x2145, 0x2149); (0x214E, 0x214E);
  (0x2160, 0x217F); (0x2183, 0x2184); (0x24B6, 0x24E9); (0x2C00, 0x2C7B); (0x2C7E, 0x2CE4);
  (0x2CEB, 0x2CEE); (0x2CF2, 0x2CF3); (0x2D00, 0x2D25); (0x2D27, 0x2D27); (0x2D2D, 0x2D2D);
  (0xA640, 0xA66D); (0xA680, 0xA69B); (0xA722, 0xA76F); (0xA771, 0xA787); (0xA78B, 0xA78E);
  (0xA790, 0xA7CA); (0xA7D0, 0xA7D1); (0xA7D3, 0xA7D3); (0xA7D5, 0xA7D9); (0xA7F5, 0xA7F6);
  (0xA7FA, 0xA7FA); (0xAB30, 0xAB5A); (0xAB60, 0xAB68); (0xAB70, 0xABBF); (0xFB00, 0xFB06);
  (0xFB13, 0xFB17); (0xFF21, 0xFF3A); (0xFF41, 0xFF5A); (0x10400, 0x1044F); (0x104B0, 0x104D3);
  (0x104D8, 0x104FB); (0x10570, 0x1057A); (0x1057C, 0x1058A); (0x1058C, 0x10592); (0x10594, 0x10595);
  (0x10597, 0x105A1); (0x105A3, 0x105B1); (0x105B3, 0x105B9); (0x105BB, 0x105BC); (0x10C80, 0x10CB2);
  (0x10CC0, 0x10CF2); (0x118A0, 0x118DF); (0x16E40, 0x16E7F); (0x1D400, 0x1D454); (0x1D456, 0x1D49C);
  (0x1D49E, 0x1D49F); (0x1D4A2, 0x1D4A2); (0x1D4A5, 0x1D4A6); (0x1D4A9, 0x1D4AC); (0x1D4AE, 0x1D4B9);
  (0x1D4BB, 0x1D4BB); (0x1D4BD, 0x1D4C3); (0x1D4C5, 0x1D505); (0x1D507, 0x1D50A); (0x1D50D, 0x1D514);
  (0x1D516, 0x1D51C); (0x1D51E, 0x1D539); (0x1D53B, 0x1D53E); (0x1D540, 0x1D544); (0x1D546, 0x1D546);
  (0x1D54A, 0x1D550); (0x1D552, 0x1D6A5); (0x1D6A8, 0x1D6C0); (0x1D6C2, 0x1D6DA); (0x1D6DC, 0x1D6FA);
  (0x1D6FC, 0x1D714); (0x1D716, 0x1D734); (0x1D736, 0x1D74E); (0x1D750, 0x1D76E); (0x1D770, 0x1D788);
  (0x1D78A, 0x1D7A8); (0x1D7AA, 0x1D7C2); (0x1D7C4, 0x1D7CB); (0x1DF00, 0x1DF09); (0x1DF0B, 0x1DF1E);
  (0x1E900, 0x1E943); (0x1F130, 0x1F149); (0x1F150, 0x1F169); (0x1F170, 0x1F189)
]%N.

(** Simple lowercase mappings: every code point of [lo..hi] maps to
    [target + (c - lo)]. *)
Definition LOWER : list (N * N * N) := [
  (0x41, 0x5A, 0x61); (0xC0, 0xD6, 0xE0); (0xD8, 0xDE, 0xF8); (0x100, 0x100, 0x101);
  (0x102, 0x102, 0x103); (0x104, 0x104, 0x105); (0x106, 0x106, 0x107); (0x108, 0x108, 0x109);
  (0x10A, 0x10A, 0x10B); (0x10C, 0x10C, 0x10D); (0x10E, 0x10E, 0x10F); (0x110, 0x110, 0x111);
  (0x112, 0x112, 0x113); (0x114, 0x114, 0x115); (0x116, 0x116, 0x117); (0x118, 0x118, 0x119);
  (0x11A, 0x11A, 0x11B); (0x11C, 0x11C, 0x11D); (0x11E, 0x11E, 0x11F); (0x120, 0x120, 0x121);
  (0x122, 0x122, 0x123); (0x124, 0x124, 0x125); (0x126, 0x126, 0x127); (0x128, 0x128, 0x129);
  (0x12A, 0x12A, 0x12B); (0x12C, 0x12C, 0x12D); (0x12E, 0x12E, 0x12F); (0x132, 0x132, 0x133);
  (0x134, 0x134, 0x135); (0x136, 0x136, 0x137); (0x139, 0x139, 0x13A); (0x13B, 0x13B, 0x13C);
  (0x13D, 0x13D, 0x13E); (0x13F, 0x13F, 0x140); (0x141, 0x141, 0x142); (0x143, 0x143, 0x144);
  (0x145, 0x145, 0x146); (0x147, 0x147, 0x148); (0x14A, 0x14A, 0x14B); (0x14C, 0x14C, 0x14D);
  (0x14E, 0x14E, 0x14F); (0x150, 0x150, 0x151); (0x152, 0x152, 0x153); (0x154, 0x154, 0x155);
  (0x156, 0x156, 0x157); (0x158, 0x158, 0x159); (0x15A, 0x15A, 0x15B); (0x15C, 0x15C, 0x15D);
  (0x15E, 0x15E, 0x15F); (0x160, 0x160, 0x161); (0x162, 0x162, 0x163); (0x164, 0x164, 0x165);
  (0x166, 0x166, 0x167); (0x168, 0x168, 0x169); (0x16A, 0x16A, 0x16B); (0x16C, 0x16C, 0x16D);
  (0x16E, 0x16E, 0x16F); (0x170, 0x170, 0x171); (0x172, 0x172, 0x173); (0x174, 0x174, 0x175);
  (0x176, 0x176, 0x177); (0x178, 0x178, 0xFF); (0x179, 0x179, 0x17A); (0x17B, 0x17B, 0x17C);
  (0x17D, 0x17D, 0x17E); (0x181, 0x181, 0x253); (0x182, 0x182, 0x183); (0x184, 0x184, 0x185);
  (0x186, 0x186, 0x254); (0x187, 0x187, 0x188); (0x189, 0x18A, 0x256); (0x18B, 0x18B, 0x18C);
  (0x18E, 0x18E, 0x1DD); (0x18F, 0x18F, 0x259); (0x190, 0x190, 0x25B); (0x191, 0x191, 0x192);
  (0x193, 0x193, 0x260); (0x194, 0x194, 0x263); (0x196, 0x196, 0x269); (0x197, 0x197, 0x268);
  (0x198, 0x198, 0x199); (0x19C, 0x19C, 0x26F); (0x19D, 0x19D, 0x272); (0x19F, 0x19F, 0x275);
  (0x1A0, 0x1A0, 0x1A1); (0x1A2, 0x1A2, 0x1A3); (0x1A4, 0x1A4, 0x1A5); (0x1A6, 0x1A6, 0x280);
  (0x1A7, 0x1A7, 0x1A8); (0x1A9, 0x1A9, 0x283); (0x1AC, 0x1AC, 0x1AD); (0x1AE, 0x1AE, 0x288);
  (0x1AF, 0x1AF, 0x1B0); (0x1B1, 0x1B2, 0x28A); (0x1B3, 0x1B3, 0x1B4); (0x1B5, 0x1B5, 0x1B6);
  (0x1B7, 0x1B7, 0x292); (0x1B8, 0x1B8, 0x1B9); (0x1BC, 0x1BC, 0x1BD); (0x1C4, 0x1C4, 0x1C6);
  (0x1C5, 0x1C5, 0x1C6); (0x1C7, 0x1C7, 0x1C9); (0x1C8, 0x1C8, 0x1C9); (0x1CA, 0x1CA, 0x1CC);
  (0x1CB, 0x1CB, 0x1CC); (0x1CD, 0x1CD, 0x1CE); (0x1CF, 0x1CF, 0x1D0); (0x1D1, 0x1D1, 0x1D2);
  (0x1D3, 0x1D3, 0x1D4); (0x1D5, 0x1D5, 0x1D6); (0x1D7, 0x1D7, 0x1D8); (0x1D9, 0x1D9, 0x1DA);
  (0x1DB, 0x1DB, 0x1DC); (0x1DE, 0x1DE, 0x1DF); (0x1E0, 0x1E0, 0x1E1); (0x1E2, 0x1E2, 0x1E3);
  (0x1E4, 0x1E4, 0x1E5); (0x1E6, 0x1E6, 0x1E7); (0x1E8, 0x1E8, 0x1E9); (0x1EA, 0x1EA, 0x1EB);
  (0x1EC, 0x1EC, 0x1ED); (0x1EE, 0x1EE, 0x1EF); (0x1F1, 0x1F1, 0x1F3); (0x1F2, 0x1F2, 0x1F3);
  (0x1F4, 0x1F4, 0x1F5); (0x1F6, 0x1F6, 0x195); (0x1F7, 0x1F7, 0x1BF); (0x1F8, 0x1F8, 0x1F9);
  (0x1FA, 0x1FA, 0x1FB); (0x1FC, 0x1FC, 0x1FD); (0x1FE, 0x1FE, 0x1FF); (0x200, 0x200, 0x201);
  (0x202, 0x202, 0x203); (0x204, 0x204, 0x205); (0x206, 0x206, 0x207); (0x208, 0x208, 0x209);
  (0x20A, 0x20A, 0x20B); (0x20C, 0x20C, 0x20D); (0x20E, 0x20E, 0x20F); (0x210, 0x210, 0x211);
  (0x212, 0x212, 0x213); (0x214, 0x214, 0x215); (0x216, 0x216, 0x217); (0x218, 0x218, 0x219);
  (0x21A, 0x21A, 0x21B); (0x21C, 0x21C, 0x21D); (0x21E, 0x21E, 0x21F); (0x220, 0x220, 0x19E);
  (0x222, 0x222, 0x223); (0x224, 0x224, 0x225); (0x226, 0x226, 0x227); (0x228, 0x228, 0x229);
  (0x22A, 0x22A, 0x22B); (0x22C, 0x22C, 0x22D); (0x22E, 0x22E, 0x22F); (0x230, 0x230, 0x231);
  (0x232, 0x232, 0x233); (0x23A, 0x23A, 0x2C65); (0x23B, 0x23B, 0x23C); (0x23D, 0x23D, 0x19A);
  (0x23E, 0x23E, 0x2C66); (0x241, 0x241, 0x242); (0x243, 0x243, 0x180); (0x244, 0x244, 0x289);
  (0x245, 0x245, 0x28C); (0x246, 0x246, 0x247); (0x248, 0x248, 0x249); (0x24A, 0x24A, 0x24B);
  (0x24C, 0x24C, 0x24D); (0x24E, 0x24E, 0x24F); (0x370, 0x370, 0x371); (0x372, 0x372, 0x373);
  (0x376, 0x376, 0x377); (0x37F, 0x37F, 0x3F3); (0x386, 0x386, 0x3AC); (0x388, 0x38A, 0x3AD);
  (0x38C, 0x38C, 0x3CC); (0x38E, 0x38F, 0x3CD); (0x391, 0x3A1, 0x3B1); (0x3A3, 0x3AB, 0x3C3);
  (0x3CF, 0x3CF, 0x3D7); (0x3D8, 0x3D8, 0x3D9); (0x3DA, 0x3DA, 0x3DB); (0x3DC, 0x3DC, 0x3DD);
  (0x3DE, 0x3DE, 0x3DF); (0x3E0, 0x3E0, 0x3E1); (0x3E2, 0x3E2, 0x3E3); (0x3E4, 0x3E4, 0x3E5);
  (0x3E6, 0x3E6, 0x3E7); (0x3E8, 0x3E8, 0x3E9); (0x3EA, 0x3EA, 0x3EB); (0x3EC, 0x3EC, 0x3ED);
  (0x3EE, 0x3EE, 0x3EF); (0x3F4, 0x3F4, 0x3B8); (0x3F7, 0x3F7, 0x3F8); (0x3F9, 0x3F9, 0x3F2);
  (0x3FA, 0x3FA, 0x3FB); (0x3FD, 0x3FF, 0x37B); (0x400, 0x40F, 0x450); (0x410, 0x42F, 0x430);
  (0x460, 0x460, 0x461); (0x462, 0x462, 0x463); (0x464, 0x464, 0x465); (0x466, 0x466, 0x467);
  (0x468, 0x468, 0x469); (0x46A, 0x46A, 0x46B); (0x46C, 0x46C, 0x46D); (0x46E, 0x46E, 0x46F);
  (0x470, 0x470, 0x471); (0x472, 0x472, 0x473); (0x474, 0x474, 0x475); (0x476, 0x476, 0x477);
  (0x478, 0x478, 0x479); (0x47A, 0x47A, 0x47B); (0x47C, 0x47C, 0x47D); (0x47E, 0x47E, 0x47F);
  (0x480, 0x480, 0x481); (0x48A, 0x48A, 0x48B); (0x48C, 0x48C, 0x48D); (0x48E, 0x48E, 0x48F);
  (0x490, 0x490, 0x491); (0x492, 0x492, 0x493); (0x494, 0x494, 0x495); (0x496, 0x496, 0x497);
  (0x498, 0x498, 0x499); (0x49A, 0x49A, 0x49B); (0x49C, 0x49C, 0x49D); (0x49E, 0x49E, 0x49F);
  (0x4A0, 0x4A0, 0x4A1); (0x4A2, 0x4A2, 0x4A3); (0x4A4, 0x4A4, 0x4A5); (0x4A6, 0x4A6, 0x4A7);
  (0x4A8, 0x4A8, 0x4A9); (0x4AA, 0x4AA, 0x4AB); (0x4AC, 0x4AC, 0x4AD); (0x4AE, 0x4AE, 0x4AF);
  (0x4B0, 0x4B0, 0x4B1); (0x4B2, 0x4B2, 0x4B3); (0x4B4, 0x4B4, 0x4B5); (0x4B6, 0x4B6, 0x4B7);
  (0x4B8, 0x4B8, 0x4B9); (0x4BA, 0x4BA, 0x4BB); (0x4BC, 0x4BC, 0x4BD); (0x4BE, 0x4BE, 0x4BF);
  (0x4C0, 0x4C0, 0x4CF); (0x4C1, 0x4C1, 0x4C2); (0x4C3, 0x4C3, 0x4C4); (0x4C5, 0x4C5, 0x4C6);
  (0x4C7, 0x4C7, 0x4C8); (0x4C9, 0x4C9, 0x4CA); (0x4CB, 0x4CB, 0x4CC); (0x4CD, 0x4CD, 0x4CE);
  (0x4D0, 0x4D0, 0x4D1); (0x4D2, 0x4D2, 0x4D3); (0x4D4, 0x4D4, 0x4D5); (0x4D6, 0x4D6, 0x4D7);
  (0x4D8, 0x4D8, 0x4D9); (0x4DA, 0x4DA, 0x4DB); (0x4DC, 0x4DC, 0x4DD); (0x4DE, 0x4DE, 0x4DF);
  (0x4E0, 0x4E0, 0x4E1); (0x4E2, 0x4E2, 0x4E3); (0x4E4, 0x4E4, 0x4E5); (0x4E6, 0x4E6, 0x4E7);
  (0x4E8, 0x4E8, 0x4E9); (0x4EA, 0x4EA, 0x4EB); (0x4EC, 0x4EC, 0x4ED); (0x4EE, 0x4EE, 0x4EF);
  (0x4F0, 0x4F0, 0x4F1); (0x4F2, 0x4F2, 0x4F3); (0x4F4, 0x4F4, 0x4F5); (0x4F6, 0x4F6, 0x4F7);
  (0x4F8, 0x4F8, 0x4F9); (0x4FA, 0x4FA, 0x4FB); (0x4FC, 0x4FC, 0x4FD); (0x4FE, 0x4FE, 0x4FF);
  (0x500, 0x500, 0x501); (0x502, 0x502, 0x503); (0x504, 0x504, 0x505); (0x506, 0x506, 0x507);
  (0x508, 0x508, 0x509); (0x50A, 0x50A, 0x50B); (0x50C, 0x50C, 0x50D); (0x50E, 0x50E, 0x50F);
  (0x510, 0x510, 0x511); (0x512, 0x512, 0x513); (0x514, 0x514, 0x515); (0x516, 0x516, 0x517);
  (0x518, 0x518, 0x519); (0x51A, 0x51A, 0x51B); (0x51C, 0x51C, 0x51D); (0x51E, 0x51E, 0x51F);
  (0x520, 0x520, 0x521); (0x522, 0x522, 0x523); (0x524, 0x524, 0x525); (0x526, 0x526, 0x527);
  (0x528, 0x528, 0x529); (0x52A, 0x52A, 0x52B); (0x52C, 0x52C, 0x52D); (0x52E, 0x52E, 0x52F);
  (0x531, 0x556, 0x561); (0x10A0, 0x10C5, 0x2D00); (0x10C7, 0x10C7, 0x2D27); (0x10CD, 0x10CD, 0x2D2D);
  (0x13A0, 0x13EF, 0xAB70); (0x13F0, 0x13F5, 0x13F8); (0x1C90, 0x1CBA, 0x10D0); (0x1CBD, 0x1CBF, 0x10FD);
  (0x1E00, 0x1E00, 0x1E01); (0x1E02, 0x1E02, 0x1E03); (0x1E04, 0x1E04, 0x1E05); (0x1E06, 0x1E06, 0x1E07);
  (0x1E08, 0x1E08, 0x1E09); (0x1E0A, 0x1E0A, 0x1E0B); (0x1E0C, 0x1E0C, 0x1E0D); (0x1E0E, 0x1E0E, 0x1E0F);
  (0x1E10, 0x1E10, 0x1E11); (0x1E12, 0x1E12, 0x1E13); (0x1E14, 0x1E14, 0x1E15); (0x1E16, 0x1E16, 0x1E17);
  (0x1E18, 0x1E18, 0x1E19); (0x1E1A, 0x1E1A, 0x1E1B); (0x1E1C, 0x1E1C, 0x1E1D); (0x1E1E, 0x1E1E, 0x1E1F);
  (0x1E20, 0x1E20, 0x1E21); (0x1E22, 0x1E22, 0x1E23); (0x1E24, 0x1E24, 0x1E25); (0x1E26, 0x1E26, 0x1E27);
  (0x1E28, 0x1E28, 0x1E29); (0x1E2A, 0x1E2A, 0x1E2B); (0x1E2C, 0x1E2C, 0x1E2D); (0x1E2E, 0x1E2E, 0x1E2F);
  (0x1E30, 0x1E30, 0x1E31); (0x1E32, 0x1E32, 0x1E33); (0x1E34, 0x1E34, 0x1E35); (0x1E36, 0x1E36, 0x1E37);
  (0x1E38, 0x1E38, 0x1E39); (0x1E3A, 0x1E3A, 0x1E3B); (0x1E3C, 0x1E3C, 0x1E3D); (0x1E3E, 0x1E3E, 0x1E3F);
  (0x1E40, 0x1E40, 0x1E41); (0x1E42, 0x1E42, 0x1E43); (0x1E44, 0x1E44, 0x1E45); (0x1E46, 0x1E46, 0x1E47);
  (0x1E48, 0x1E48, 0x1E49); (0x1E4A, 0x1E4A, 0x1E4B); (0x1E4C, 0x1E4C, 0x1E4D); (0x1E4E, 0x1E4E, 0x1E4F);
  (0x1E50, 0x1E50, 0x1E51); (0x1E52, 0x1E52, 0x1E53); (0x1E54, 0x1E54, 0x1E55); (0x1E56, 0x1E56, 0x1E57);
  (0x1E58, 0x1E58, 0x1E59); (0x1E5A, 0x1E5A, 0x1E5B); (0x1E5C, 0x1E5C, 0x1E5D); (0x1E5E, 0x1E5E, 0x1E5F);
  (0x1E60, 0x1E60, 0x1E61); (0x1E62, 0x1E62, 0x1E63); (0x1E64, 0x1E64, 0x1E65); (0x1E66, 0x1E66, 0x1E67);
  (0x1E68, 0x1E68, 0x1E69); (0x1E6A, 0x1E6A, 0x1E6B); (0x1E6C, 0x1E6C, 0x1E6D); (0x1E6E, 0x1E6E, 0x1E6F);
  (0x1E70, 0x1E70, 0x1E71); (0x1E72, 0x1E72, 0x1E73); (0x1E74, 0x1E74, 0x1E75); (0x1E76, 0x1E76, 0x1E77);
  (0x1E78, 0x1E78, 0x1E79); (0x1E7A, 0x1E7A, 0x1E7B); (0x1E7C, 0x1E7C, 0x1E7D); (0x1E7E, 0x1E7E, 0x1E7F);
  (0x1E80, 0x1E80, 0x1E81); (0x1E82, 0x1E82, 0x1E83); (0x1E84, 0x1E84, 0x1E85); (0x1E86, 0x1E86, 0x1E87);
  (0x1E88, 0x1E88, 0x1E89); (0x1E8A, 0x1E8A, 0x1E8B); (0x1E8C, 0x1E8C, 0x1E8D); (0x1E8E, 0x1E8E, 0x1E8F);
  (0x1E90, 0x1E90, 0x1E91); (0x1E92, 0x1E92, 0x1E93); (0x1E94, 0x1E94, 0x1E95); (0x1E9E, 0x1E9E, 0xDF);
  (0x1EA0, 0x1EA0, 0x1EA1); (0x1EA2, 0x1EA2, 0x1EA3); (0x1EA4, 0x1EA4, 0x1EA5); (0x1EA6, 0x1EA6, 0x1EA7);
  (0x1EA8, 0x1EA8, 0x1EA9); (0x1EAA, 0x1EAA, 0x1EAB); (0x1EAC, 0x1EAC, 0x1EAD); (0x1EAE, 0x1EAE, 0x1EAF);
  (0x1EB0, 0x1EB0, 0x1EB1); (0x1EB2, 0x1EB2, 0x1EB3); (0x1EB4, 0x1EB4, 0x1EB5); (0x1EB6, 0x1EB6, 0x1EB7);
  (0x1EB8, 0x1EB8, 0x1EB9); (0x1EBA, 0x1EBA, 0x1EBB); (0x1EBC, 0x1EBC, 0x1EBD); (0x1EBE, 0x1EBE, 0x1EBF);
  (0x1EC0, 0x1EC0, 0x1EC1); (0x1EC2, 0x1EC2, 0x1EC3); (0x1EC4, 0x1EC4, 0x1EC5); (0x1EC6, 0x1EC6, 0x1EC7);
  (0x1EC8, 0x1EC8, 0x1EC9); (0x1ECA, 0x1ECA, 0x1ECB); (0x1ECC, 0x1ECC, 0x1ECD); (0x1ECE, 0x1ECE, 0x1ECF);
  (0x1ED0, 0x1ED0, 0x1ED1); (0x1ED2, 0x1ED2, 0x1ED3); (0x1ED4, 0x1ED4, 0x1ED5); (0x1ED6, 0x1ED6, 0x1ED7);
  (0x1ED8, 0x1ED8, 0x1ED9); (0x1EDA, 0x1EDA, 0x1EDB); (0x1EDC, 0x1EDC, 0x1EDD); (0x1EDE, 0x1EDE, 0x1EDF);
  (0x1EE0, 0x1EE0, 0x1EE1); (0x1EE2, 0x1EE2, 0x1EE3); (0x1EE4, 0x1EE4, 0x1EE5); (0x1EE6, 0x1EE6, 0x1EE7);
  (0x1EE8, 0x1EE8, 0x1EE9); (0x1EEA, 0x1EEA, 0x1EEB); (0x1EEC, 0x1EEC, 0x1EED); (0x1EEE, 0x1EEE, 0x1EEF);
  (0x1EF0, 0x1EF0, 0x1EF1); (0x1EF2, 0x1EF2, 0x1EF3); (0x1EF4, 0x1EF4, 0x1EF5); (0x1EF6, 0x1EF6, 0x1EF7);
  (0x1EF8, 0x1EF8, 0x1EF9); (0x1EFA, 0x1EFA, 0x1EFB); (0x1EFC, 0x1EFC, 0x1EFD); (0x1EFE, 0x1EFE, 0x1EFF);
  (0x1F08, 0x1F0F, 0x1F00); (0x1F18, 0x1F1D, 0x1F10); (0x1F28, 0x1F2F, 0x1F20); (0x1F38, 0x1F3F, 0x1F30);
  (0x1F48, 0x1F4D, 0x1F40); (0x1F59, 0x1F59, 0x1F51); (0x1F5B, 0x1F5B, 0x1F53); (0x1F5D, 0x1F5D, 0x1F55);
  (0x1F5F, 0x1F5F, 0x1F57); (0x1F68, 0x1F6F, 0x1F60); (0x1F88, 0x1F8F, 0x1F80); (0x1F98, 0x1F9F, 0x1F90);
  (0x1FA8, 0x1FAF, 0x1FA0); (0x1FB8, 0x1FB9, 0x1FB0); (0x1FBA, 0x1FBB, 0x1F70); (0x1FBC, 0x1FBC, 0x1FB3);
  (0x1FC8, 0x1FCB, 0x1F72); (0x1FCC, 0x1FCC, 0x1FC3); (0x1FD8, 0x1FD9, 0x1FD0); (0x1FDA, 0x1FDB, 0x1F76);
  (0x1FE8, 0x1FE9, 0x1FE0); (0x1FEA, 0x1FEB, 0x1F7A); (0x1FEC, 0x1FEC, 0x1FE5); (0x1FF8, 0x1FF9, 0x1F78);
  (0x1FFA, 0x1FFB, 0x1F7C); (0x1FFC, 0x1FFC, 0x1FF3); (0x2126, 0x2126, 0x3C9); (0x212A, 0x212A, 0x6B);
  (0x212B, 0x212B, 0xE5); (0x2132, 0x2132, 0x214E); (0x2160, 0x216F, 0x2170); (0x2183, 0x2183, 0x2184);
  (0x24B6, 0x24CF, 0x24D0); (0x2C00, 0x2C2F, 0x2C30); (0x2C60, 0x2C60, 0x2C61); (0x2C62, 0x2C62, 0x26B);
  (0x2C63, 0x2C63, 0x1D7D); (0x2C64, 0x2C64, 0x27D); (0x2C67, 0x2C67, 0x2C68); (0x2C69, 0x2C69, 0x2C6A);
  (0x2C6B, 0x2C6B, 0x2C6C); (0x2C6D, 0x2C6D, 0x251); (0x2C6E, 0x2C6E, 0x271); (0x2C6F, 0x2C6F, 0x250);
  (0x2C70, 0x2C70, 0x252); (0x2C72, 0x2C72, 0x2C73); (0x2C75, 0x2C75, 0x2C76); (0x2C7E, 0x2C7F, 0x23F);
  (0x2C80, 0x2C80, 0x2C81); (0x2C82, 0x2C82, 0x2C83); (0x2C84, 0x2C84, 0x2C85); (0x2C86, 0x2C86, 0x2C87);
  (0x2C88, 0x2C88, 0x2C89); (0x2C8A, 0x2C8A, 0x2C8B); (0x2C8C, 0x2C8C, 0x2C8D); (0x2C8E, 0x2C8E, 0x2C8F);
  (0x2C90, 0x2C90, 0x2C91); (0x2C92, 0x2C92, 0x2C93); (0x2C94, 0x2C94, 0x2C95); (0x2C96, 0x2C96, 0x2C97);
  (0x2C98, 0x2C98, 0x2C99); (0x2C9A, 0x2C9A, 0x2C9B); (0x2C9C, 0x2C9C, 0x2C9D); (0x2C9E, 0x2C9E, 0x2C9F);
  (0x2CA0, 0x2CA0, 0x2CA1); (0x2CA2, 0x2CA2, 0x2CA3); (0x2CA4, 0x2CA4, 0x2CA5); (0x2CA6, 0x2CA6, 0x2CA7);
  (0x2CA8, 0x2CA8, 0x2CA9); (0x2CAA, 0x2CAA, 0x2CAB); (0x2CAC, 0x2CAC, 0x2CAD); (0x2CAE, 0x2CAE, 0x2CAF);
  (0x2CB0, 0x2CB0, 0x2CB1); (0x2CB2, 0x2CB2, 0x2CB3); (0x2CB4, 0x2CB4, 0x2CB5); (0x2CB6, 0x2CB6, 0x2CB7);
  (0x2CB8, 0x2CB8, 0x2CB9); (0x2CBA, 0x2CBA, 0x2CBB); (0x2CBC, 0x2CBC, 0x2CBD); (0x2CBE, 0x2CBE, 0x2CBF);
  (0x2CC0, 0x2CC0, 0x2CC1); (0x2CC2, 0x2CC2, 0x2CC3); (0x2CC4, 0x2CC4, 0x2CC5); (0x2CC6, 0x2CC6, 0x2CC7);
  (0x2CC8, 0x2CC8, 0x2CC9); (0x2CCA, 0x2CCA, 0x2CCB); (0x2CCC, 0x2CCC, 0x2CCD); (0x2CCE, 0x2CCE, 0x2CCF);
  (0x2CD0, 0x2CD0, 0x2CD1); (0x2CD2, 0x2CD2, 0x2CD3); (0x2CD4, 0x2CD4, 0x2CD5); (0x2CD6, 0x2CD6, 0x2CD7);
  (0x2CD8, 0x2CD8, 0x2CD9); (0x2CDA, 0x2CDA, 0x2CDB); (0x2CDC, 0x2CDC, 0x2CDD); (0x2CDE, 0x2CDE, 0x2CDF);
  (0x2CE0, 0x2CE0, 0x2CE1); (0x2CE2, 0x2CE2, 0x2CE3); (0x2CEB, 0x2CEB, 0x2CEC); (0x2CED, 0x2CED, 0x2CEE);
  (0x2CF2, 0x2CF2, 0x2CF3); (0xA640, 0xA640, 0xA641); (0xA642, 0xA642, 0xA643); (0xA644, 0xA644, 0xA645);
  (0xA646, 0xA646, 0xA647); (0xA648, 0xA648, 0xA649); (0xA64A, 0xA64A, 0xA64B); (0xA64C, 0xA64C, 0xA64D);
  (0xA64E, 0xA64E, 0xA64F); (0xA650, 0xA650, 0xA651); (0xA652, 0xA652, 0xA653); (0xA654, 0xA654, 0xA655);
  (0xA656, 0xA656, 0xA657); (0xA658, 0xA658, 0xA659); (0xA65A, 0xA65A, 0xA65B); (0xA65C, 0xA65C, 0xA65D);
  (0xA65E, 0xA65E, 0xA65F); (0xA660, 0xA660, 0xA661); (0xA662, 0xA662, 0xA663); (0xA664, 0xA664, 0xA665);
  (0xA666, 0xA666, 0xA667); (0xA668, 0xA668, 0xA669); (0xA66A, 0xA66A, 0xA66B); (0xA66C, 0xA66C, 0xA66D);
  (0xA680, 0xA680, 0xA681); (0xA682, 0xA682, 0xA683); (0xA684, 0xA684, 0xA685); (0xA686, 0xA686, 0xA687);
  (0xA688, 0xA688, 0xA689); (0xA68A, 0xA68A, 0xA68B); (0xA68C, 0xA68C, 0xA68D); (0xA68E, 0xA68E, 0xA68F);
  (0xA690, 0xA690, 0xA691); (0xA692, 0xA692, 0xA693); (0xA694, 0xA694, 0xA695); (0xA696, 0xA696, 0xA697);
  (0xA698, 0xA698, 0xA699); (0xA69A, 0xA69A, 0xA69B); (0xA722, 0xA722, 0xA723); (0xA724, 0xA724, 0xA725);
  (0xA726, 0xA726, 0xA727); (0xA728, 0xA728, 0xA729); (0xA72A, 0xA72A, 0xA72B); (0xA72C, 0xA72C, 0xA72D);
  (0xA72E, 0xA72E, 0xA72F); (0xA732, 0xA732, 0xA733); (0xA734, 0xA734, 0xA735); (0xA736, 0xA736, 0xA737);
  (0xA738, 0xA738, 0xA739); (0xA73A, 0xA73A, 0xA73B); (0xA73C, 0xA73C, 0xA73D); (0xA73E, 0xA73E, 0xA73F);
  (0xA740, 0xA740, 0xA741); (0xA742, 0xA742, 0xA743); (0xA744, 0xA744, 0xA745); (0xA746, 0xA746, 0xA747);
  (0xA748, 0xA748, 0xA749); (0xA74A, 0xA74A, 0xA74B); (0xA74C, 0xA74C, 0xA74D); (0xA74E, 0xA74E, 0xA74F);
  (0xA750, 0xA750, 0xA751); (0xA752, 0xA752, 0xA753); (0xA754, 0xA754, 0xA755); (0xA756, 0xA756, 0xA757);
  (0xA758, 0xA758, 0xA759); (0xA75A, 0xA75A, 0xA75B); (0xA75C, 0xA75C, 0xA75D); (0xA75E, 0xA75E, 0xA75F);
  (0xA760, 0xA760, 0xA761); (0xA762, 0xA762, 0xA763); (0xA764, 0xA764, 0xA765); (0xA766, 0xA766, 0xA767);
  (0xA768, 0xA768, 0xA769); (0xA76A, 0xA76A, 0xA76B); (0xA76C, 0xA76C, 0xA76D); (0xA76E, 0xA76E, 0xA76F);
  (0xA779, 0xA779, 0xA77A); (0xA77B, 0xA77B, 0xA77C); (0xA77D, 0xA77D, 0x1D79); (0xA77E, 0xA77E, 0xA77F);
  (0xA780, 0xA780, 0xA781); (0xA782, 0xA782, 0xA783); (0xA784, 0xA784, 0xA785); (0xA786, 0xA786, 0xA787);
  (0xA78B, 0xA78B, 0xA78C); (0xA78D, 0xA78D, 0x265); (0xA790, 0xA790, 0xA791); (0xA792, 0xA792, 0xA793);
  (0xA796, 0xA796, 0xA797); (0xA798, 0xA798, 0xA799); (0xA79A, 0xA79A, 0xA79B); (0xA79C, 0xA79C, 0xA79D);
  (0xA79E, 0xA79E, 0xA79F); (0xA7A0, 0xA7A0, 0xA7A1); (0xA7A2, 0xA7A2, 0xA7A3); (0xA7A4, 0xA7A4, 0xA7A5);
  (0xA7A6, 0xA7A6, 0xA7A7); (0xA7A8, 0xA7A8, 0xA7A9); (0xA7AA, 0xA7AA, 0x266); (0xA7AB, 0xA7AB, 0x25C);
  (0xA7AC, 0xA7AC, 0x261); (0xA7AD, 0xA7AD, 0x26C); (0xA7AE, 0xA7AE, 0x26A); (0xA7B0, 0xA7B0, 0x29E);
  (0xA7B1, 0xA7B1, 0x287); (0xA7B2, 0xA7B2, 0x29D); (0xA7B3, 0xA7B3, 0xAB53); (0xA7B4, 0xA7B4, 0xA7B5);
  (0xA7B6, 0xA7B6, 0xA7B7); (0xA7B8, 0xA7B8, 0xA7B9); (0xA7BA, 0xA7BA, 0xA7BB); (0xA7BC, 0xA7BC, 0xA7BD);
  (0xA7BE, 0xA7BE, 0xA7BF); (0xA7C0, 0xA7C0, 0xA7C1); (0xA7C2, 0xA7C2, 0xA7C3); (0xA7C4, 0xA7C4, 0xA794);
  (0xA7C5, 0xA7C5, 0x282); (0xA7C6, 0xA7C6, 0x1D8E); (0xA7C7, 0xA7C7, 0xA7C8); (0xA7C9, 0xA7C9, 0xA7CA);
  (0xA7D0, 0xA7D0, 0xA7D1); (0xA7D6, 0xA7D6, 0xA7D7); (0xA7D8, 0xA7D8, 0xA7D9); (0xA7F5, 0xA7F5, 0xA7F6);
  (0xFF21, 0xFF3A, 0xFF41); (0x10400, 0x10427, 0x10428); (0x104B0, 0x104D3, 0x104D8); (0x10570, 0x1057A, 0x10597);
  (0x1057C, 0x1058A, 0x105A3); (0x1058C, 0x10592, 0x105B3); (0x10594, 0x10595, 0x105BB); (0x10C80, 0x10CB2, 0x10CC0);
  (0x118A0, 0x118BF, 0x118C0); (0x16E40, 0x16E5F, 0x16E60); (0x1E900, 0x1E921, 0x1E922)
]%N.

(** The one code point whose lowercase is more than one code point. *)
Definition LOWER_SPECIAL : list (N * str) := [(0x130, [0x69; 0x307])].

Definition isspace (c : char) : bool := in_ranges c WHITESPACE.
Definition isdigit_char (c : char) : bool := in_ranges c DIGIT.
Definition isdecimal (c : char) : bool := in_ranges c DECIMAL.
Definition case_ignorable (c : char) : bool := in_ranges c CASE_IGNORABLE.
Definition cased (c : char) : bool := in_ranges c CASED.

(** *** Tests and slices *)

Definition str_eqb (a b : str) : bool := bool_decide (a = b).

(** [not s] *)
Definition is_empty (s : str) : bool :=
  match s with [] => true | _ => false end.

(** [s.startswith(p)] *)
Fixpoint startswith (p s : str) : bool :=
  match p, s with
  | [], _ => true
  | a :: p', b :: s' => (a =? b) && startswith p' s'
  | _ :: _, [] => false
  end.

(** [sub in s] *)
Fixpoint contains (sub s : str) : bool :=
  startswith sub s ||
  match s with
  | [] => false
  | _ :: s' => contains sub s'
  end.

(** [s.isdigit()] *)
Definition isdigit (s : str) : bool :=
  negb (is_empty s) && forallb isdigit_char s.

Fixpoint drop_while (p : char -> bool) (s : str) : str :=
  match s with
  | [] => []
  | c :: s' => if p c then drop_while p s' else s
  end.

(** [s.lstrip()], [s.rstrip()], [s.strip()] *)
Definition lstrip (s : str) : str := drop_while isspace s.
Definition rstrip (s : str) : str := rev (drop_while isspace (rev s)).
Definition strip (s : str) : str := rstrip (lstrip s).

(** [s.lstrip(chars)] *)
Definition lstrip_chars (chars s : str) : str :=
  drop_while (fun c => bool_decide (c ∈ chars)) s.

(** *** [split], [replace], [join]

    Both scans run left to right over non-overlapping occurrences of a
    non-empty [sep]; [skip] counts the characters of the occurrence that
    are still to be passed over, [cur] is the current piece, reversed. *)

Fixpoint split_go (sep : str) (skip : nat) (cur : str) (s : str) : list str :=
  match s with
  | [] => [rev cur]
  | c :: s' =>
    match skip with
    | S k => split_go sep k cur s'
    | O =>
      if startswith sep s
      then rev cur :: split_go sep (length sep - 1) [] s'
      else split_go sep O (c :: cur) s'
    end
  end.

(** [s.split(sep)] *)
Definition split (sep s : str) : list str := split_go sep 0 [] s.

Fixpoint replace_go (old new : str) (skip : nat) (s : str) : str :=
  match s with
  | [] => []
  | c :: s' =>
    match skip with
    | S k => replace_go old new k s'
    | O =>
      if startswith old s
      then new ++ replace_go old new (length old - 1) s'
      else c :: replace_go old new O s'
    end
  end.

(** [s.replace(old, new)] *)
Definition replace (old new s : str) : str := replace_go old new 0 s.

(** [sep.join(pieces)] *)
Fixpoint join (sep : str) (pieces : list str) : str :=
  match pieces with
  | [] => []
  | [p] => p
  | p :: rest => p ++ sep ++ join sep rest
  end.

(** *** [str.lower]

    Every code point is replaced by its full lowercase mapping, except
    GREEK CAPITAL LETTER SIGMA, which becomes a final sigma when it is
    preceded by a cased letter and not followed by one (case-ignorable
    code points being skipped on both sides). *)

Fixpoint lower_simple (c : char) (t : list (N * N * N)) : option char :=
  match t with
  | [] => None
  | (lo, hi, target) :: t' =>
    if (lo <=? c) && (c <=? hi) then Some (target + (c - lo))
    else lower_simple c t'
  end.

Definition lower_special (c : char) : option str :=
  snd <$> List.find (fun e => fst e =? c) LOWER_SPECIAL.

Definition lower_char (c : char) : str :=
  match lower_special c with
  | Some l => l
  | None =>
    match lower_simple c LOWER with
    | Some c' => [c']
    | None => [c]
    end
  end.

Definition SIGMA : char := 0x3A3.

Fixpoint cased_before (before : str) : bool :=
  match before with
  | [] => false
  | c :: r => if case_ignorable c then cased_before r else cased c
  end.

Fixpoint no_cased_after (after : str) : bool :=
  match after with
  | [] => true
  | c :: r => if case_ignorable c then no_cased_after r else negb (cased c)
  end.

(** [before] holds the characters already passed, nearest first. *)
Fixpoint lower_go (before s : str) : str :=
  match s with
  | [] => []
  | c :: r =>
    (if c =? SIGMA
     then [if cased_before before && no_cased_after r then 0x3C2 else 0x3C3]
     else lower_char c) ++ lower_go (c :: before) r
  end.

(** [s.lower()] *)
Definition lower (s : str) : str := lower_go [] s.

End Py.

(** ** Part II. Regular expressions

    Backtracking matchers in continuation-passing style, in the priority
    order of Python's [re]: a greedy repetition tries the longest run
    first, a lazy one the shortest, an alternation its left branch. A
    continuation receives what the construct captured. Repetitions range
    over one-character classes, which is all the patterns of the source
    need. *)

Module Re.
Import Py.

Section Combinators.
Context {R : Type}.

Definition lit (c : char) (k : str -> option R) (s : str) : option R :=
  match s with
  | x :: s' => if x =? c then k s' else None
  | [] => None
  end.

(** a literal word *)
Fixpoint lits (w : str) (k : str -> option R) (s : str) : option R :=
  match w with
  | [] => k s
  | c :: w' => lit c (lits w' k) s
  end.

Definition alt (a b : str -> option R) (s : str) : option R :=
  match a s with
  | Some r => Some r
  | None => b s
  end.

(** [$]: the end of the string, or just before a final line feed. *)
Definition eos (r : option R) (s : str) : option R :=
  match s with
  | [] => r
  | [c] => if c =? LF then r else None
  | _ => None
  end.

Fixpoint star_from (p : char -> bool) (k : str -> str -> option R)
    (acc s : str) : option R :=
  match s with
  | c :: s' =>
    if p c then
      match star_from p k (acc ++ [c]) s' with
      | Some r => Some r
      | None => k acc s
      end
    else k acc s
  | [] => k acc []
  end.

(** [p*] and [p+], greedy *)
Definition star (p : char -> bool) (k : str -> str -> option R) : str -> option R :=
  star_from p k [].

Definition plus (p : char -> bool) (k : str -> str -> option R) (s : str) : option R :=
  match s with
  | c :: s' => if p c then star_from p k [c] s' else None
  | [] => None
  end.

Fixpoint lazy_from (p : char -> bool) (k : str -> str -> option R)
    (acc s : str) : option R :=
  match k acc s with
  | Some r => Some r
  | None =>
    match s with
    | c :: s' => if p c then lazy_from p k (acc ++ [c]) s' else None
    | [] => None
    end
  end.

(** [p+?], lazy *)
Definition lazy_plus (p : char -> bool) (k : str -> str -> option R) (s : str) : option R :=
  match s with
  | c :: s' => if p c then lazy_from p k [c] s' else None
  | [] => None
  end.

(** [p{lo,hi}], greedy: [lo] and [hi] count what is still required and
    still allowed. *)
Fixpoint rep_from (p : char -> bool) (lo hi : nat) (k : str -> str -> option R)
    (acc s : str) : option R :=
  let stop := match lo with O => k acc s | S _ => None end in
  match hi, s with
  | S hi', c :: s' =>
    if p c then
      match rep_from p (pred lo) hi' k (acc ++ [c]) s' with
      | Some r => Some r
      | None => stop
      end
    else stop
  | _, _ => stop
  end.

Definition rep (p : char -> bool) (lo hi : nat) (k : str -> str -> option R) : str -> option R :=
  rep_from p lo hi k [].
End Combinators.

(** [.] matches everything but a line feed. *)
Definition dot (c : char) : bool := negb (c =? LF).

(** [re.search(m, s)] for a matcher [m] anchored at its argument's start. *)
Fixpoint search {R : Type} (m : str -> option R) (s : str) : option R :=
  match m s with
  | Some r => Some r
  | None =>
    match s with
    | [] => None
    | _ :: s' => search m s'
    end
  end.

(** [re.findall(m, s)] for a matcher that returns the whole, non-empty,
    matched text as its single group. *)
Fixpoint findall_go (m : str -> option str) (skip : nat) (s : str) : list str :=
  match s with
  | [] => []
  | _ :: s' =>
    match skip with
    | S k => findall_go m k s'
    | O =>
      match m s with
      | Some g => g :: findall_go m (length g - 1) s'
      | None => findall_go m O s'
      end
    end
  end.

Definition findall (m : str -> option str) (s : str) : list str := findall_go m 0 s.

(** [re.sub(cls, '', s)] for a one-character class [cls]. *)
Definition sub_class (cls : char -> bool) (s : str) : str :=
  List.filter (fun c => negb (cls c)) s.

End Re.

(** ** Part III. [DataProcessor] ([src/processor.py]) *)

Module Processor.
Import Py.

Definition MARKER : str := utf8 "【系統補充位置資訊】".
Definition ADMIN_FOOTER : str :=
  utf8 "Overseas Chinese and Mainland Chinese Students Advising Division
列印成績單".

Definition noise_patterns : list str := [
  utf8 "Administration Building - List of Offices";
  utf8 "Main Content";
  utf8 "地圖 MAP";
  utf8 "校園景觀 Campus View";
  utf8 "更多資訊";
  utf8 "學校地圖上的建物編號";
  utf8 "Building ID /";
  utf8 "單位清單 / Offices list"
].

(** Removal of an enrichment block (steps 0 and the final cleanup). *)
Definition cut_marker (text : str) : str :=
  if contains MARKER text then strip (hd [] (split MARKER text)) else text.

(** Step 1: the fixes applied to the [admin] department. *)
Definition dept_prefix (dept text : str) : str :=
  if str_eqb dept (utf8 "admin")
  then hd [] (split ADMIN_FOOTER
                (replace (utf8 "Admi nistration") (utf8 "Administration") text))
  else text.

(** Step 2, the body of the loop over lines: [None] when the line is
    dropped. *)
Definition clean_line (line : str) : option str :=
  let line := strip line in
  if is_empty line then None
  else if existsb (fun pattern => contains pattern line) noise_patterns then None
  else Some (if startswith (utf8 "##") line
             then strip (lstrip_chars (utf8 "#") line)
             else line).

Definition is_room (line : str) : bool :=
  (isdigit line && (length line <=? 4)%nat)
  || (startswith (utf8 "B") line && isdigit (drop 1 line)).

Definition format_floor (line : str) : str :=
  if contains (utf8 "樓") line && (length line <? 10)%nat
  then (if negb (startswith (utf8 "##") line) then utf8 "## " ++ line else line)
  else line.

Definition format_office (line next1 next2 : str) : str :=
  utf8 "- " ++ line ++ utf8 " " ++ next1 ++ utf8 " (" ++ next2 ++ utf8 ")".

(** Step 3, the [while] loop, on the lines from index [i] on. [None] is the
    [IndexError] of [next1[0]] on an empty [next1]. *)
Fixpoint reformat (clean_lines : list str) : option (list str) :=
  match clean_lines with
  | [] => Some []
  | line :: rest =>
    let single := cons (format_floor line) <$> reformat rest in
    if is_room line then
      match rest with
      | next1 :: next2 :: rest' =>
        match next1 with
        | [] => None
        | c :: _ =>
          if negb (isdigit_char c || contains (utf8 "#") next1
                   || contains (utf8 "樓") next1)
          then cons (format_office line next1 next2) <$> reformat rest'
          else single
        end
      | _ => single
      end
    else single
  end.

Definition clean_text_advanced (text dept : str) : option str :=
  if is_empty text then Some []
  else
    let text := cut_marker text in
    let text := dept_prefix dept text in
    let lines := split [LF] text in
    let clean_lines := omap clean_line lines in
    final_lines ← reformat clean_lines;
    Some (cut_marker (join [LF] final_lines)).

(** [_extract_title] *)
Definition _extract_title (content : str) : str :=
  if is_empty content then []
  else
    match List.find (fun line => negb (is_empty (strip line))) (split [LF] content) with
    | Some line => strip line
    | None => []
    end.

Definition unit_suffixes : list str :=
  map utf8 ["組"; "處"; "中心"; "部"; "室"; "館"; "系"; "所"; "院"; "課"]%string.

(** [(.{2,12}SUFFIX)]: the group is the whole match. *)
Definition unit_pattern (suffix : str) : str -> option str :=
  Re.rep Re.dot 2 12 (fun g => Re.lits suffix (fun _ => Some (g ++ suffix))).

Fixpoint first_unit (patterns : list str) (text : str) : option str :=
  match patterns with
  | [] => None
  | suffix :: rest =>
    match Re.search (unit_pattern suffix) text with
    | Some g =>
      let unit := strip g in
      match unit with
      | c :: _ => if negb (isdigit_char c) then Some unit else first_unit rest text
      | [] => first_unit rest text
      end
    | None => first_unit rest text
    end
  end.

Definition _extract_unit_name_from_text (text : str) : option str :=
  if is_empty text then None else first_unit unit_suffixes text.

(** The punctuation of the character class of [_normalize_unit_id]; the
    class also holds [\s]. *)
Definition STRIPPED_PUNCTUATION : str := utf8 "()（）[]【】-–—_·•:：,，。．./\".

Definition stripped (c : char) : bool :=
  isspace c || bool_decide (c ∈ STRIPPED_PUNCTUATION).

Definition _normalize_unit_id (unit_name : str) : str :=
  if is_empty unit_name then []
  else lower (Re.sub_class stripped unit_name).

Definition phone_keywords : list str :=
  map utf8 ["電話"; "分機"; "聯絡方式"; "聯絡"; "tel"; "phone"]%string.
Definition service_keywords : list str :=
  map utf8 ["服務"; "業務"; "職掌"; "辦理"; "申請"; "流程"; "規定"; "要件"]%string.

Definition any_keyword (keywords : list str) (lower_text : str) : bool :=
  existsb (fun keyword => contains (lower keyword) lower_text) keywords.

Definition _classify_chunk_type (text : str) : str :=
  if is_empty text then utf8 "general"
  else
    let lower_text := lower text in
    if any_keyword phone_keywords lower_text then utf8 "phone"
    else if any_keyword service_keywords lower_text then utf8 "service"
    else utf8 "general".

(** *** Office records *)

Record Office := {
  building : str;
  floor : str;
  room : str;
  name_zh : str;
  name_en : str
}.

(** [(\d+樓|B\d+)] *)
Definition floor_token (s : str) : option str :=
  Re.alt
    (Re.plus isdecimal (fun ds => Re.lit (ch "樓") (fun _ => Some (ds ++ utf8 "樓"))))
    (Re.lit (ch "B") (Re.plus isdecimal (fun ds _ => Some (utf8 "B" ++ ds))))
    s.

(** The floor-header pattern (line 246): an optional [##] with following
    white space, then group 1, which is returned. *)
Definition floor_re (line : str) : option str :=
  Re.alt (Re.lits (utf8 "##") (Re.star isspace (fun _ => floor_token)))
         floor_token line.

(** [(\d+|B\d+)] *)
Definition room_token {R} (k : str -> str -> option R) : str -> option R :=
  Re.alt (Re.plus isdecimal k)
         (Re.lit (ch "B") (Re.plus isdecimal (fun ds => k (utf8 "B" ++ ds)))).

(** The end of the office pattern: the optional parenthesised group 3 after
    optional white space, then [$]. *)
Definition office_tail (room name : str) : str -> option (str * str * option str) :=
  Re.alt
    (Re.star isspace (fun _ =>
       Re.lit (ch "(") (Re.lazy_plus Re.dot (fun en =>
         Re.lit (ch ")") (Re.eos (Some (room, name, Some en)))))))
    (Re.eos (Some (room, name, None))).

(** The office-entry pattern (line 253): [-], optional white space, group 1
    [(\d+|B\d+)], white space, the lazy group 2 [(.+?)], and the tail above.
    Groups 1, 2 and 3 are returned. *)
Definition office_re (line : str) : option (str * str * option str) :=
  Re.lit (ch "-") (Re.star isspace (fun _ =>
    room_token (fun room =>
      Re.plus isspace (fun _ =>
        Re.lazy_plus Re.dot (fun name => office_tail room name))))) line.

Definition make_office (building_name current_floor : str)
    (groups : str * str * option str) : Office :=
  {| building := building_name;
     floor := current_floor;
     room := groups.1.1;
     name_zh := strip groups.1.2;
     name_en := match groups.2 with Some en => strip en | None => [] end |}.

(** The body of the loop of [_extract_office_locations]; the state is
    [current_floor] and the records appended so far. *)
Definition extract_step (building_name : str) (st : str * list Office) (line : str)
    : str * list Office :=
  let line := strip line in
  match floor_re line with
  | Some token => (token, st.2)
  | None =>
    match office_re line with
    | Some groups =>
      if negb (is_empty st.1)
      then (st.1, st.2 ++ [make_office building_name st.1 groups])
      else st
    | None => st
    end
  end.

Definition _extract_office_locations (content building_name : str) : list Office :=
  snd (fold_left (extract_step building_name) (split [LF] content) ([], [])).

(** *** Chunks *)

Record Chunk := { text : str; metadata : gmap string str }.

Definition location_text (office : Office) : str :=
  utf8 "【" ++ name_zh office ++ utf8 "位置資訊】
" ++ name_zh office ++ utf8 "
英文名稱：" ++ name_en office ++ utf8 "
位置：" ++ building office ++ utf8 " " ++ floor office ++ utf8 " " ++ room office ++ utf8 "室
建築物：" ++ building office ++ utf8 "
樓層：" ++ floor office ++ utf8 "
房間號碼：" ++ room office ++ utf8 "

" ++ name_zh office ++ utf8 "位於" ++ building office ++ floor office
    ++ utf8 "的" ++ room office ++ utf8 "室。
如需前往" ++ name_zh office ++ utf8 "，請至" ++ building office ++ floor office
    ++ utf8 "找" ++ room office ++ utf8 "室。"
  ++ (if negb (is_empty (name_en office))
      then utf8 "
" ++ name_en office ++ utf8 " is located at Room " ++ room office
           ++ utf8 ", " ++ floor office ++ utf8 ", " ++ building office ++ utf8 "."
      else []).

Definition location_chunk (source_url department : str) (office : Office) : Chunk :=
  {| text := location_text office;
     metadata :=
       <["title" := name_zh office ++ utf8 "位置"]>
       (<["url" := source_url]>
       (<["department" := department]>
       (<["type" := utf8 "location"]>
       (<["unit_name" := name_zh office]>
       (<["unit_id" := _normalize_unit_id (name_zh office)]>
       (<["building" := building office]>
       (<["floor" := floor office]>
       (<["room" := room office]> ∅)))))))) |}.

Definition _create_location_chunks (offices : list Office) (source_url department : str)
    : list Chunk :=
  map (location_chunk source_url department) offices.

(** The metadata that [process] attaches to the generic chunks of one
    document ([item_title] is [item.get("title")], empty when absent). *)
Definition document_metadata (item_title url department text : str) : gmap string str :=
  let title := if negb (is_empty item_title) then item_title else _extract_title text in
  let unit_name :=
    match _extract_unit_name_from_text title with
    | Some (c :: u) => Some (c :: u)
    | _ => _extract_unit_name_from_text text
    end in
  let unit_id := match unit_name with
                 | Some (c :: u) => _normalize_unit_id (c :: u)
                 | _ => []
                 end in
  let metadatas : gmap string str :=
    <["title" := title]> (<["url" := url]> (<["department" := department]>
      (<["type" := _classify_chunk_type text]> ∅))) in
  let metadatas := match unit_name with
                   | Some (c :: u) => <["unit_name" := c :: u]> metadatas
                   | _ => metadatas
                   end in
  if negb (is_empty unit_id) then <["unit_id" := unit_id]> metadatas else metadatas.

End Processor.

(** ** Part IV. [EnhancedRAGEngine] ([src/rag_engine.py]) *)

Module RagEngine.
Import Py.

(** *** Distances

    What the engine does with a distance: compare it with [<], subtract a
    literal from it, and take [max(0, _)]. *)

Class Dist (D : Type) := {
  dzero : D;                 (* [0] *)
  dlt : D -> D -> bool;      (* [<] *)
  dsub : D -> D -> D;        (* [-] *)
  lit_0_2 : D;               (* [0.2] *)
  lit_0_15 : D;              (* [0.15] *)
  lit_0_1 : D                (* [0.1] *)
}.

(** [x <= y] as the sort sees it: not [y < x]. *)
Definition dle {D} `{Dist D} (x y : D) : Prop := dlt y x = false.

(** The order is a strict weak order, as [<] is on the numbers a store
    returns. *)
Class DistOrder (D : Type) `{Dist D} := {
  dlt_asym : forall x y : D, dlt x y = true -> dlt y x = false;
  dle_trans : forall x y z : D, dle x y -> dle y z -> dle x z
}.

(** *** The vector store

    The metadata of a chunk is a dictionary from field names to strings:
    strings are all that the pipeline writes ([_create_location_chunks],
    [process]). *)

Abbreviation Meta := (gmap string str) (only parsing).
Abbreviation Where := (option (list (string * str))) (only parsing).

(** One query's answer: the inner lists of [documents], [metadatas] and
    [distances]. *)
Record QueryResult (D : Type) := {
  documents : list str;
  metadatas : list Meta;
  distances : list D
}.
Arguments documents {D} _.
Arguments metadatas {D} _.
Arguments distances {D} _.

(** [collection.query(query_texts=[q], n_results=n, where=w)]; [None] when
    the call raises. A [where] clause is a conjunction of equalities. *)
Record Collection (D : Type) := {
  query : str -> nat -> Where -> option (QueryResult D)
}.
Arguments query {D} _ _ _ _.

Record Call := { call_text : str; call_n : nat; call_where : Where }.

(** A computation of the engine: its result, [None] when an exception
    leaves it, and the queries it sent to the store, in order. *)
Definition Eng (A : Type) : Type := option A * list Call.

Global Instance eng_ret : MRet Eng := fun A a => (Some a, []).
Global Instance eng_bind : MBind Eng := fun A B f m =>
  match m with
  | (Some a, calls) => let '(r, calls') := f a in (r, calls ++ calls')
  | (None, calls) => (None, calls)
  end.

(** [try: m except Exception: handler] *)
Definition try_except {A} (m handler : Eng A) : Eng A :=
  match m with
  | (Some a, calls) => (Some a, calls)
  | (None, calls) => let '(r, calls') := handler in (r, calls ++ calls')
  end.

(** [for x in xs: st = body st x] *)
Fixpoint for_each {A S} (xs : list A) (body : S -> A -> Eng S) (st : S) : Eng S :=
  match xs with
  | [] => mret st
  | x :: xs' => st' ← body st x; for_each xs' body st'
  end.

Definition zip3 {A B C} (a : list A) (b : list B) (c : list C) : list (A * B * C) :=
  zip (zip a b) c.

Section Engine.
Context {D : Type} `{Dist D}.
(** [self.collection] *)
Variable collection : Collection D.
(** [list(a_set)]: the order in which Python iterates over a set. *)
Variable listing : gset str -> list str.

Definition do_query (q : str) (n : nat) (w : Where) : Eng (QueryResult D) :=
  (query collection q n w,
   [{| call_text := q; call_n := n; call_where := w |}]).

Definition empty_result : QueryResult D :=
  {| documents := []; metadatas := []; distances := [] |}.

(** The three lists of a list of candidates (the unzipping of line 158). *)
Definition unzip3 (xs : list (str * Meta * D)) : QueryResult D :=
  {| documents := map (fun x => x.1.1) xs;
     metadatas := map (fun x => x.1.2) xs;
     distances := map snd xs |}.

Definition candidates (r : QueryResult D) : list (str * Meta * D) :=
  zip3 (documents r) (metadatas r) (distances r).

(** **** [_extract_unit_names] *)

Definition unit_patterns : list (nat * str) :=
  [(6%nat, utf8 "組"); (6%nat, utf8 "處"); (8%nat, utf8 "中心");
   (6%nat, utf8 "部"); (6%nat, utf8 "室"); (6%nat, utf8 "館")].

(** [[^\s,，。、]] *)
Definition name_char (c : char) : bool :=
  negb (isspace c || bool_decide (c ∈ utf8 ",，。、")).

Definition unit_pattern (hi : nat) (suffix : str) : str -> option str :=
  Re.rep name_char 2 hi (fun g => Re.lits suffix (fun _ => Some (g ++ suffix))).

Definition exclude_terms : list str :=
  map utf8 ["本組"; "該組"; "各組"; "分組"; "小組"; "本部"; "該部"; "本處";
            "該處"; "本中心"; "辦公室"; "會議室"]%string.

Definition verb_chars : list str :=
  map utf8 ["由"; "為"; "至"; "在"; "向"; "到"]%string.

(** The body of the inner loop: [None] on [continue]. *)
Definition keep_unit (m : str) : option str :=
  let clean_match := strip m in
  if match clean_match with c :: _ => isdigit_char c | [] => false end then None
  else if bool_decide (clean_match ∈ exclude_terms) then None
  else if existsb (fun v => contains v clean_match) verb_chars then None
  else Some clean_match.

Definition extracted_units (text : str) : gset str :=
  list_to_set
    (omap keep_unit
       (flat_map (fun pat => Re.findall (unit_pattern pat.1 pat.2) text)
                 unit_patterns)).

Definition _extract_unit_names (text : str) : list str :=
  listing (extracted_units text).

(** **** Intent *)

Definition location_keywords : list str :=
  map utf8 ["在哪"; "位置"; "地址"; "怎麼去"; "如何到"; "where"; "location"; "幾樓"]%string.

Definition _is_location_query (q : str) : bool :=
  existsb (fun keyword => contains keyword (lower q)) location_keywords.

Definition _get_query_intent (q : str) : str :=
  if _is_location_query q then utf8 "location"
  else
    let lower_query := lower q in
    if Processor.any_keyword Processor.phone_keywords lower_query then utf8 "phone"
    else if Processor.any_keyword Processor.service_keywords lower_query then utf8 "service"
    else utf8 "general".

(** **** Reranking *)

(** [max(0, x)]: the second argument wins only when it is greater. *)
Definition max0 (x : D) : D := if dlt dzero x then x else dzero.

Definition _apply_type_boost (meta : Meta) (dist : D) (intent : str) : D :=
  let chunk_type := default (utf8 "general") (meta !! "type"%string) in
  if str_eqb intent (utf8 "location") && str_eqb chunk_type (utf8 "location")
  then max0 (dsub dist lit_0_2)
  else if str_eqb intent (utf8 "phone") && str_eqb chunk_type (utf8 "phone")
  then max0 (dsub dist lit_0_15)
  else if str_eqb intent (utf8 "service") && str_eqb chunk_type (utf8 "service")
  then max0 (dsub dist lit_0_1)
  else dist.

(** [xs.sort(key=lambda x: x[2])] and [sorted(xs, key=...)]: the stable
    sort by distance, as an insertion sort. *)
Fixpoint insert_by_distance (x : str * Meta * D) (l : list (str * Meta * D))
    : list (str * Meta * D) :=
  match l with
  | [] => [x]
  | y :: l' => if dlt y.2 x.2 then y :: insert_by_distance x l' else x :: l
  end.

Fixpoint sort_by_distance (l : list (str * Meta * D)) : list (str * Meta * D) :=
  match l with
  | [] => []
  | x :: l' => insert_by_distance x (sort_by_distance l')
  end.

Definition boost (intent : str) (x : str * Meta * D) : str * Meta * D :=
  (x.1.1, x.1.2, _apply_type_boost x.1.2 x.2 intent).

Definition _rerank_with_intent (docs : list str) (metas : list Meta) (dists : list D)
    (intent : str) (top_k : nat) : QueryResult D :=
  match docs with
  | [] => empty_result
  | _ =>
    let boosted := map (boost intent) (zip3 docs metas dists) in
    let boosted := sort_by_distance boosted in
    let boosted := take top_k boosted in
    unzip3 boosted
  end.

(** **** [_append_location_chunks] *)

(** The lists being extended and the set [seen]. *)
Record Appending := {
  a_docs : list str;
  a_metas : list Meta;
  a_dists : list D;
  a_seen : gset str
}.

(** The inner function [_append]. *)
Definition _append (st : Appending) (x : str * Meta * D) : Appending :=
  let doc_id := take 100 x.1.1 in
  if bool_decide (doc_id ∈ a_seen st) then st
  else {| a_docs := a_docs st ++ [x.1.1];
          a_metas := a_metas st ++ [x.1.2];
          a_dists := a_dists st ++ [x.2];
          a_seen := {[doc_id]} ∪ a_seen st |}.

Definition append_locations (st : Appending) (loc_results : QueryResult D) : Appending :=
  fold_left
    (fun st x =>
       if bool_decide (x.1.2 !! "type"%string = Some (utf8 "location"))
       then _append st x else st)
    (candidates loc_results) st.

Definition location_where (unit_id : str) : Where :=
  Some [("unit_id"%string, unit_id); ("type"%string, utf8 "location")].

Definition _append_location_chunks (results : QueryResult D)
    (unit_ids unit_names : list str) (max_per_unit : nat) : Eng (QueryResult D) :=
  let st := {| a_docs := documents results;
               a_metas := metadatas results;
               a_dists := distances results;
               a_seen := list_to_set (map (take 100) (documents results)) |} in
  st ← for_each unit_ids (fun st unit_id =>
          loc_results ← try_except
            (do_query unit_id max_per_unit (location_where unit_id))
            (do_query unit_id max_per_unit None);
          mret (append_locations st loc_results)) st;
  st ← (match unit_ids with
        | [] => for_each unit_names (fun st unit_name =>
                  loc_results ← do_query unit_name max_per_unit None;
                  mret (append_locations st loc_results)) st
        | _ => mret st
        end);
  mret {| documents := a_docs st; metadatas := a_metas st; distances := a_dists st |}.

(** **** The two stages *)

Definition retrieve_stage1 (q : str) (n_results : nat) : Eng (QueryResult D) :=
  do_query q n_results None.

(** [all_docs], [all_metas], [all_distances] and [seen_ids]. *)
Record Merging := {
  all_docs : list str;
  all_metas : list Meta;
  all_distances : list D;
  seen_ids : gset str
}.

(** [f"{meta.get('url', '')}_{meta.get('title', '')}_{doc[:80]}"] *)
Definition doc_id_of (doc : str) (meta : Meta) : str :=
  default [] (meta !! "url"%string) ++ utf8 "_"
    ++ default [] (meta !! "title"%string) ++ utf8 "_" ++ take 80 doc.

Definition merge_results (st : Merging) (results : QueryResult D) : Merging :=
  fold_left
    (fun st x =>
       let doc_id := doc_id_of x.1.1 x.1.2 in
       if bool_decide (doc_id ∈ seen_ids st) then st
       else {| all_docs := all_docs st ++ [x.1.1];
               all_metas := all_metas st ++ [x.1.2];
               all_distances := all_distances st ++ [x.2];
               seen_ids := {[doc_id]} ∪ seen_ids st |})
    (candidates results) st.

Definition retrieve_stage2 (unit_names unit_ids : list str) (q : str) (n_results : nat)
    : Eng (QueryResult D) :=
  let st := {| all_docs := []; all_metas := []; all_distances := []; seen_ids := ∅ |} in
  st ← for_each unit_ids (fun st unit_id =>
          results ← try_except
            (do_query q n_results (Some [("unit_id"%string, unit_id)]))
            (do_query q n_results None);
          mret (merge_results st results)) st;
  st ← (match all_docs st, unit_names with
        | [], _ :: _ =>
          for_each unit_names (fun st unit_name =>
            let search_query := unit_name ++ utf8 " " ++ q in
            results ← do_query search_query n_results None;
            mret (merge_results st results)) st
        | _, _ => mret st
        end);
  let sorted_results :=
    sort_by_distance (zip3 (all_docs st) (all_metas st) (all_distances st)) in
  let top_n := (length sorted_results `min` n_results)%nat in
  mret (unzip3 (take top_n sorted_results)).

Definition retrieve_with_priority (q intent : str) : Eng (QueryResult D) :=
  results ← do_query q 15 None;
  mret (_rerank_with_intent (documents results) (metadatas results)
          (distances results) intent 5).

(** **** [retrieve] *)

(** The test that keeps a [unit_id] of the Stage-1 metadata (line 365). *)
Definition valid_unit_id (unit_id : str) : bool :=
  negb (is_empty unit_id) && (length unit_id <? 50)%nat
  && negb (contains [LF] unit_id).

(** The sets [unit_names] and [unit_ids] after the two loops over the
    Stage-1 result. *)
Definition resolve_units (stage1_results : QueryResult D) : gset str * gset str :=
  let unit_names :=
    fold_left (fun unit_names doc => unit_names ∪ list_to_set (_extract_unit_names doc))
              (documents stage1_results) ∅ in
  fold_left
    (fun '(unit_names, unit_ids) (meta : Meta) =>
       let unit_ids :=
         match meta !! "unit_id"%string with
         | Some unit_id =>
           if valid_unit_id unit_id then {[unit_id]} ∪ unit_ids else unit_ids
         | None => unit_ids
         end in
       let unit_names :=
         match meta !! "unit_name"%string with
         | Some unit_name =>
           if negb (is_empty unit_name) then {[unit_name]} ∪ unit_names else unit_names
         | None => unit_names
         end in
       (unit_names, unit_ids))
    (metadatas stage1_results) (unit_names, ∅).

(** Stage 2, reranking and augmentation, for the units resolved. *)
Definition two_stage (q intent : str) (unit_names unit_ids : gset str)
    : Eng (QueryResult D) :=
  stage2_results ← retrieve_stage2 (listing unit_names) (listing unit_ids) q 10;
  let stage2_results :=
    _rerank_with_intent (documents stage2_results) (metadatas stage2_results)
      (distances stage2_results) intent 5 in
  _append_location_chunks stage2_results (listing unit_ids) (listing unit_names) 2.

Definition retrieve (q : str) (use_two_stage : bool) : Eng (QueryResult D) :=
  let intent := _get_query_intent q in
  if negb use_two_stage then retrieve_with_priority q intent
  else
    stage1_results ← retrieve_stage1 q 5;
    let '(unit_names, unit_ids) := resolve_units stage1_results in
    if bool_decide (unit_names = ∅) && bool_decide (unit_ids = ∅)
    then retrieve_with_priority q intent
    else two_stage q intent unit_names unit_ids.

End Engine.

Arguments Appending : clear implicits.
Arguments Merging : clear implicits.

End RagEngine.

(** ** Part V. Reference instances *)

Module Reference.
Import Py RagEngine.

Section Store.
Context {D : Type} `{Dist D}.

Definition where_holds (w : Where) (meta : Meta) : bool :=
  match w with
  | None => true
  | Some conds => forallb (fun kv => bool_decide (meta !! kv.1 = Some kv.2)) conds
  end.

(** Modelled from the spec: the vector-store collaborator (the chromadb
    collection, which is not part of the sources). Section 6 gives its
    contract: a query by text with a result size and an optional filter,
    a conjunction of exact-match equalities on the metadata. The store
    holds [chunks]; [distance q c] is the distance of chunk [c] to the
    query text [q], an opaque function of the embedding model. A query
    answers with the [n] nearest chunks that pass the filter, nearest
    first, and does not raise. *)
Definition knn_collection (chunks : list Processor.Chunk)
    (distance : str -> Processor.Chunk -> D) : Collection D :=
  {| query q n w :=
       Some (unzip3
         (take n
           (sort_by_distance
             (map (fun c => (Processor.text c, Processor.metadata c, distance q c))
                (List.filter (fun c => where_holds w (Processor.metadata c)) chunks))))) |}.
End Store.

(** Rational distances. *)
Global Instance Q_dist : Dist Q := {|
  dzero := 0%Q;
  dlt x y := negb (Qle_bool y x);
  dsub := Qminus;
  lit_0_2 := (2 # 10)%Q;
  lit_0_15 := (15 # 100)%Q;
  lit_0_1 := (1 # 10)%Q
|}.

(** The iteration order of [elements]. *)
Definition listing_elements : gset str -> list str := elements.

End Reference.

(** ** Part V, continued. [DataProcessor]: buildings, the location map,
    enrichment *)

Module PyMore.
Import Py.

(** Code points from U+0080 on for which [str.isprintable] does not hold
    (Unicode 14.0); [repr] escapes them. *)
Definition NON_PRINTABLE : list (N * N) := [
  (0x80, 0xA0); (0xAD, 0xAD); (0x378, 0x379); (0x380, 0x383); (0x38B, 0x38B);
  (0x38D, 0x38D); (0x3A2, 0x3A2); (0x530, 0x530); (0x557, 0x558); (0x58B, 0x58C);
  (0x590, 0x590); (0x5C8, 0x5CF); (0x5EB, 0x5EE); (0x5F5, 0x605); (0x61C, 0x61C);
  (0x6DD, 0x6DD); (0x70E, 0x70F); (0x74B, 0x74C); (0x7B2, 0x7BF); (0x7FB, 0x7FC);
  (0x82E, 0x82F); (0x83F, 0x83F); (0x85C, 0x85D); (0x85F, 0x85F); (0x86B, 0x86F);
  (0x88F, 0x897); (0x8E2, 0x8E2); (0x984, 0x984); (0x98D, 0x98E); (0x991, 0x992);
  (0x9A9, 0x9A9); (0x9B1, 0x9B1); (0x9B3, 0x9B5); (0x9BA, 0x9BB); (0x9C5, 0x9C6);
  (0x9C9, 0x9CA); (0x9CF, 0x9D6); (0x9D8, 0x9DB); (0x9DE, 0x9DE); (0x9E4, 0x9E5);
  (0x9FF, 0xA00); (0xA04, 0xA04); (0xA0B, 0xA0E); (0xA11, 0xA12); (0xA29, 0xA29);
  (0xA31, 0xA31); (0xA34, 0xA34); (0xA37, 0xA37); (0xA3A, 0xA3B); (0xA3D, 0xA3D);
  (0xA43, 0xA46); (0xA49, 0xA4A); (0xA4E, 0xA50); (0xA52, 0xA58); (0xA5D, 0xA5D);
  (0xA5F, 0xA65); (0xA77, 0xA80); (0xA84, 0xA84); (0xA8E, 0xA8E); (0xA92, 0xA92);
  (0xAA9, 0xAA9); (0xAB1, 0xAB1); (0xAB4, 0xAB4); (0xABA, 0xABB); (0xAC6, 0xAC6);
  (0xACA, 0xACA); (0xACE, 0xACF); (0xAD1, 0xADF); (0xAE4, 0xAE5); (0xAF2, 0xAF8);
  (0xB00, 0xB00); (0xB04, 0xB04); (0xB0D, 0xB0E); (0xB11, 0xB12); (0xB29, 0xB29);
  (0xB31, 0xB31); (0xB34, 0xB34); (0xB3A, 0xB3B); (0xB45, 0xB46); (0xB49, 0xB4A);
  (0xB4E, 0xB54); (0xB58, 0xB5B); (0xB5E, 0xB5E); (0xB64, 0xB65); (0xB78, 0xB81);
  (0xB84, 0xB84); (0xB8B, 0xB8D); (0xB91, 0xB91); (0xB96, 0xB98); (0xB9B, 0xB9B);
  (0xB9D, 0xB9D); (0xBA0, 0xBA2); (0xBA5, 0xBA7); (0xBAB, 0xBAD); (0xBBA, 0xBBD);
  (0xBC3, 0xBC5); (0xBC9, 0xBC9); (0xBCE, 0xBCF); (0xBD1, 0xBD6); (0xBD8, 0xBE5);
  (0xBFB, 0xBFF); (0xC0D, 0xC0D); (0xC11, 0xC11); (0xC29, 0xC29); (0xC3A, 0xC3B);
  (0xC45, 0xC45); (0xC49, 0xC49); (0xC4E, 0xC54); (0xC57, 0xC57); (0xC5B, 0xC5C);
  (0xC5E, 0xC5F); (0xC64, 0xC65); (0xC70, 0xC76); (0xC8D, 0xC8D); (0xC91, 0xC91);
  (0xCA9, 0xCA9); (0xCB4, 0xCB4); (0xCBA, 0xCBB); (0xCC5, 0xCC5); (0xCC9, 0xCC9);
  (0xCCE, 0xCD4); (0xCD7, 0xCDC); (0xCDF, 0xCDF); (0xCE4, 0xCE5); (0xCF0, 0xCF0);
  (0xCF3, 0xCFF); (0xD0D, 0xD0D); (0xD11, 0xD11); (0xD45, 0xD45); (0xD49, 0xD49);
  (0xD50, 0xD53); (0xD64, 0xD65); (0xD80, 0xD80); (0xD84, 0xD84); (0xD97, 0xD99);
  (0xDB2, 0xDB2); (0xDBC, 0xDBC); (0xDBE, 0xDBF); (0xDC7, 0xDC9); (0xDCB, 0xDCE);
  (0xDD5, 0xDD5); (0xDD7, 0xDD7); (0xDE0, 0xDE5); (0xDF0, 0xDF1); (0xDF5, 0xE00);
  (0xE3B, 0xE3E); (0xE5C, 0xE80); (0xE83, 0xE83); (0xE85, 0xE85); (0xE8B, 0xE8B);
  (0xEA4, 0xEA4); (0xEA6, 0xEA6); (0xEBE, 0xEBF); (0xEC5, 0xEC5); (0xEC7, 0xEC7);
  (0xECE, 0xECF); (0xEDA, 0xEDB); (0xEE0, 0xEFF); (0xF48, 0xF48); (0xF6D, 0xF70);
  (0xF98, 0xF98); (0xFBD, 0xFBD); (0xFCD, 0xFCD); (0xFDB, 0xFFF); (0x10C6, 0x10C6);
  (0x10C8, 0x10CC); (0x10CE, 0x10CF); (0x1249, 0x1249); (0x124E, 0x124F); (0x1257, 0x1257);
  (0x1259, 0x1259); (0x125E, 0x125F); (0x1289, 0x1289); (0x128E, 0x128F); (0x12B1, 0x12B1);
  (0x12B6, 0x12B7); (0x12BF, 0x12BF); (0x12C1, 0x12C1); (0x12C6, 0x12C7); (0x12D7, 0x12D7);
  (0x1311, 0x1311); (0x1316, 0x1317); (0x135B, 0x135C); (0x137D, 0x137F); (0x139A, 0x139F);
  (0x13F6, 0x13F7); (0x13FE, 0x13FF); (0x1680, 0x1680); (0x169D, 0x169F); (0x16F9, 0x16FF);
  (0x1716, 0x171E); (0x1737, 0x173F); (0x1754, 0x175F); (0x176D, 0x176D); (0x1771, 0x1771);
  (0x1774, 0x177F); (0x17DE, 0x17DF); (0x17EA, 0x17EF); (0x17FA, 0x17FF); (0x180E, 0x180E);
  (0x181A, 0x181F); (0x1879, 0x187F); (0x18AB, 0x18AF); (0x18F6, 0x18FF); (0x191F, 0x191F);
  (0x192C, 0x192F); (0x193C, 0x193F); (0x1941, 0x1943); (0x196E, 0x196F); (0x1975, 0x197F);
  (0x19AC, 0x19AF); (0x19CA, 0x19CF); (0x19DB, 0x19DD); (0x1A1C, 0x1A1D); (0x1A5F, 0x1A5F);
  (0x1A7D, 0x1A7E); (0x1A8A, 0x1A8F); (0x1A9A, 0x1A9F); (0x1AAE, 0x1AAF); (0x1ACF, 0x1AFF);
  (0x1B4D, 0x1B4F); (0x1B7F, 0x1B7F); (0x1BF4, 0x1BFB); (0x1C38, 0x1C3A); (0x1C4A, 0x1C4C);
  (0x1C89, 0x1C8F); (0x1CBB, 0x1CBC); (0x1CC8, 0x1CCF); (0x1CFB, 0x1CFF); (0x1F16, 0x1F17);
  (0x1F1E, 0x1F1F); (0x1F46, 0x1F47); (0x1F4E, 0x1F4F); (0x1F58, 0x1F58); (0x1F5A, 0x1F5A);
  (0x1F5C, 0x1F5C); (0x1F5E, 0x1F5E); (0x1F7E, 0x1F7F); (0x1FB5, 0x1FB5); (0x1FC5, 0x1FC5);
  (0x1FD4, 0x1FD5); (0x1FDC, 0x1FDC); (0x1FF0, 0x1FF1); (0x1FF5, 0x1FF5); (0x1FFF, 0x200F);
  (0x2028, 0x202F); (0x205F, 0x206F); (0x2072, 0x2073); (0x208F, 0x208F); (0x209D, 0x209F);
  (0x20C1, 0x20CF); (0x20F1, 0x20FF); (0x218C, 0x218F); (0x2427, 0x243F); (0x244B, 0x245F);
  (0x2B74, 0x2B75); (0x2B96, 0x2B96); (0x2CF4, 0x2CF8); (0x2D26, 0x2D26); (0x2D28, 0x2D2C);
  (0x2D2E, 0x2D2F); (0x2D68, 0x2D6E); (0x2D71, 0x2D7E); (0x2D97, 0x2D9F); (0x2DA7, 0x2DA7);
  (0x2DAF, 0x2DAF); (0x2DB7, 0x2DB7); (0x2DBF, 0x2DBF); (0x2DC7, 0x2DC7); (0x2DCF, 0x2DCF);
  (0x2DD7, 0x2DD7); (0x2DDF, 0x2DDF); (0x2E5E, 0x2E7F); (0x2E9A, 0x2E9A); (0x2EF4, 0x2EFF);
  (0x2FD6, 0x2FEF); (0x2FFC, 0x3000); (0x3040, 0x3040); (0x3097, 0x3098); (0x3100, 0x3104);
  (0x3130, 0x3130); (0x318F, 0x318F); (0x31E4, 0x31EF); (0x321F, 0x321F); (0xA48D, 0xA48F);
  (0xA4C7, 0xA4CF); (0xA62C, 0xA63F); (0xA6F8, 0xA6FF); (0xA7CB, 0xA7CF); (0xA7D2, 0xA7D2);
  (0xA7D4, 0xA7D4); (0xA7DA, 0xA7F1); (0xA82D, 0xA82F); (0xA83A, 0xA83F); (0xA878, 0xA87F);
  (0xA8C6, 0xA8CD); (0xA8DA, 0xA8DF); (0xA954, 0xA95E); (0xA97D, 0xA97F); (0xA9CE, 0xA9CE);
  (0xA9DA, 0xA9DD); (0xA9FF, 0xA9FF); (0xAA37, 0xAA3F); (0xAA4E, 0xAA4F); (0xAA5A, 0xAA5B);
  (0xAAC3, 0xAADA); (0xAAF7, 0xAB00); (0xAB07, 0xAB08); (0xAB0F, 0xAB10); (0xAB17, 0xAB1F);
  (0xAB27, 0xAB27); (0xAB2F, 0xAB2F); (0xAB6C, 0xAB6F); (0xABEE, 0xABEF); (0xABFA, 0xABFF);
  (0xD7A4, 0xD7AF); (0xD7C7, 0xD7CA); (0xD7FC, 0xF8FF); (0xFA6E, 0xFA6F); (0xFADA, 0xFAFF);
  (0xFB07, 0xFB12); (0xFB18, 0xFB1C); (0xFB37, 0xFB37); (0xFB3D, 0xFB3D); (0xFB3F, 0xFB3F);
  (0xFB42, 0xFB42); (0xFB45, 0xFB45); (0xFBC3, 0xFBD2); (0xFD90, 0xFD91); (0xFDC8, 0xFDCE);
  (0xFDD0, 0xFDEF); (0xFE1A, 0xFE1F); (0xFE53, 0xFE53); (0xFE67, 0xFE67); (0xFE6C, 0xFE6F);
  (0xFE75, 0xFE75); (0xFEFD, 0xFF00); (0xFFBF, 0xFFC1); (0xFFC8, 0xFFC9); (0xFFD0, 0xFFD1);
  (0xFFD8, 0xFFD9); (0xFFDD, 0xFFDF); (0xFFE7, 0xFFE7); (0xFFEF, 0xFFFB); (0xFFFE, 0xFFFF);
  (0x1000C, 0x1000C); (0x10027, 0x10027); (0x1003B, 0x1003B); (0x1003E, 0x1003E); (0x1004E, 0x1004F);
  (0x1005E, 0x1007F); (0x100FB, 0x100FF); (0x10103, 0x10106); (0x10134, 0x10136); (0x1018F, 0x1018F);
  (0x1019D, 0x1019F); (0x101A1, 0x101CF); (0x101FE, 0x1027F); (0x1029D, 0x1029F); (0x102D1, 0x102DF);
  (0x102FC, 0x102FF); (0x10324, 0x1032C); (0x1034B, 0x1034F); (0x1037B, 0x1037F); (0x1039E, 0x1039E);
  (0x103C4, 0x103C7); (0x103D6, 0x103FF); (0x1049E, 0x1049F); (0x104AA, 0x104AF); (0x104D4, 0x104D7);
  (0x104FC, 0x104FF); (0x10528, 0x1052F); (0x10564, 0x1056E); (0x1057B, 0x1057B); (0x1058B, 0x1058B);
  (0x10593, 0x10593); (0x10596, 0x10596); (0x105A2, 0x105A2); (0x105B2, 0x105B2); (0x105BA, 0x105BA);
  (0x105BD, 0x105FF); (0x10737, 0x1073F); (0x10756, 0x1075F); (0x10768, 0x1077F); (0x10786, 0x10786);
  (0x107B1, 0x107B1); (0x107BB, 0x107FF); (0x10806, 0x10807); (0x10809, 0x10809); (0x10836, 0x10836);
  (0x10839, 0x1083B); (0x1083D, 0x1083E); (0x10856, 0x10856); (0x1089F, 0x108A6); (0x108B0, 0x108DF);
  (0x108F3, 0x108F3); (0x108F6, 0x108FA); (0x1091C, 0x1091E); (0x1093A, 0x1093E); (0x10940, 0x1097F);
  (0x109B8, 0x109BB); (0x109D0, 0x109D1); (0x10A04, 0x10A04); (0x10A07, 0x10A0B); (0x10A14, 0x10A14);
  (0x10A18, 0x10A18); (0x10A36, 0x10A37); (0x10A3B, 0x10A3E); (0x10A49, 0x10A4F); (0x10A59, 0x10A5F);
  (0x10AA0, 0x10ABF); (0x10AE7, 0x10AEA); (0x10AF7, 0x10AFF); (0x10B36, 0x10B38); (0x10B56, 0x10B57);
  (0x10B73, 0x10B77); (0x10B92, 0x10B98); (0x10B9D, 0x10BA8); (0x10BB0, 0x10BFF); (0x10C49, 0x10C7F);
  (0x10CB3, 0x10CBF); (0x10CF3, 0x10CF9); (0x10D28, 0x10D2F); (0x10D3A, 0x10E5F); (0x10E7F, 0x10E7F);
  (0x10EAA, 0x10EAA); (0x10EAE, 0x10EAF); (0x10EB2, 0x10EFF); (0x10F28, 0x10F2F); (0x10F5A, 0x10F6F);
  (0x10F8A, 0x10FAF); (0x10FCC, 0x10FDF); (0x10FF7, 0x10FFF); (0x1104E, 0x11051); (0x11076, 0x1107E);
  (0x110BD, 0x110BD); (0x110C3, 0x110CF); (0x110E9, 0x110EF); (0x110FA, 0x110FF); (0x11135, 0x11135);
  (0x11148, 0x1114F); (0x11177, 0x1117F); (0x111E0, 0x111E0); (0x111F5, 0x111FF); (0x11212, 0x11212);
  (0x1123F, 0x1127F); (0x11287, 0x11287); (0x11289, 0x11289); (0x1128E, 0x1128E); (0x1129E, 0x1129E);
  (0x112AA, 0x112AF); (0x112EB, 0x112EF); (0x112FA, 0x112FF); (0x11304, 0x11304); (0x1130D, 0x1130E);
  (0x11311, 0x11312); (0x11329, 0x11329); (0x11331, 0x11331); (0x11334, 0x11334); (0x1133A, 0x1133A);
  (0x11345, 0x11346); (0x11349, 0x1134A); (0x1134E, 0x1134F); (0x11351, 0x11356); (0x11358, 0x1135C);
  (0x11364, 0x11365); (0x1136D, 0x1136F); (0x11375, 0x113FF); (0x1145C, 0x1145C); (0x11462, 0x1147F);
  (0x114C8, 0x114CF); (0x114DA, 0x1157F); (0x115B6, 0x115B7); (0x115DE, 0x115FF); (0x11645, 0x1164F);
  (0x1165A, 0x1165F); (0x1166D, 0x1167F); (0x116BA, 0x116BF); (0x116CA, 0x116FF); (0x1171B, 0x1171C);
  (0x1172C, 0x1172F); (0x11747, 0x117FF); (0x1183C, 0x1189F); (0x118F3, 0x118FE); (0x11907, 0x11908);
  (0x1190A, 0x1190B); (0x11914, 0x11914); (0x11917, 0x11917); (0x11936, 0x11936); (0x11939, 0x1193A);
  (0x11947, 0x1194F); (0x1195A, 0x1199F); (0x119A8, 0x119A9); (0x119D8, 0x119D9); (0x119E5, 0x119FF);
  (0x11A48, 0x11A4F); (0x11AA3, 0x11AAF); (0x11AF9, 0x11BFF); (0x11C09, 0x11C09); (0x11C37, 0x11C37);
  (0x11C46, 0x11C4F); (0x11C6D, 0x11C6F); (0x11C90, 0x11C91); (0x11CA8, 0x11CA8); (0x11CB7, 0x11CFF);
  (0x11D07, 0x11D07); (0x11D0A, 0x11D0A); (0x11D37, 0x11D39); (0x11D3B, 0x11D3B); (0x11D3E, 0x11D3E);
  (0x11D48, 0x11D4F); (0x11D5A, 0x11D5F); (0x11D66, 0x11D66); (0x11D69, 0x11D69); (0x11D8F, 0x11D8F);
  (0x11D92, 0x11D92); (0x11D99, 0x11D9F); (0x11DAA, 0x11EDF); (0x11EF9, 0x11FAF); (0x11FB1, 0x11FBF);
  (0x11FF2, 0x11FFE); (0x1239A, 0x123FF); (0x1246F, 0x1246F); (0x12475, 0x1247F); (0x12544, 0x12F8F);
  (0x12FF3, 0x12FFF); (0x1342F, 0x143FF); (0x14647, 0x167FF); (0x16A39, 0x16A3F); (0x16A5F, 0x16A5F);
  (0x16A6A, 0x16A6D); (0x16ABF, 0x16ABF); (0x16ACA, 0x16ACF); (0x16AEE, 0x16AEF); (0x16AF6, 0x16AFF);
  (0x16B46, 0x16B4F); (0x16B5A, 0x16B5A); (0x16B62, 0x16B62); (0x16B78, 0x16B7C); (0x16B90, 0x16E3F);
  (0x16E9B, 0x16EFF); (0x16F4B, 0x16F4E); (0x16F88, 0x16F8E); (0x16FA0, 0x16FDF); (0x16FE5, 0x16FEF);
  (0x16FF2, 0x16FFF); (0x187F8, 0x187FF); (0x18CD6, 0x18CFF); (0x18D09, 0x1AFEF); (0x1AFF4, 0x1AFF4);
  (0x1AFFC, 0x1AFFC); (0x1AFFF, 0x1AFFF); (0x1B123, 0x1B14F); (0x1B153, 0x1B163); (0x1B168, 0x1B16F);
  (0x1B2FC, 0x1BBFF); (0x1BC6B, 0x1BC6F); (0x1BC7D, 0x1BC7F); (0x1BC89, 0x1BC8F); (0x1BC9A, 0x1BC9B);
  (0x1BCA0, 0x1CEFF); (0x1CF2E, 0x1CF2F); (0x1CF47, 0x1CF4F); (0x1CFC4, 0x1CFFF); (0x1D0F6, 0x1D0FF);
  (0x1D127, 0x1D128); (0x1D173, 0x1D17A); (0x1D1EB, 0x1D1FF); (0x1D246, 0x1D2DF); (0x1D2F4, 0x1D2FF);
  (0x1D357, 0x1D35F); (0x1D379, 0x1D3FF); (0x1D455, 0x1D455); (0x1D49D, 0x1D49D); (0x1D4A0, 0x1D4A1);
  (0x1D4A3, 0x1D4A4); (0x1D4A7, 0x1D4A8); (0x1D4AD, 0x1D4AD); (0x1D4BA, 0x1D4BA); (0x1D4BC, 0x1D4BC);
  (0x1D4C4, 0x1D4C4); (0x1D506, 0x1D506); (0x1D50B, 0x1D50C); (0x1D515, 0x1D515); (0x1D51D, 0x1D51D);
  (0x1D53A, 0x1D53A); (0x1D53F, 0x1D53F); (0x1D545, 0x1D545); (0x1D547, 0x1D549); (0x1D551, 0x1D551);
  (0x1D6A6, 0x1D6A7); (0x1D7CC, 0x1D7CD); (0x1DA8C, 0x1DA9A); (0x1DAA0, 0x1DAA0); (0x1DAB0, 0x1DEFF);
  (0x1DF1F, 0x1DFFF); (0x1E007, 0x1E007); (0x1E019, 0x1E01A); (0x1E022, 0x1E022); (0x1E025, 0x1E025);
  (0x1E02B, 0x1E0FF); (0x1E12D, 0x1E12F); (0x1E13E, 0x1E13F); (0x1E14A, 0x1E14D); (0x1E150, 0x1E28F);
  (0x1E2AF, 0x1E2BF); (0x1E2FA, 0x1E2FE); (0x1E300, 0x1E7DF); (0x1E7E7, 0x1E7E7); (0x1E7EC, 0x1E7EC);
  (0x1E7EF, 0x1E7EF); (0x1E7FF, 0x1E7FF); (0x1E8C5, 0x1E8C6); (0x1E8D7, 0x1E8FF); (0x1E94C, 0x1E94F);
  (0x1E95A, 0x1E95D); (0x1E960, 0x1EC70); (0x1ECB5, 0x1ED00); (0x1ED3E, 0x1EDFF); (0x1EE04, 0x1EE04);
  (0x1EE20, 0x1EE20); (0x1EE23, 0x1EE23); (0x1EE25, 0x1EE26); (0x1EE28, 0x1EE28); (0x1EE33, 0x1EE33);
  (0x1EE38, 0x1EE38); (0x1EE3A, 0x1EE3A); (0x1EE3C, 0x1EE41); (0x1EE43, 0x1EE46); (0x1EE48, 0x1EE48);
  (0x1EE4A, 0x1EE4A); (0x1EE4C, 0x1EE4C); (0x1EE50, 0x1EE50); (0x1EE53, 0x1EE53); (0x1EE55, 0x1EE56);
  (0x1EE58, 0x1EE58); (0x1EE5A, 0x1EE5A); (0x1EE5C, 0x1EE5C); (0x1EE5E, 0x1EE5E); (0x1EE60, 0x1EE60);
  (0x1EE63, 0x1EE63); (0x1EE65, 0x1EE66); (0x1EE6B, 0x1EE6B); (0x1EE73, 0x1EE73); (0x1EE78, 0x1EE78);
  (0x1EE7D, 0x1EE7D); (0x1EE7F, 0x1EE7F); (0x1EE8A, 0x1EE8A); (0x1EE9C, 0x1EEA0); (0x1EEA4, 0x1EEA4);
  (0x1EEAA, 0x1EEAA); (0x1EEBC, 0x1EEEF); (0x1EEF2, 0x1EFFF); (0x1F02C, 0x1F02F); (0x1F094, 0x1F09F);
  (0x1F0AF, 0x1F0B0); (0x1F0C0, 0x1F0C0); (0x1F0D0, 0x1F0D0); (0x1F0F6, 0x1F0FF); (0x1F1AE, 0x1F1E5);
  (0x1F203, 0x1F20F); (0x1F23C, 0x1F23F); (0x1F249, 0x1F24F); (0x1F252, 0x1F25F); (0x1F266, 0x1F2FF);
  (0x1F6D8, 0x1F6DC); (0x1F6ED, 0x1F6EF); (0x1F6FD, 0x1F6FF); (0x1F774, 0x1F77F); (0x1F7D9, 0x1F7DF);
  (0x1F7EC, 0x1F7EF); (0x1F7F1, 0x1F7FF); (0x1F80C, 0x1F80F); (0x1F848, 0x1F84F); (0x1F85A, 0x1F85F);
  (0x1F888, 0x1F88F); (0x1F8AE, 0x1F8AF); (0x1F8B2, 0x1F8FF); (0x1FA54, 0x1FA5F); (0x1FA6E, 0x1FA6F);
  (0x1FA75, 0x1FA77); (0x1FA7D, 0x1FA7F); (0x1FA87, 0x1FA8F); (0x1FAAD, 0x1FAAF); (0x1FABB, 0x1FABF);
  (0x1FAC6, 0x1FACF); (0x1FADA, 0x1FADF); (0x1FAE8, 0x1FAEF); (0x1FAF7, 0x1FAFF); (0x1FB93, 0x1FB93);
  (0x1FBCB, 0x1FBEF); (0x1FBFA, 0x1FFFF); (0x2A6E0, 0x2A6FF); (0x2B739, 0x2B73F); (0x2B81E, 0x2B81F);
  (0x2CEA2, 0x2CEAF); (0x2EBE1, 0x2F7FF); (0x2FA1E, 0x2FFFF); (0x3134B, 0xE00FF); (0xE01F0, 0x10FFFF)
]%N.

(** *** [repr] of a string and of a list of strings *)

Definition hex_digit (n : N) : char := if n <? 10 then 48 + n else 87 + n.

(** The last [width] hexadecimal digits of [c], lower case. *)
Fixpoint hex (width : nat) (c : N) : str :=
  match width with
  | O => []
  | S w => hex w (c / 16) ++ [hex_digit (c mod 16)]
  end.

Definition BACKSLASH : char := 92.

Definition repr_char (quote c : char) : str :=
  if (c =? quote) || (c =? BACKSLASH) then [BACKSLASH; c]
  else if c =? 9 then [BACKSLASH; ch "t"]
  else if c =? 10 then [BACKSLASH; ch "n"]
  else if c =? 13 then [BACKSLASH; ch "r"]
  else if (c <? 32) || (c =? 127) then [BACKSLASH; ch "x"] ++ hex 2 c
  else if c <? 127 then [c]
  else if negb (in_ranges c NON_PRINTABLE) then [c]
  else if c <=? 0xFF then [BACKSLASH; ch "x"] ++ hex 2 c
  else if c <=? 0xFFFF then [BACKSLASH; ch "u"] ++ hex 4 c
  else [BACKSLASH; ch "U"] ++ hex 8 c.

(** [repr(s)]: double quotes when [s] has a single quote and no double
    quote, single quotes otherwise. *)
Definition repr_str (s : str) : str :=
  let quote :=
    if bool_decide (39 ∈ s) && negb (bool_decide (34 ∈ s)) then 34 else 39 in
  [quote] ++ flat_map (repr_char quote) s ++ [quote].

(** [str(xs)] for a list of strings *)
Definition repr_list (xs : list str) : str :=
  utf8 "[" ++ join (utf8 ", ") (map repr_str xs) ++ utf8 "]".

(** *** [sorted(list(set(xs)))] for strings *)

(** [a < b]: the order of the code points, a proper prefix first. *)
Fixpoint str_ltb (a b : str) : bool :=
  match a, b with
  | _, [] => false
  | [], _ :: _ => true
  | x :: a', y :: b' =>
    if x <? y then true else if y <? x then false else str_ltb a' b'
  end.

Fixpoint insert_unique (x : str) (l : list str) : list str :=
  match l with
  | [] => [x]
  | y :: l' =>
    if str_ltb x y then x :: l
    else if str_ltb y x then y :: insert_unique x l'
    else l
  end.

(** The distinct elements of [xs] in ascending order. *)
Definition sorted_set (xs : list str) : list str := foldr insert_unique [] xs.

(** *** A [dict] with string keys, in insertion order *)

(** [d[k] = v] *)
Fixpoint dict_set (k v : str) (d : list (str * str)) : list (str * str) :=
  match d with
  | [] => [(k, v)]
  | kv :: d' => if str_eqb k kv.1 then (k, v) :: d' else kv :: dict_set k v d'
  end.

End PyMore.

Module ProcessorMore.
Import Py PyMore Processor.

(** [self.building_patterns], in the order of the source. *)
Definition building_patterns : list (str * list str) := [
  (utf8 "行政大樓", [utf8 "行政大樓"; utf8 "Administration Building"]);
  (utf8 "敬賢樓", [utf8 "敬賢樓"; utf8 "Jing-Xian Hall"]);
  (utf8 "總圖書館", [utf8 "總圖書館"; utf8 "Main Library"]);
  (utf8 "共同教學館", [utf8 "共同教學館"; utf8 "General Building"]);
  (utf8 "禮賢樓", [utf8 "禮賢樓"; utf8 "Lixian Hall"]);
  (utf8 "展書樓", [utf8 "展書樓"; utf8 "Jan Shu Hall"]);
  (utf8 "望樂樓", [utf8 "望樂樓"; utf8 "Hall of Joy and Hope"])
].

(** [_detect_building]: the first building one of whose patterns is in the
    text. *)
Definition _detect_building (text : str) : option str :=
  fst <$> List.find
            (fun entry => existsb (fun pattern => contains pattern text) entry.2)
            building_patterns.

(** What [process] and [build_location_map] read of an item of the
    scraped data. *)
Record RawItem := {
  item_department : str;     (* [item["department"]], set by the loader *)
  item_success : bool;       (* [scraped.get("success")] *)
  item_content : str;        (* [scraped.get("content", "")] *)
  item_title : str;          (* [item.get("title")], empty when absent *)
  item_url : str             (* [item.get("url", "")] *)
}.

(** ["{building} {floor} {room}室"] *)
Definition loc_info (office : Office) : str :=
  building office ++ utf8 " " ++ floor office ++ utf8 " " ++ room office ++ utf8 "室".

(** The body of the loop of [build_location_map]; [None] when the cleaning
    raises. *)
Definition add_item_locations (location_map : list (str * str)) (item : RawItem)
    : option (list (str * str)) :=
  if str_eqb (item_department item) (utf8 "admin") then
    let content := item_content item in
    if is_empty content then Some location_map
    else
      clean_content ← clean_text_advanced content (utf8 "admin");
      match _detect_building clean_content with
      | Some building =>
        if contains (utf8 "## ") clean_content || contains (utf8 "樓") clean_content
        then
          let offices := _extract_office_locations clean_content building in
          Some (fold_left (fun m office => dict_set (name_zh office) (loc_info office) m)
                          offices location_map)
        else Some location_map
      | None => Some location_map
      end
  else Some location_map.

Fixpoint build_from (location_map : list (str * str)) (raw_items : list RawItem)
    : option (list (str * str)) :=
  match raw_items with
  | [] => Some location_map
  | item :: rest =>
    location_map' ← add_item_locations location_map item;
    build_from location_map' rest
  end.

(** [build_location_map] *)
Definition build_location_map (raw_items : list RawItem) : option (list (str * str)) :=
  build_from [] raw_items.

(** The body of the loop of [enrich_content_with_locations]. *)
Definition add_location (content : str) (added_locations : list str)
    (entry : str * str) : list str :=
  if contains entry.1 content then
    if negb (contains (entry.1 ++ utf8 "位置：") (repr_list added_locations))
    then added_locations ++ [entry.1 ++ utf8 "位置：" ++ entry.2]
    else added_locations
  else added_locations.

Definition ENRICHMENT_HEADER : str := utf8 "

【系統補充位置資訊】
".

(** [enrich_content_with_locations] *)
Definition enrich_content_with_locations (content : str)
    (location_map : list (str * str)) : str :=
  if is_empty content then []
  else
    let added_locations := fold_left (add_location content) location_map [] in
    match added_locations with
    | [] => content
    | _ => content ++ ENRICHMENT_HEADER ++ join [LF] (sorted_set added_locations)
    end.

(** Steps 3 of [process] for one item: [None] when the cleaning raises,
    [Some None] when the item is skipped, else the [clean_content] kept
    for the item. *)
Definition process_item (location_map : list (str * str)) (item : RawItem)
    : option (option str) :=
  if negb (item_success item) then Some None
  else
    let content := strip (item_content item) in
    if (length content <? 50)%nat then Some None
    else
      clean_content ← clean_text_advanced content (item_department item);
      Some (Some (enrich_content_with_locations clean_content location_map)).

(** The location chunks that [process] creates for the text of one item. *)
Definition item_location_chunks (text url department : str) : list Chunk :=
  match _detect_building text with
  | Some detected_building =>
    if (contains (utf8 "## ") text || contains (utf8 "樓") text)
       && contains (utf8 "- ") text
    then _create_location_chunks
           (_extract_office_locations text detected_building) url department
    else []
  | None => []
  end.

End ProcessorMore.

(** ** Part V, continued. The prompt of [generate_response] ([src/app.py]) *)

Module App.
Import Py RagEngine.

(** [str(n)] *)
Fixpoint uint_digits (u : Decimal.uint) : str :=
  match u with
  | Decimal.Nil => []
  | Decimal.D0 u' => 48 :: uint_digits u'
  | Decimal.D1 u' => 49 :: uint_digits u'
  | Decimal.D2 u' => 50 :: uint_digits u'
  | Decimal.D3 u' => 51 :: uint_digits u'
  | Decimal.D4 u' => 52 :: uint_digits u'
  | Decimal.D5 u' => 53 :: uint_digits u'
  | Decimal.D6 u' => 54 :: uint_digits u'
  | Decimal.D7 u' => 55 :: uint_digits u'
  | Decimal.D8 u' => 56 :: uint_digits u'
  | Decimal.D9 u' => 57 :: uint_digits u'
  end.

Definition str_of_nat (n : nat) : str := uint_digits (Nat.to_uint n).

(** *** The location hints *)

(** The line for one metadata of type [location]; [None] on [continue]. *)
Definition location_line (meta : Meta) : option str :=
  let building := default [] (meta !! "building"%string) in
  let floor := default [] (meta !! "floor"%string) in
  let room := default [] (meta !! "room"%string) in
  let unit :=
    match meta !! "unit_name"%string with
    | Some (c :: u) => c :: u
    | _ => default [] (meta !! "title"%string)
    end in
  let location_text :=
    strip (building ++ utf8 " " ++ floor ++ utf8 " " ++ room ++ utf8 "室") in
  if is_empty location_text then None
  else if negb (is_empty unit)
       then Some (utf8 "- " ++ unit ++ utf8 "：" ++ location_text)
       else Some (utf8 "- " ++ location_text).

(** The body of the loop over the metadata; the state is [location_lines]
    and [seen_locations]. *)
Definition add_hint (st : list str * gset str) (meta : Meta) : list str * gset str :=
  if bool_decide (meta !! "type"%string = Some (utf8 "location")) then
    match location_line meta with
    | Some line =>
      if bool_decide (line ∈ st.2) then st else (st.1 ++ [line], {[line]} ∪ st.2)
    | None => st
    end
  else st.

Definition location_lines (metas : list Meta) : list str :=
  (fold_left add_hint metas ([], ∅)).1.

Definition location_hint (metas : list Meta) : str :=
  match location_lines metas with
  | [] => []
  | lines => utf8 "【辦理地點（若適用）】
" ++ join [LF] lines ++ [LF; LF]
  end.

(** *** The context *)

Definition doc_preview (doc : str) : str :=
  if (500 <? length doc)%nat then take 500 doc ++ utf8 "..." else doc.

Definition context_entry (idx : nat) (doc : str) (meta : Meta) : str :=
  let title := default (utf8 "無標題") (meta !! "title"%string) in
  let url := default (utf8 "#") (meta !! "url"%string) in
  utf8 "
--- 資料來源 " ++ str_of_nat (idx + 1) ++ utf8 ": [" ++ title ++ utf8 "](" ++ url
    ++ utf8 ") ---
" ++ doc_preview doc ++ [LF].

(** The loop over [enumerate(documents)], from index [idx] on; [None] is
    the [IndexError] of [metadatas[idx]]. *)
Fixpoint context_from (idx : nat) (docs : list str) (metas : list Meta)
    (context_text : str) : option str :=
  match docs with
  | [] => Some context_text
  | doc :: docs' =>
    meta ← metas !! idx;
    context_from (S idx) docs' metas (context_text ++ context_entry idx doc meta)
  end.

Definition context_text {D} (context_docs : QueryResult D) : option str :=
  context_from 0 (documents context_docs) (metadatas context_docs) [].

End App.

(** ** Part VI. Properties of the Python primitives *)

Module PyFacts.
Import Py.

Lemma in_ranges_spec c t :
  in_ranges c t = true <-> exists r, r ∈ t /\ fst r <= c <= snd r.
Proof.
  unfold in_ranges. rewrite existsb_exists. split.
  - intros (r & Hin & Hr). exists r. rewrite list_elem_of_In.
    apply andb_true_iff in Hr as [H1 H2].
    apply N.leb_le in H1, H2. auto.
  - intros (r & Hin & H1 & H2). exists r. rewrite <- list_elem_of_In.
    split; [done|]. apply andb_true_iff. split; by apply N.leb_le.
Qed.

(** *** Lowercase mappings *)

Lemma lower_simple_Some c t c' :
  lower_simple c t = Some c' ->
  exists lo hi tg, (lo, hi, tg) ∈ t /\ lo <= c <= hi /\ c' = tg + (c - lo).
Proof.
  induction t as [|[[lo hi] tg] t IH]; simpl; [done|].
  destruct ((lo <=? c) && (c <=? hi)) eqn:E.
  - intros [= <-]. apply andb_true_iff in E as [H1 H2].
    apply N.leb_le in H1, H2. exists lo, hi, tg. split; [left|done].
  - intros (lo' & hi' & tg' & Hin & Hr)%IH.
    exists lo', hi', tg'. split; [by right|done].
Qed.

Lemma lower_simple_None c t :
  (forall lo hi tg, (lo, hi, tg) ∈ t -> c < lo \/ hi < c) ->
  lower_simple c t = None.
Proof.
  induction t as [|[[lo hi] tg] t IH]; simpl; [done|]. intros Hall.
  destruct ((lo <=? c) && (c <=? hi)) eqn:E.
  - apply andb_true_iff in E as [H1 H2]. apply N.leb_le in H1, H2.
    destruct (Hall lo hi tg); [left|lia..].
  - apply IH. intros. eapply Hall. by right.
Qed.

(** A target of [LOWER] is neither a key of the lowercase tables nor a
    stripped or white-space character. *)
Definition away (lo hi : N) (p : N) : bool := (hi <? p) || (p <? lo).

Definition target_ok (e : N * N * N) : bool :=
  let '(lo, hi, tg) := e in
  let thi := tg + (hi - lo) in
  forallb (fun k => (thi <? k.1.1) || (k.1.2 <? tg)) LOWER
  && forallb (fun r => (thi <? r.1) || (r.2 <? tg)) WHITESPACE
  && forallb (away tg thi) Processor.STRIPPED_PUNCTUATION
  && away tg thi 0x130.

Lemma targets_ok : forallb target_ok LOWER = true.
Proof. vm_compute. reflexivity. Qed.

(** A code point that [lower] leaves alone wherever it stands. *)
Definition lowered (c : char) : Prop :=
  lower_char c = [c] /\ (c =? SIGMA) = false.

Definition unstripped (c : char) : Prop := Processor.stripped c = false.

Lemma target_facts lo hi tg c :
  (lo, hi, tg) ∈ LOWER -> lo <= c <= hi ->
  let c' := tg + (c - lo) in
  lower_simple c' LOWER = None /\ c' <> 0x130 /\ unstripped c'.
Proof.
  intros Hin Hc c'.
  pose proof targets_ok as Hok. rewrite forallb_forall in Hok.
  apply list_elem_of_In in Hin. specialize (Hok _ Hin).
  unfold target_ok in Hok. cbv beta iota zeta in Hok.
  do 3 (apply andb_true_iff in Hok as [Hok ?]).
  assert (Hr : tg <= c' <= tg + (hi - lo)) by (unfold c'; lia).
  split; [|split].
  - apply lower_simple_None. intros lo' hi' tg' Hin'.
    rewrite forallb_forall in Hok.
    apply list_elem_of_In in Hin'. specialize (Hok _ Hin').
    cbv beta iota zeta in Hok. unfold fst, snd in Hok.
    apply orb_true_iff in Hok as [Hok|Hok]; apply N.ltb_lt in Hok; lia.
  - unfold away in *.
    match goal with H : _ || _ = true |- _ =>
      apply orb_true_iff in H as [H|H]; apply N.ltb_lt in H; lia end.
  - unfold unstripped, Processor.stripped. apply orb_false_iff. split.
    + destruct (isspace c') eqn:E; [|done].
      apply in_ranges_spec in E as (r & Hr' & ?).
      match goal with H : forallb _ WHITESPACE = true |- _ =>
        rewrite forallb_forall in H; apply list_elem_of_In in Hr';
        specialize (H _ Hr'); cbv beta in H;
        apply orb_true_iff in H as [H|H]; apply N.ltb_lt in H; lia end.
    + apply bool_decide_eq_false. intros Hp.
      match goal with H : forallb _ Processor.STRIPPED_PUNCTUATION = true |- _ =>
        rewrite forallb_forall in H; apply list_elem_of_In in Hp;
        specialize (H _ Hp); unfold away in H;
        apply orb_true_iff in H as [H|H]; apply N.ltb_lt in H; lia end.
Qed.

Lemma lower_special_None c : c <> 0x130 -> lower_special c = None.
Proof.
  intros Hc. assert (E : (0x130 =? c) = false) by (apply N.eqb_neq; congruence).
  unfold lower_special, LOWER_SPECIAL. cbv [List.find fst]. by rewrite E.
Qed.

Lemma lower_special_spec c l :
  lower_special c = Some l -> c = 0x130 /\ l = [0x69; 0x307].
Proof.
  destruct (N.eq_dec c 0x130) as [->|Hc].
  - by intros [= <-].
  - by rewrite lower_special_None.
Qed.

Lemma sigma_in_table : lower_simple SIGMA LOWER = Some 0x3C3.
Proof. vm_compute. reflexivity. Qed.

Lemma lower_char_lowered c c' :
  c' ∈ lower_char c ->
  lowered c' /\ (unstripped c -> unstripped c').
Proof.
  unfold lower_char. destruct (lower_special c) as [l|] eqn:Es.
  - apply lower_special_spec in Es as [-> ->].
    intros Hin. apply elem_of_cons in Hin as [->|Hin];
      [|apply elem_of_cons in Hin as [->|Hin]; [|by apply elem_of_nil in Hin]].
    all: split; [split; vm_compute; reflexivity | intros _; vm_compute; reflexivity].
  - destruct (lower_simple c LOWER) as [t|] eqn:El.
    + intros ->%list_elem_of_singleton.
      apply lower_simple_Some in El as (lo & hi & tg & Hin & Hr & ->).
      destruct (target_facts lo hi tg c Hin Hr) as (Hn & H130 & Hu).
      split; [|done]. split.
      * unfold lower_char. by rewrite lower_special_None, Hn.
      * apply N.eqb_neq. intros Heq. rewrite Heq, sigma_in_table in Hn. done.
    + intros ->%list_elem_of_singleton. split; [|done]. split.
      * unfold lower_char. by rewrite Es, El.
      * apply N.eqb_neq. intros ->. rewrite sigma_in_table in El. done.
Qed.

Lemma final_sigmas_lowered : lowered 0x3C2 /\ lowered 0x3C3
  /\ unstripped 0x3C2 /\ unstripped 0x3C3.
Proof. repeat split; vm_compute; reflexivity. Qed.

Lemma lower_go_lowered before s c' :
  c' ∈ lower_go before s -> lowered c'.
Proof.
  revert before. induction s as [|c r IH]; intros before; simpl.
  - by intros ?%elem_of_nil.
  - intros [Hin|Hin]%elem_of_app; [|by eapply IH].
    destruct (c =? SIGMA).
    + apply list_elem_of_singleton in Hin as ->.
      destruct final_sigmas_lowered as (? & ? & _).
      by destruct (_ && _).
    + by apply lower_char_lowered in Hin as [? _].
Qed.

Lemma lower_go_unstripped before s :
  Forall unstripped s -> Forall unstripped (lower_go before s).
Proof.
  revert before. induction s as [|c r IH]; intros before Hs; simpl; [done|].
  apply Forall_cons in Hs as [Hc Hr]. apply Forall_app. split; [|by apply IH].
  destruct (c =? SIGMA).
  - destruct final_sigmas_lowered as (_ & _ & ? & ?).
    apply Forall_singleton. by destruct (_ && _).
  - apply Forall_forall. intros c' Hin.
    apply lower_char_lowered in Hin as [_ Hu]. auto.
Qed.

Lemma lower_go_fixed before s :
  Forall lowered s -> lower_go before s = s.
Proof.
  revert before. induction s as [|c r IH]; intros before Hs; simpl; [done|].
  apply Forall_cons in Hs as [[Hc Hsig] Hr].
  rewrite Hsig, Hc, IH by done. done.
Qed.

Lemma lower_idempotent s : lower (lower s) = lower s.
Proof.
  unfold lower. apply lower_go_fixed, Forall_forall.
  intros c. apply lower_go_lowered.
Qed.

(** Without a capital sigma, [lower] works character by character. *)
Lemma lower_go_pointwise before s :
  SIGMA ∉ s -> lower_go before s = flat_map lower_char s.
Proof.
  revert before. induction s as [|c r IH]; intros before Hs; simpl; [done|].
  apply not_elem_of_cons in Hs as [Hc Hr].
  destruct (c =? SIGMA) eqn:E; [apply N.eqb_eq in E; congruence|].
  by rewrite IH.
Qed.

End PyFacts.

(** ** Part VII. [DataProcessor]: normalisation *)

Module NormalizeFacts.
Import Py PyFacts Processor.

Lemma sub_class_unstripped s : Forall unstripped (Re.sub_class stripped s).
Proof.
  apply Forall_forall. intros c Hin. apply list_elem_of_In in Hin.
  unfold Re.sub_class in Hin. apply filter_In in Hin as [_ Hc].
  by apply negb_true_iff in Hc.
Qed.

Lemma sub_class_fixed s : Forall unstripped s -> Re.sub_class stripped s = s.
Proof.
  induction 1 as [|c s Hc _ IH]; [done|].
  unfold Re.sub_class in *. simpl. unfold unstripped in Hc. by rewrite Hc, IH.
Qed.

Lemma normalize_unfold s : _normalize_unit_id s = lower (Re.sub_class stripped s).
Proof. by destruct s. Qed.

Lemma normalize_unstripped s : Forall unstripped (_normalize_unit_id s).
Proof. rewrite normalize_unfold. apply lower_go_unstripped, sub_class_unstripped. Qed.

Lemma normalize_idempotent s :
  _normalize_unit_id (_normalize_unit_id s) = _normalize_unit_id s.
Proof.
  rewrite (normalize_unfold (_normalize_unit_id s)).
  rewrite sub_class_fixed by apply normalize_unstripped.
  rewrite normalize_unfold. apply lower_idempotent.
Qed.

(** No key of the lowercase tables is a stripped character. *)
Definition key_ok (e : N * N * N) : bool :=
  forallb (fun r => (e.1.2 <? r.1) || (r.2 <? e.1.1)) WHITESPACE
  && forallb (away e.1.1 e.1.2) STRIPPED_PUNCTUATION.

Lemma keys_ok : forallb key_ok LOWER = true /\ stripped 0x130 = false.
Proof. split; vm_compute; reflexivity. Qed.

Lemma stripped_lower_char c : stripped c = true -> lower_char c = [c].
Proof.
  intros Hc. destruct keys_ok as [Hk H130].
  assert (c <> 0x130) by (intros ->; congruence).
  unfold lower_char. rewrite lower_special_None by done.
  rewrite lower_simple_None; [done|].
  intros lo hi tg Hin. rewrite forallb_forall in Hk.
  apply list_elem_of_In in Hin. specialize (Hk _ Hin).
  unfold key_ok in Hk. cbv [fst snd] in Hk.
  apply andb_true_iff in Hk as [Hw Hp].
  destruct (N.lt_ge_cases c lo) as [?|Hlo]; [by left|].
  destruct (N.lt_ge_cases hi c) as [?|Hhi]; [by right|]. exfalso.
  unfold stripped in Hc. apply orb_true_iff in Hc as [Hc|Hc].
  - apply in_ranges_spec in Hc as ([r1 r2] & Hr & ?).
    rewrite forallb_forall in Hw. apply list_elem_of_In in Hr.
    specialize (Hw _ Hr). cbv [fst snd] in *.
    apply orb_true_iff in Hw as [Hw|Hw]; apply N.ltb_lt in Hw; lia.
  - apply bool_decide_eq_true in Hc.
    rewrite forallb_forall in Hp. apply list_elem_of_In in Hc.
    specialize (Hp _ Hc). unfold away in Hp.
    apply orb_true_iff in Hp as [Hp|Hp]; apply N.ltb_lt in Hp; lia.
Qed.

Lemma same_lower_same_class c c' :
  lower_char c = lower_char c' -> stripped c = stripped c'.
Proof.
  intros Heq.
  destruct (stripped c) eqn:Ec, (stripped c') eqn:Ec'; try done.
  - pose proof (stripped_lower_char c Ec) as Hl. rewrite Heq in Hl.
    assert (Hin : c ∈ lower_char c') by (rewrite Hl; left).
    apply lower_char_lowered in Hin as [_ Hu].
    specialize (Hu Ec'). unfold unstripped in Hu. congruence.
  - pose proof (stripped_lower_char c' Ec') as Hl. rewrite <- Heq in Hl.
    assert (Hin : c' ∈ lower_char c) by (rewrite Hl; left).
    apply lower_char_lowered in Hin as [_ Hu].
    specialize (Hu Ec). unfold unstripped in Hu. congruence.
Qed.

Lemma sub_class_no_sigma s : SIGMA ∉ s -> SIGMA ∉ Re.sub_class stripped s.
Proof.
  intros Hs Hin. apply Hs. apply list_elem_of_In in Hin.
  unfold Re.sub_class in Hin. apply filter_In in Hin as [Hin _].
  by apply list_elem_of_In.
Qed.

Lemma normalize_pointwise s :
  SIGMA ∉ s ->
  _normalize_unit_id s = flat_map lower_char (Re.sub_class stripped s).
Proof.
  intros Hs. rewrite normalize_unfold. unfold lower.
  by apply lower_go_pointwise, sub_class_no_sigma.
Qed.

End NormalizeFacts.

Module NormalizeClaims.
Import Py PyFacts Processor NormalizeFacts.












(** C10. [_normalize_unit_id] is idempotent, so the [unit_id] that
    [_create_location_chunks] and [process] write into the metadata of a
    chunk is a fixed point of it. *)
Theorem normalize_unit_id_idempotent :
  (forall s : str, _normalize_unit_id (_normalize_unit_id s) = _normalize_unit_id s)
  /\ (forall (offices : list Office) (source_url department : str) (chunk : Chunk),
        chunk ∈ _create_location_chunks offices source_url department ->
        exists unit_id : str,
          metadata chunk !! "unit_id"%string = Some unit_id
          /\ _normalize_unit_id unit_id = unit_id)
  /\ (forall (item_title url department text unit_id : str),
        document_metadata item_title url department text !! "unit_id"%string
          = Some unit_id ->
        _normalize_unit_id unit_id = unit_id).
Proof.
  split; [exact normalize_idempotent|split].
  - intros offices source_url department chunk Hin.
    unfold _create_location_chunks in Hin.
    apply list_elem_of_fmap in Hin as (office & -> & _).
    exists (_normalize_unit_id (name_zh office)). split.
    + unfold location_chunk. simpl. by simplify_map_eq.
    + apply normalize_idempotent.
  - intros item_title url department text unit_id.
    unfold document_metadata.
    set (title := if negb (is_empty item_title) then _ else _).
    set (unit_name := match _extract_unit_name_from_text title with
                      | Some (c :: u) => Some (c :: u)
                      | _ => _ end).
    destruct unit_name as [[|c u]|].
    + simpl. by simplify_map_eq.
    + destruct (negb (is_empty (_normalize_unit_id (c :: u)))).
      * simplify_map_eq. intros [= <-]. apply normalize_idempotent.
      * by simplify_map_eq.
    + simpl. by simplify_map_eq.
Qed.

Lemma normalize_unit_id_idempotent_witness :
  exists unit_id : str,
    metadata (location_chunk (utf8 "https://map.ntu.edu.tw/admin") (utf8 "admin")
                {| building := utf8 "行政大樓"; floor := utf8 "1樓";
                   room := utf8 "106"; name_zh := utf8 "註冊組 (Registrar)";
                   name_en := [] |}) !! "unit_id"%string = Some unit_id
    /\ _normalize_unit_id unit_id = unit_id.
Proof.
  destruct normalize_unit_id_idempotent as (_ & Hchunks & _).
  eapply (Hchunks [_]). unfold _create_location_chunks. simpl. left.
Defined.










End NormalizeClaims.

(** ** Part VIII. [DataProcessor]: office locations *)

Module ExtractFacts.
Import Py Processor.

(** The token of a floor-header line, and the groups of an office-entry
    line that is not a floor header. *)
Definition header (line : str) : option str := floor_re (strip line).

Definition entry (line : str) : option (str * str * option str) :=
  match header line with
  | Some _ => None
  | None => office_re (strip line)
  end.

(** The token of the most recent floor header among [lines]. *)
Definition last_header (lines : list str) : option str := last (omap header lines).

(** What the loop appends when it starts on [lines] with floor [cur]. *)
Fixpoint emitted (b cur : str) (lines : list str) : list Office :=
  match lines with
  | [] => []
  | l :: lines' =>
    match header l with
    | Some token => emitted b token lines'
    | None =>
      match entry l with
      | Some groups =>
        if negb (is_empty cur)
        then make_office b cur groups :: emitted b cur lines'
        else emitted b cur lines'
      | None => emitted b cur lines'
      end
    end
  end.

Lemma fold_emitted b lines cur offices :
  (fold_left (extract_step b) lines (cur, offices)).2
  = offices ++ emitted b cur lines.
Proof.
  revert cur offices. induction lines as [|l lines IH]; intros cur offices; simpl.
  - by rewrite app_nil_r.
  - unfold extract_step at 2, entry, header. simpl.
    destruct (floor_re (strip l)) as [token|]; [apply IH|].
    destruct (office_re (strip l)) as [groups|]; [|apply IH].
    destruct (negb (is_empty cur)); [|apply IH].
    rewrite IH, <- app_assoc. done.
Qed.

Lemma extract_emitted content b :
  _extract_office_locations content b = emitted b [] (split [LF] content).
Proof. unfold _extract_office_locations. by rewrite fold_emitted. Qed.

(** **** The matchers answer through their continuation *)

Lemma star_from_result {R} p (k : str -> str -> option R) acc s r :
  Re.star_from p k acc s = Some r -> exists acc' s', k acc' s' = Some r.
Proof.
  revert acc. induction s as [|c s IH]; intros acc; simpl; [eauto|].
  destruct (p c); [|eauto].
  destruct (Re.star_from p k (acc ++ [c]) s) eqn:E; [|eauto].
  intros [= <-]. eauto.
Qed.

Lemma plus_result {R} p (k : str -> str -> option R) s r :
  Re.plus p k s = Some r -> exists acc' s', k acc' s' = Some r.
Proof.
  destruct s as [|c s]; simpl; [done|]. destruct (p c); [|done].
  apply star_from_result.
Qed.

Lemma floor_token_nonempty s token : floor_token s = Some token -> token <> [].
Proof.
  unfold floor_token, Re.alt.
  destruct (Re.plus isdecimal _ s) as [r|] eqn:E.
  - intros [= <-]. apply plus_result in E as (ds & s' & E).
    unfold Re.lit in E. destruct s' as [|x s']; [done|].
    destruct (x =? ch "樓"); [|done]. injection E as <-.
    by destruct ds.
  - unfold Re.lit. destruct s as [|x s]; [done|].
    destruct (x =? ch "B"); [|done].
    intros (ds & s' & [= <-])%plus_result. done.
Qed.

Lemma header_nonempty line token : header line = Some token -> token <> [].
Proof.
  unfold header, floor_re, Re.alt.
  destruct (Re.lits _ _ (strip line)) as [r|] eqn:E.
  - intros [= <-]. simpl in E. unfold Re.lit in E.
    destruct (strip line) as [|x [|y s]]; try done.
    + by destruct (x =? _).
    + destruct (x =? _); [|done]. destruct (y =? _); [|done].
      apply star_from_result in E as (? & s' & E).
      by apply floor_token_nonempty in E.
  - apply floor_token_nonempty.
Qed.

(** **** Which records are emitted *)

Lemma last_header_snoc lines l :
  last_header (lines ++ [l])
  = match header l with Some token => Some token | None => last_header lines end.
Proof.
  unfold last_header. rewrite omap_app. simpl.
  destruct (header l); simpl; [by rewrite last_snoc|by rewrite app_nil_r].
Qed.

Lemma last_header_cons_None l lines :
  header l = None -> last_header (l :: lines) = last_header lines.
Proof. unfold last_header. simpl. by intros ->. Qed.

Lemma last_header_cons_Some l token lines :
  header l = Some token ->
  default token (last_header (l :: lines)) = default token (last_header lines)
  /\ is_Some (last_header (l :: lines)).
Proof.
  unfold last_header. simpl. intros ->.
  change (list_omap _ _ header lines) with (omap header lines).
  rewrite last_cons. destruct (last (omap header lines)); simpl; eauto.
Qed.

(** The floor in force after [pre], when the loop started with [cur]. *)
Definition floor_at (cur : str) (pre : list str) : str :=
  default cur (last_header pre).

Lemma floor_at_cons_None cur l pre :
  header l = None -> floor_at cur (l :: pre) = floor_at cur pre.
Proof. intros Hl. unfold floor_at. by rewrite last_header_cons_None. Qed.

Lemma floor_at_cons_Some cur l token pre :
  header l = Some token -> floor_at cur (l :: pre) = floor_at token pre.
Proof.
  intros Hl. unfold floor_at.
  destruct (last_header_cons_Some l token pre Hl) as [Heq [t Ht]].
  rewrite Ht in *. simpl in *. done.
Qed.

Lemma emitted_sound b cur lines r :
  r ∈ emitted b cur lines ->
  exists pre l post groups,
    lines = pre ++ l :: post /\ entry l = Some groups
    /\ floor_at cur pre <> [] /\ r = make_office b (floor_at cur pre) groups.
Proof.
  revert cur. induction lines as [|l lines IH]; intros cur; simpl.
  - by intros ?%elem_of_nil.
  - destruct (header l) as [token|] eqn:Eh.
    + intros (pre & l' & post & g & -> & ? & ? & ->)%IH.
      exists (l :: pre), l', post, g.
      rewrite (floor_at_cons_Some cur l token pre Eh). done.
    + assert (Hrest : r ∈ emitted b cur lines ->
        exists pre l0 post groups,
          l :: lines = pre ++ l0 :: post /\ entry l0 = Some groups
          /\ floor_at cur pre <> []
          /\ r = make_office b (floor_at cur pre) groups).
      { intros (pre & l' & post & g & -> & ? & ? & ->)%IH.
        exists (l :: pre), l', post, g.
        rewrite (floor_at_cons_None cur l pre Eh). done. }
      destruct (entry l) as [groups|] eqn:Ee; [|done].
      destruct cur as [|c cur']; simpl; [done|].
      intros [->|Hin]%elem_of_cons; [|by apply Hrest].
      exists [], l, lines, groups. done.
Qed.

Lemma emitted_complete b cur pre l post groups :
  entry l = Some groups -> floor_at cur pre <> [] ->
  make_office b (floor_at cur pre) groups ∈ emitted b cur (pre ++ l :: post).
Proof.
  intros He. assert (Hh : header l = None).
  { unfold entry in He. by destruct (header l). }
  revert cur. induction pre as [|p pre IH]; intros cur Hf; simpl.
  - rewrite Hh, He. unfold floor_at in *. simpl in *.
    destruct cur; [done|]. simpl. left.
  - destruct (header p) as [token|] eqn:Ep.
    + rewrite (floor_at_cons_Some cur p token pre Ep) in *. by apply IH.
    + rewrite (floor_at_cons_None cur p pre Ep) in *.
      destruct (entry p); [destruct (negb (is_empty cur)); [right|]|]; by apply IH.
Qed.

(** Lines seen while no floor is known leave no record. *)
Lemma emitted_no_floor b pre post :
  last_header pre = None -> emitted b [] (pre ++ post) = emitted b [] post.
Proof.
  induction pre as [|p pre IH]; simpl; [done|]. intros Hl.
  destruct (header p) as [token|] eqn:Ep.
  - destruct (last_header_cons_Some p token pre Ep) as [_ [t Ht]]. congruence.
  - rewrite last_header_cons_None in Hl by done.
    destruct (entry p); by apply IH.
Qed.

(** A line that matches neither pattern changes nothing. *)
Lemma emitted_skip b cur pre l post :
  header l = None -> entry l = None ->
  emitted b cur (pre ++ l :: post) = emitted b cur (pre ++ post).
Proof.
  intros Hh He. revert cur.
  induction pre as [|p pre IH]; intros cur; simpl.
  - by rewrite Hh, He.
  - destruct (header p); [apply IH|].
    destruct (entry p); [destruct (negb (is_empty cur))|]; by rewrite IH.
Qed.

End ExtractFacts.

Module ExtractClaims.
Import Py Processor ExtractFacts.

(** C6 (Scenario A). For any building name, a text that has the line
    ["## 1樓"] directly followed by the line ["- 106 註冊組 (Registrar)"]
    yields the record of room 106 on floor 1樓 with both names. *)
Theorem scenario_A_registrar (b content : str) (before after : list str) :
  split [LF] content
    = before ++ [utf8 "## 1樓"; utf8 "- 106 註冊組 (Registrar)"] ++ after ->
  {| building := b;
     floor := utf8 "1樓";
     room := utf8 "106";
     name_zh := utf8 "註冊組";
     name_en := utf8 "Registrar" |} ∈ _extract_office_locations content b.
Proof.
  intros Hlines. rewrite extract_emitted, Hlines.
  change (before ++ [?h; ?o] ++ after) with (before ++ [h] ++ o :: after).
  rewrite app_assoc.
  assert (Hh : header (utf8 "## 1樓") = Some (utf8 "1樓")) by (vm_compute; reflexivity).
  assert (He : entry (utf8 "- 106 註冊組 (Registrar)")
               = Some (utf8 "106", utf8 "註冊組", Some (utf8 "Registrar")))
    by (vm_compute; reflexivity).
  assert (Hf : floor_at [] (before ++ [utf8 "## 1樓"]) = utf8 "1樓").
  { unfold floor_at. by rewrite last_header_snoc, Hh. }
  pose proof (emitted_complete b [] (before ++ [utf8 "## 1樓"]) _ after _ He) as Hin.
  rewrite Hf in Hin. apply Hin. vm_compute. discriminate.
Qed.

Lemma scenario_A_registrar_witness :
  {| building := utf8 "行政大樓";
     floor := utf8 "1樓";
     room := utf8 "106";
     name_zh := utf8 "註冊組";
     name_en := utf8 "Registrar" |}
  ∈ _extract_office_locations
      (utf8 "行政大樓 Administration Building
## 1樓
- 106 註冊組 (Registrar)
- 107 出納組") (utf8 "行政大樓").
Proof.
  apply (scenario_A_registrar _ _ [utf8 "行政大樓 Administration Building"]
           [utf8 "- 107 出納組"]).
  vm_compute. reflexivity.
Defined.

(** C7. [_extract_office_locations] is a total function of the text: it
    answers with at most one record per line. Every record it emits
    comes from an office-entry line and carries a non-empty floor, the
    token of the most recent floor header before that line. Lines that
    come before any floor header emit nothing, and a line that matches
    neither pattern can be removed without changing the result. *)
Theorem extract_office_locations_floor_state :
  (forall content b : str,
      exists offices : list Office,
        _extract_office_locations content b = offices
        /\ (length offices <= length (split [LF] content))%nat)
  /\ (forall (content b : str) (r : Office),
        r ∈ _extract_office_locations content b ->
        floor r <> []
        /\ exists (pre : list str) (l : str) (post : list str) groups,
             split [LF] content = pre ++ l :: post
             /\ entry l = Some groups
             /\ last_header pre = Some (floor r)
             /\ r = make_office b (floor r) groups)
  /\ (forall (content content' b : str) (pre post : list str),
        split [LF] content = pre ++ post ->
        last_header pre = None ->
        split [LF] content' = post ->
        _extract_office_locations content b = _extract_office_locations content' b)
  /\ (forall (content content' b l : str) (pre post : list str),
        split [LF] content = pre ++ l :: post ->
        header l = None -> entry l = None ->
        split [LF] content' = pre ++ post ->
        _extract_office_locations content b = _extract_office_locations content' b).
Proof.
  split; [|split; [|split]].
  - intros content b. eexists. split; [done|].
    rewrite extract_emitted. generalize (split [LF] content) as lines.
    generalize (@nil N) as cur. intros cur lines. revert cur.
    induction lines as [|l lines IH]; intros cur; simpl; [lia|].
    destruct (header l); [specialize (IH l0); lia|].
    destruct (entry l); [destruct (negb (is_empty cur)); simpl|];
      specialize (IH cur); lia.
  - intros content b r Hin. rewrite extract_emitted in Hin.
    apply emitted_sound in Hin as (pre & l & post & groups & Hl & He & Hf & ->).
    unfold floor_at in *. destruct (last_header pre) as [token|] eqn:Elast;
      simpl in *; [|done].
    split; [done|]. exists pre, l, post, groups. done.
  - intros content content' b pre post Hl Hnone Hl'.
    rewrite !extract_emitted, Hl, Hl'. by apply emitted_no_floor.
  - intros content content' b l pre post Hl Hh He Hl'.
    rewrite !extract_emitted, Hl, Hl'. by apply emitted_skip.
Qed.

Lemma extract_office_locations_floor_state_witness :
  _extract_office_locations
    (utf8 "- 101 訪客中心
## 2樓
電話 33662007
- 201 秘書室") (utf8 "行政大樓")
  = _extract_office_locations
      (utf8 "## 2樓
- 201 秘書室") (utf8 "行政大樓").
Proof.
  destruct extract_office_locations_floor_state as (_ & _ & Hbefore & Hskip).
  etransitivity.
  - apply (Hskip _ (utf8 "- 101 訪客中心
## 2樓
- 201 秘書室") _ (utf8 "電話 33662007")
             [utf8 "- 101 訪客中心"; utf8 "## 2樓"] [utf8 "- 201 秘書室"]);
      vm_compute; reflexivity.
  - apply (Hbefore _ _ _ [utf8 "- 101 訪客中心"] [utf8 "## 2樓"; utf8 "- 201 秘書室"]);
      vm_compute; reflexivity.
Defined.

End ExtractClaims.

(** ** Part IX. [DataProcessor]: cleaning *)

Module CleanClaims.
Import Py Processor.

(** [clean(clean(x))], an [IndexError] in either pass being [None]. *)
Definition clean_twice (text dept : str) : option str :=
  cleaned ← clean_text_advanced text dept;
  clean_text_advanced cleaned dept.

(** C1 at a text with an empty heading. The heading line ["##"] passes the
    test for empty lines, then loses its marker and stays as an empty
    line of the result; the second pass drops it. The cleaned text
    ["A", "##", "B"], which is what cleaning leaves of the heading
    ["## ##"], is no fixed point either; and where such a line follows a
    room number, the second pass raises [IndexError] on [next1[0]]. *)
Theorem clean_text_advanced_empty_heading :
  clean_text_advanced (utf8 "A
##
B") [] = Some (utf8 "A

B")
  /\ clean_twice (utf8 "A
##
B") [] = Some (utf8 "A
B")
  /\ clean_text_advanced (utf8 "A
## ##
B") [] = Some (utf8 "A
##
B")
  /\ clean_text_advanced (utf8 "7
## ##
B
C") [] = Some (utf8 "7
##
B
C")
  /\ clean_twice (utf8 "7
## ##
B
C") [] = None.
Proof. repeat split; vm_compute; reflexivity. Qed.

End CleanClaims.

(** ** Part X. [EnhancedRAGEngine]: reranking *)

Module RerankFacts.
Import Py RagEngine Reference.

Section Sorting.
Context {D : Type} `{DistOrder D}.

(** Candidates in ascending order of distance. *)
Definition by_distance (x y : str * Meta * D) : Prop := dle x.2 y.2.

Lemma dlt_irrefl (x : D) : dlt x x = false.
Proof. destruct (dlt x x) eqn:E; [|done]. by rewrite (dlt_asym x x E) in E. Qed.

Lemma dle_refl (x : D) : dle x x.
Proof. apply dlt_irrefl. Qed.

Global Instance by_distance_trans : Transitive by_distance.
Proof. intros x y z. unfold by_distance. apply dle_trans. Qed.

Global Instance dle_transitive : Transitive (@dle D _).
Proof. intros x y z. apply dle_trans. Qed.

Lemma insert_by_distance_perm x l : insert_by_distance x l ≡ₚ x :: l.
Proof.
  induction l as [|y l IH]; simpl; [done|].
  destruct (dlt y.2 x.2); [|done]. rewrite IH. apply Permutation_swap.
Qed.

Lemma sort_by_distance_perm l : sort_by_distance l ≡ₚ l.
Proof.
  induction l as [|x l IH]; simpl; [done|].
  by rewrite insert_by_distance_perm, IH.
Qed.

Lemma insert_by_distance_sorted x l :
  Sorted by_distance l -> Sorted by_distance (insert_by_distance x l).
Proof.
  induction l as [|y l IH]; simpl; intros Hs.
  - by repeat constructor.
  - destruct (dlt y.2 x.2) eqn:E.
    + apply Sorted_inv in Hs as [Hs Hhd]. constructor; [by apply IH|].
      destruct l as [|z l]; simpl.
      * constructor. unfold by_distance, dle. by apply dlt_asym.
      * destruct (dlt z.2 x.2) eqn:E'.
        -- constructor. by apply HdRel_inv in Hhd.
        -- constructor. unfold by_distance, dle. by apply dlt_asym.
    + constructor; [done|]. constructor. done.
Qed.

Lemma sort_by_distance_sorted l : StronglySorted by_distance (sort_by_distance l).
Proof.
  apply Sorted_StronglySorted; [apply _|].
  induction l as [|x l IH]; simpl; [constructor|].
  by apply insert_by_distance_sorted.
Qed.

Lemma StronglySorted_take {A} (R : relation A) n l :
  StronglySorted R l -> StronglySorted R (take n l).
Proof.
  intros Hs. revert n. induction Hs as [|x l Hs IH Hall]; intros [|n]; simpl;
    try constructor; [by apply IH|].
  apply Forall_forall. intros y Hy. rewrite Forall_forall in Hall.
  apply Hall. by eapply (subseteq_take n l).
Qed.

Lemma StronglySorted_distances l :
  StronglySorted by_distance l -> StronglySorted dle (distances (unzip3 l)).
Proof.
  simpl. induction 1 as [|x l _ IH Hall]; simpl; constructor; [done|].
  apply Forall_forall. intros d (y & -> & Hy)%list_elem_of_fmap.
  rewrite Forall_forall in Hall. by apply Hall.
Qed.

Lemma max0_nonneg (x : D) : dle dzero (max0 x).
Proof.
  unfold max0, dle. destruct (dlt dzero x) eqn:E.
  - by apply dlt_asym.
  - apply dlt_irrefl.
Qed.

End Sorting.

Section Rerank.
Context {D : Type} `{Dist D}.

Lemma unzip3_zip3 (l : list (str * Meta * D)) :
  zip3 (documents (unzip3 l)) (metadatas (unzip3 l)) (distances (unzip3 l)) = l.
Proof.
  unfold zip3. simpl. induction l as [|[[d m] x] l IH]; simpl; [done|].
  by rewrite IH.
Qed.

Lemma unzip3_lengths (l : list (str * Meta * D)) :
  length (documents (unzip3 l)) = length l
  /\ length (metadatas (unzip3 l)) = length l
  /\ length (distances (unzip3 l)) = length l.
Proof. simpl. by rewrite !length_map. Qed.

Lemma rerank_unfold docs metas (dists : list D) intent top_k :
  _rerank_with_intent docs metas dists intent top_k
  = unzip3 (take top_k (sort_by_distance (map (boost intent) (zip3 docs metas dists)))).
Proof. destruct docs; [by destruct top_k|done]. Qed.

End Rerank.

End RerankFacts.

Module RerankClaims.
Import Py RagEngine Reference RerankFacts.

Global Instance Q_dist_order : DistOrder Q.
Proof.
  split.
  - intros x y. simpl. rewrite negb_true_iff, negb_false_iff.
    intros Hxy. apply Qle_bool_iff, Qlt_le_weak, Qnot_le_lt.
    intros Hle. apply Qle_bool_iff in Hle. congruence.
  - intros x y z. unfold dle. simpl. rewrite !negb_false_iff, !Qle_bool_iff.
    apply Qle_trans.
Qed.

Section Spec.
Context {D : Type} `{Dist D}.

(** The discount of an intent, in the words of the specification. *)
Definition spec_discount (intent : str) : option D :=
  if str_eqb intent (utf8 "location") then Some lit_0_2
  else if str_eqb intent (utf8 "phone") then Some lit_0_15
  else if str_eqb intent (utf8 "service") then Some lit_0_1
  else None.

Definition chunk_type (meta : Meta) : str :=
  default (utf8 "general") (meta !! "type"%string).

(** [b] is [v] floored at 0, in the words of the specification: [b] is
    one of [v] and [0], and neither of the two is above it. *)
Definition floored_at_0 (v b : D) : Prop :=
  (b = v \/ b = dzero) /\ dle dzero b /\ dle v b.

(** [y] is the candidate [x] after the boost, in the words of the
    specification: the same text and metadata, with the distance less the
    discount and floored at 0 when the chunk type is the intent and the
    intent has a discount, and with the same distance otherwise. *)
Definition spec_boosted (intent : str) (x y : str * Meta * D) : Prop :=
  y.1 = x.1
  /\ match spec_discount intent with
     | Some discount =>
       if str_eqb (chunk_type x.1.2) intent
       then floored_at_0 (dsub x.2 discount) y.2
       else y.2 = x.2
     | None => y.2 = x.2
     end.

End Spec.

Section Boost.
Context {D : Type} `{DistOrder D}.

Lemma max0_floored (v : D) : floored_at_0 v (max0 v).
Proof.
  unfold floored_at_0, max0. destruct (dlt dzero v) eqn:E.
  - split; [by left|]. split; [|apply dle_refl].
    unfold dle. by apply dlt_asym.
  - split; [by right|]. split; [apply dle_refl|done].
Qed.

Lemma boost_spec intent (x : str * Meta * D) : spec_boosted intent x (boost intent x).
Proof.
  destruct x as [[doc meta] dist].
  unfold spec_boosted, boost, _apply_type_boost, spec_discount, chunk_type, str_eqb.
  cbn [fst snd]. split; [done|].
  repeat case_bool_decide; subst; cbn [andb]; try done; try congruence;
    apply max0_floored.
Qed.

End Boost.

(** C5. [_rerank_with_intent] with [top_k = 5] answers with the texts,
    metadata and distances of the first five of a list [ranked] that is
    in ascending order of distance and holds exactly the boosted
    candidates. A candidate is boosted to its distance less the discount,
    floored at 0, when its chunk type is the intent and the intent is
    location (0.2), phone (0.15) or service (0.1), and keeps its distance
    otherwise. *)
Theorem rerank_with_intent_postcondition {D : Type} `{DistOrder D}
    (docs : list str) (metas : list Meta) (dists : list D) (intent : str) :
  exists boosted ranked : list (str * Meta * D),
    Forall2 (spec_boosted intent) (zip (zip docs metas) dists) boosted
    /\ ranked ≡ₚ boosted
    /\ StronglySorted (fun x y : str * Meta * D => dle x.2 y.2) ranked
    /\ documents (_rerank_with_intent docs metas dists intent 5)
       = (fun x : str * Meta * D => x.1.1) <$> take 5 ranked
    /\ metadatas (_rerank_with_intent docs metas dists intent 5)
       = (fun x : str * Meta * D => x.1.2) <$> take 5 ranked
    /\ distances (_rerank_with_intent docs metas dists intent 5)
       = snd <$> take 5 ranked.
Proof.
  exists (map (boost intent) (zip3 docs metas dists)),
         (sort_by_distance (map (boost intent) (zip3 docs metas dists))).
  split; [|split; [|split]].
  - unfold zip3. induction (zip (zip docs metas) dists) as [|x l IH]; simpl.
    + constructor.
    + constructor; [apply boost_spec|apply IH].
  - apply sort_by_distance_perm.
  - apply sort_by_distance_sorted.
  - rewrite rerank_unfold. done.
Qed.

(** Six candidates and the intent [location]: the location chunk at 0.1
    is floored at 0, the one at 0.5 comes to 0.3, and the sixth candidate
    is cut off. *)
Definition of_type (t : string) : Meta := {["type"%string := utf8 t]}.

Definition six_docs : list str :=
  [utf8 "a"; utf8 "b"; utf8 "c"; utf8 "d"; utf8 "e"; utf8 "f"].
Definition six_metas : list Meta :=
  [of_type "general"; of_type "location"; of_type "phone"; of_type "location";
   of_type "general"; of_type "service"].
Definition six_dists : list Q :=
  [(2 # 10)%Q; (5 # 10)%Q; (4 # 10)%Q; (1 # 10)%Q; (6 # 10)%Q; (7 # 10)%Q].

Lemma rerank_with_intent_postcondition_witness :
  exists boosted ranked : list (str * Meta * Q),
    Forall2 (spec_boosted (utf8 "location"))
      (zip (zip six_docs six_metas) six_dists) boosted
    /\ ranked ≡ₚ boosted
    /\ StronglySorted (fun x y : str * Meta * Q => dle x.2 y.2) ranked
    /\ documents (_rerank_with_intent six_docs six_metas six_dists (utf8 "location") 5)
       = (fun x : str * Meta * Q => x.1.1) <$> take 5 ranked
    /\ metadatas (_rerank_with_intent six_docs six_metas six_dists (utf8 "location") 5)
       = (fun x : str * Meta * Q => x.1.2) <$> take 5 ranked
    /\ distances (_rerank_with_intent six_docs six_metas six_dists (utf8 "location") 5)
       = snd <$> take 5 ranked.
Proof.
  apply (rerank_with_intent_postcondition (D := Q)).
Defined.

(** What the code computes on them, in Python
    [[0, 0.2, 0.3, 0.4, 0.6]] up to rounding. *)
Lemma rerank_with_intent_example :
  documents (_rerank_with_intent six_docs six_metas six_dists (utf8 "location") 5)
  = [utf8 "d"; utf8 "a"; utf8 "b"; utf8 "c"; utf8 "e"]
  /\ distances (_rerank_with_intent six_docs six_metas six_dists (utf8 "location") 5)
     = [0%Q; (2 # 10)%Q; (30 # 100)%Q; (4 # 10)%Q; (6 # 10)%Q].
Proof. split; vm_compute; reflexivity. Qed.

End RerankClaims.

(** ** Part XI. [EnhancedRAGEngine]: the computations of the engine *)

Module EngFacts.
Import Py RagEngine.

Lemma bind_Some {A B} (m : Eng A) (f : A -> Eng B) b calls :
  m ≫= f = (Some b, calls) ->
  exists a c1 c2, m = (Some a, c1) /\ f a = (Some b, c2) /\ calls = c1 ++ c2.
Proof.
  destruct m as [[a|] c1]; unfold mbind, eng_bind; [|done].
  destruct (f a) as [r c2] eqn:E. intros [= -> <-]. eauto 6.
Qed.

Lemma bind_calls {A B} (P : Call -> Prop) (m : Eng A) (f : A -> Eng B) :
  Forall P m.2 -> (forall a, m.1 = Some a -> Forall P (f a).2) ->
  Forall P (m ≫= f).2.
Proof.
  destruct m as [[a|] c1]; unfold mbind, eng_bind; simpl; [|done].
  intros H1 H2. specialize (H2 a eq_refl). destruct (f a) as [r c2].
  simpl in *. by apply Forall_app.
Qed.

Lemma try_except_Some {A} (m handler : Eng A) a calls :
  try_except m handler = (Some a, calls) ->
  m = (Some a, calls)
  \/ exists c1 c2, m = (None, c1) /\ handler = (Some a, c2) /\ calls = c1 ++ c2.
Proof.
  destruct m as [[x|] c1]; unfold try_except.
  - intros [= -> <-]. by left.
  - destruct handler as [r c2]. intros [= -> <-]. right. eauto.
Qed.

Lemma try_except_calls {A} (P : Call -> Prop) (m handler : Eng A) :
  Forall P m.2 -> Forall P handler.2 -> Forall P (try_except m handler).2.
Proof.
  destruct m as [[x|] c1]; unfold try_except; simpl; [done|].
  destruct handler as [r c2]. simpl. intros. by apply Forall_app.
Qed.

Lemma for_each_calls {A S} (P : Call -> Prop) (xs : list A)
    (body : S -> A -> Eng S) st :
  (forall x s, x ∈ xs -> Forall P (body s x).2) ->
  Forall P (for_each xs body st).2.
Proof.
  revert st. induction xs as [|x xs IH]; intros st Hbody; simpl; [done|].
  apply bind_calls.
  - apply Hbody. left.
  - intros st' _. apply IH. intros. apply Hbody. by right.
Qed.

(** An invariant of the loop, and a property that the turn of [u]
    establishes and the later turns keep. *)
Lemma for_each_inv {A S} (Inv : S -> Prop) (xs : list A)
    (body : S -> A -> Eng S) st st' calls :
  (forall x s s' c, x ∈ xs -> Inv s -> body s x = (Some s', c) -> Inv s') ->
  Inv st -> for_each xs body st = (Some st', calls) -> Inv st'.
Proof.
  revert st calls. induction xs as [|x xs IH]; intros st calls Hbody Hst; simpl.
  - by intros [= <- <-].
  - intros (s1 & c1 & c2 & H1 & H2 & _)%bind_Some.
    eapply (IH s1); [|by eapply Hbody; [left|..]|done].
    intros. eapply Hbody; [by right|done..].
Qed.

Lemma for_each_elem {A S} (Inv Cov : S -> Prop) (xs : list A) (u : A)
    (body : S -> A -> Eng S) st st' calls :
  u ∈ xs ->
  (forall x s s' c, Inv s -> body s x = (Some s', c) -> Inv s') ->
  (forall s s' c, Inv s -> body s u = (Some s', c) -> Cov s') ->
  (forall x s s' c, Inv s -> Cov s -> body s x = (Some s', c) -> Cov s') ->
  Inv st -> for_each xs body st = (Some st', calls) -> Cov st'.
Proof.
  intros Hu Hinv Hcov Hkeep. revert st calls.
  induction xs as [|x xs IH]; intros st calls Hst; simpl.
  - by apply elem_of_nil in Hu.
  - intros (s1 & c1 & c2 & H1 & H2 & _)%bind_Some.
    pose proof (Hinv _ _ _ _ Hst H1) as Hs1.
    apply elem_of_cons in Hu as [->|Hu].
    + pose proof (Hcov _ _ _ Hst H1) as Hc1. clear IH.
      assert (Hboth : Inv st' /\ Cov st'); [|by destruct Hboth].
      eapply (for_each_inv (fun s => Inv s /\ Cov s) xs body s1); [|done..].
      intros y s s' c _ [??] Hb. split; eauto.
    + by eapply IH.
Qed.

Lemma for_each_total {A S} (xs : list A) (body : S -> A -> Eng S) st :
  (forall x s, is_Some (body s x).1) -> is_Some (for_each xs body st).1.
Proof.
  intros Hbody. revert st. induction xs as [|x xs IH]; intros st; simpl; [eauto|].
  destruct (Hbody x st) as [s1 H1]. destruct (body st x) as [r c1]. simpl in H1.
  subst r. unfold mbind, eng_bind.
  destruct (IH s1) as [s2 H2]. destruct (for_each xs body s1) as [r c2]. simpl in *.
  eauto.
Qed.

End EngFacts.

(** ** Part XII. [EnhancedRAGEngine]: merging, augmentation, retrieval *)

Module RetrieveFacts.
Import Py RagEngine Reference RerankFacts EngFacts.

Section Facts.
Context {D : Type} `{Dist D}.
Variable collection : Collection D.
Variable listing : gset str -> list str.

(** The first 100 characters of a candidate's text, its Stage-2 key, and
    whether it is a location chunk. *)
Definition prefix_of (x : str * Meta * D) : str := take 100 x.1.1.
Definition doc_id (x : str * Meta * D) : str := doc_id_of x.1.1 x.1.2.
Definition is_location (x : str * Meta * D) : Prop :=
  x.1.2 !! "type"%string = Some (utf8 "location").

(** [Q] holds of whatever the store answers and is kept by the boost. *)
Variable Q : str * Meta * D -> Prop.
Hypothesis store_Q :
  forall q n w r, query collection q n w = Some r -> Forall Q (candidates r).
Hypothesis boost_Q : forall intent x, Q x -> Q (boost intent x).

Lemma do_query_Some q n w r calls :
  do_query collection q n w = (Some r, calls) -> query collection q n w = Some r.
Proof. unfold do_query. by intros [= -> _]. Qed.

Lemma try_query_Q q n w q' n' w' r calls :
  try_except (do_query collection q n w) (do_query collection q' n' w')
    = (Some r, calls) ->
  Forall Q (candidates r).
Proof.
  intros [Hq|(c1 & c2 & _ & Hq & _)]%try_except_Some;
    apply do_query_Some in Hq; by eapply store_Q.
Qed.

(** *** Augmentation *)

Definition fresh (base new : list str) : Prop :=
  NoDup new /\ forall p, p ∈ new -> p ∉ base.

(** The lists of [st] are those of [init] and what was appended to it. *)
Definition appending (init : list (str * Meta * D)) (st : Appending D) : Prop :=
  exists appended,
    a_docs st = documents (unzip3 (init ++ appended))
    /\ a_metas st = metadatas (unzip3 (init ++ appended))
    /\ a_dists st = distances (unzip3 (init ++ appended))
    /\ (forall p, p ∈ a_seen st <-> p ∈ prefix_of <$> (init ++ appended))
    /\ Forall (fun x => is_location x /\ Q x) appended
    /\ fresh (prefix_of <$> init) (prefix_of <$> appended).

Definition covered (x : str * Meta * D) (st : Appending D) : Prop :=
  prefix_of x ∈ a_seen st.

Lemma _append_appending init st x :
  appending init st -> is_location x -> Q x -> appending init (_append st x).
Proof.
  intros (appended & Hd & Hm & Hx & Hseen & Hall & Hnd & Hbase) Hloc Hq.
  unfold _append. case_bool_decide as Hin; [by exists appended|].
  exists (appended ++ [x]). simpl.
  rewrite Hd, Hm, Hx. simpl. rewrite !app_assoc, !map_app. simpl.
  repeat split; try done.
  - intros [->%elem_of_singleton|Hp%Hseen]%elem_of_union.
    + apply elem_of_app. right. left.
    + rewrite fmap_app in Hp. apply elem_of_app. by left.
  - intros [Hp|Hp%list_elem_of_singleton]%elem_of_app.
    + apply elem_of_union. right. apply Hseen. by rewrite fmap_app.
    + apply elem_of_union. left. by apply elem_of_singleton.
  - apply Forall_app. split; [done|]. by apply Forall_singleton.
  - apply NoDup_app. split; [done|]. split.
    + intros p Hp ->%list_elem_of_singleton. apply Hin, Hseen.
      rewrite fmap_app. apply elem_of_app. by right.
    + apply NoDup_singleton.
  - intros p [Hp| ->%list_elem_of_singleton]%elem_of_app; [by apply Hbase|].
    intros Hp. apply Hin, Hseen. rewrite fmap_app. apply elem_of_app. by left.
Qed.

Lemma _append_covered st x : covered x (_append st x).
Proof.
  unfold covered, _append. case_bool_decide; [done|]. simpl.
  apply elem_of_union. left. by apply elem_of_singleton.
Qed.

Lemma _append_keeps st x y : covered y st -> covered y (_append st x).
Proof.
  unfold covered, _append. case_bool_decide; [done|]. simpl.
  intros. apply elem_of_union. by right.
Qed.

Definition append_if_location (st : Appending D) (x : str * Meta * D) : Appending D :=
  if bool_decide (x.1.2 !! "type"%string = Some (utf8 "location"))
  then _append st x else st.

Lemma append_locations_fold st r :
  append_locations st r = fold_left append_if_location (candidates r) st.
Proof. done. Qed.

Lemma fold_append_appending init xs st :
  appending init st -> Forall Q xs ->
  appending init (fold_left append_if_location xs st).
Proof.
  revert st. induction xs as [|x xs IH]; intros st Hst Hxs; simpl; [done|].
  apply Forall_cons in Hxs as [Hx Hxs]. apply IH; [|done].
  unfold append_if_location. case_bool_decide; [|done].
  by apply _append_appending.
Qed.

Lemma fold_append_keeps xs st y :
  covered y st -> covered y (fold_left append_if_location xs st).
Proof.
  revert st. induction xs as [|x xs IH]; intros st Hst; simpl; [done|].
  apply IH. unfold append_if_location. case_bool_decide; [|done].
  by apply _append_keeps.
Qed.

Lemma fold_append_covered xs st x :
  x ∈ xs -> is_location x -> covered x (fold_left append_if_location xs st).
Proof.
  revert st. induction xs as [|y xs IH]; intros st Hin Hloc; simpl.
  - by apply elem_of_nil in Hin.
  - apply elem_of_cons in Hin as [<-|Hin]; [|by apply IH].
    apply fold_append_keeps. unfold append_if_location.
    rewrite bool_decide_eq_true_2 by done. apply _append_covered.
Qed.

(** The two loop bodies of [_append_location_chunks]. *)
Definition by_unit_id (n : nat) (st : Appending D) (unit_id : str) : Eng (Appending D) :=
  loc_results ← try_except
    (do_query collection unit_id n (location_where unit_id))
    (do_query collection unit_id n None);
  mret (append_locations st loc_results).

Definition by_unit_name (n : nat) (st : Appending D) (unit_name : str) : Eng (Appending D) :=
  loc_results ← do_query collection unit_name n None;
  mret (append_locations st loc_results).

Lemma by_unit_id_appending init n st u st' calls :
  appending init st -> by_unit_id n st u = (Some st', calls) -> appending init st'.
Proof.
  intros Hst (lr & c1 & c2 & Hq & [= <- _] & _)%bind_Some.
  rewrite append_locations_fold. apply fold_append_appending; [done|].
  by eapply try_query_Q.
Qed.

Lemma by_unit_name_appending init n st u st' calls :
  appending init st -> by_unit_name n st u = (Some st', calls) -> appending init st'.
Proof.
  intros Hst (lr & c1 & c2 & Hq & [= <- _] & _)%bind_Some.
  rewrite append_locations_fold. apply fold_append_appending; [done|].
  apply do_query_Some in Hq. by eapply store_Q.
Qed.

Lemma by_unit_id_keeps n st u st' calls y :
  covered y st -> by_unit_id n st u = (Some st', calls) -> covered y st'.
Proof.
  intros Hst (lr & c1 & c2 & Hq & [= <- _] & _)%bind_Some.
  rewrite append_locations_fold. by apply fold_append_keeps.
Qed.

Lemma by_unit_id_covered n st u st' calls lr x :
  query collection u n (location_where u) = Some lr ->
  x ∈ candidates lr -> is_location x ->
  by_unit_id n st u = (Some st', calls) -> covered x st'.
Proof.
  intros Hq Hx Hloc. unfold by_unit_id, do_query. rewrite Hq. simpl.
  intros [= <- _]. rewrite append_locations_fold. by apply fold_append_covered.
Qed.

Definition initial (results : QueryResult D) : Appending D :=
  {| a_docs := documents results;
     a_metas := metadatas results;
     a_dists := distances results;
     a_seen := list_to_set (map (take 100) (documents results)) |}.

Lemma _append_location_chunks_unfold results unit_ids unit_names n :
  _append_location_chunks collection results unit_ids unit_names n
  = st ← for_each unit_ids (by_unit_id n) (initial results);
    st ← (match unit_ids with
          | [] => for_each unit_names (by_unit_name n) st
          | _ => mret st
          end);
    mret {| documents := a_docs st; metadatas := a_metas st; distances := a_dists st |}.
Proof. done. Qed.

Lemma initial_appending init : appending init (initial (unzip3 init)).
Proof.
  exists []. rewrite app_nil_r. simpl. repeat split; try done.
  - intros Hp%elem_of_list_to_set. by rewrite <- list_fmap_compose in Hp.
  - intros Hp. apply elem_of_list_to_set. by rewrite <- list_fmap_compose.
  - apply NoDup_nil_2.
  - by intros p ?%elem_of_nil.
Qed.

Lemma append_loops init unit_ids unit_names n r calls :
  _append_location_chunks collection (unzip3 init) unit_ids unit_names n
    = (Some r, calls) ->
  exists st1 st2 c1 c2,
    for_each unit_ids (by_unit_id n) (initial (unzip3 init)) = (Some st1, c1)
    /\ appending init st1
    /\ (match unit_ids with
        | [] => for_each unit_names (by_unit_name n) st1
        | _ => mret st1
        end) = (Some st2, c2)
    /\ appending init st2
    /\ r = {| documents := a_docs st2; metadatas := a_metas st2;
              distances := a_dists st2 |}.
Proof.
  rewrite _append_location_chunks_unfold.
  intros (st1 & c1 & c' & H1 & (st2 & c2 & c3 & H2 & [= <- _] & _)%bind_Some & _)%bind_Some.
  assert (Hst1 : appending init st1).
  { eapply for_each_inv; [|apply initial_appending|exact H1].
    intros. by eapply by_unit_id_appending. }
  exists st1, st2, c1, c2. repeat split; try done.
  destruct unit_ids.
  - eapply for_each_inv; [|exact Hst1|exact H2].
    intros. by eapply by_unit_name_appending.
  - by injection H2 as <- _.
Qed.

(** What augmentation returns: the given candidates, then location chunks,
    each new in its first 100 characters. *)
Lemma append_result init unit_ids unit_names n r calls :
  _append_location_chunks collection (unzip3 init) unit_ids unit_names n
    = (Some r, calls) ->
  exists appended,
    r = unzip3 (init ++ appended)
    /\ Forall (fun x => is_location x /\ Q x) appended
    /\ fresh (prefix_of <$> init) (prefix_of <$> appended).
Proof.
  intros (st1 & st2 & c1 & c2 & _ & _ & _ & Hst2 & ->)%append_loops.
  destruct Hst2 as (appended & Hd & Hm & Hx & _ & Hall & Hfresh).
  exists appended. rewrite Hd, Hm, Hx. done.
Qed.

(** A location chunk that the filtered query of a unit id answers is in
    the result, or the result has its first 100 characters already. *)
Lemma append_covers init unit_ids unit_names n r calls u lr x :
  _append_location_chunks collection (unzip3 init) unit_ids unit_names n
    = (Some r, calls) ->
  u ∈ unit_ids ->
  query collection u n (location_where u) = Some lr ->
  x ∈ candidates lr -> is_location x ->
  prefix_of x ∈ take 100 <$> documents r.
Proof.
  intros (st1 & st2 & c1 & c2 & H1 & Hst1 & H2 & Hst2 & ->)%append_loops
    Hu Hq Hx Hloc.
  assert (Hcov : covered x st1).
  { eapply (for_each_elem (appending init) (covered x)); [exact Hu|..|exact H1].
    - intros. by eapply by_unit_id_appending.
    - intros. by eapply by_unit_id_covered.
    - intros. by eapply by_unit_id_keeps.
    - apply initial_appending. }
  destruct unit_ids; [by apply elem_of_nil in Hu|].
  injection H2 as <- _.
  destruct Hst2 as (appended & Hd & _ & _ & Hseen & _).
  simpl. rewrite Hd. simpl. apply Hseen in Hcov.
  by rewrite <- list_fmap_compose.
Qed.

(** *** Stage 2 *)

(** The lists of [st] are those of candidates with different keys. *)
Definition merging (st : Merging D) : Prop :=
  exists l,
    all_docs st = documents (unzip3 l)
    /\ all_metas st = metadatas (unzip3 l)
    /\ all_distances st = distances (unzip3 l)
    /\ (forall p, p ∈ seen_ids st <-> p ∈ doc_id <$> l)
    /\ NoDup (doc_id <$> l)
    /\ Forall Q l.

Definition merge_one (st : Merging D) (x : str * Meta * D) : Merging D :=
  if bool_decide (doc_id x ∈ seen_ids st) then st
  else {| all_docs := all_docs st ++ [x.1.1];
          all_metas := all_metas st ++ [x.1.2];
          all_distances := all_distances st ++ [x.2];
          seen_ids := {[doc_id x]} ∪ seen_ids st |}.

Lemma merge_results_fold st r :
  merge_results st r = fold_left merge_one (candidates r) st.
Proof. done. Qed.

Lemma merge_one_merging st x : merging st -> Q x -> merging (merge_one st x).
Proof.
  intros (l & Hd & Hm & Hx & Hseen & Hnd & Hall) Hq.
  unfold merge_one. case_bool_decide as Hin; [by exists l|].
  exists (l ++ [x]). simpl.
  rewrite Hd, Hm, Hx. simpl. rewrite !map_app. simpl.
  repeat split; try done.
  - intros [->%elem_of_singleton|Hp%Hseen]%elem_of_union.
    + apply elem_of_app. right. left.
    + apply elem_of_app. by left.
  - intros [Hp|Hp%list_elem_of_singleton]%elem_of_app.
    + apply elem_of_union. right. by apply Hseen.
    + apply elem_of_union. left. by apply elem_of_singleton.
  - apply NoDup_app. split; [done|]. split.
    + intros p Hp ->%list_elem_of_singleton. by apply Hin, Hseen.
    + apply NoDup_singleton.
  - apply Forall_app. split; [done|]. by apply Forall_singleton.
Qed.

Lemma fold_merge_merging xs st :
  merging st -> Forall Q xs -> merging (fold_left merge_one xs st).
Proof.
  revert st. induction xs as [|x xs IH]; intros st Hst Hxs; simpl; [done|].
  apply Forall_cons in Hxs as [Hx Hxs]. apply IH; [|done].
  by apply merge_one_merging.
Qed.

Definition stage2_by_id (q : str) (n : nat) (st : Merging D) (unit_id : str)
    : Eng (Merging D) :=
  results ← try_except
    (do_query collection q n (Some [("unit_id"%string, unit_id)]))
    (do_query collection q n None);
  mret (merge_results st results).

Definition stage2_by_name (q : str) (n : nat) (st : Merging D) (unit_name : str)
    : Eng (Merging D) :=
  results ← do_query collection (unit_name ++ utf8 " " ++ q) n None;
  mret (merge_results st results).

Definition nothing_merged : Merging D :=
  {| all_docs := []; all_metas := []; all_distances := []; seen_ids := ∅ |}.

Lemma retrieve_stage2_unfold unit_names unit_ids q n :
  retrieve_stage2 collection unit_names unit_ids q n
  = st ← for_each unit_ids (stage2_by_id q n) nothing_merged;
    st ← (match all_docs st, unit_names with
          | [], _ :: _ => for_each unit_names (stage2_by_name q n) st
          | _, _ => mret st
          end);
    mret (unzip3
            (take (length (sort_by_distance
                             (zip3 (all_docs st) (all_metas st) (all_distances st)))
                   `min` n)%nat
               (sort_by_distance
                  (zip3 (all_docs st) (all_metas st) (all_distances st))))).
Proof. done. Qed.

Lemma stage2_by_id_merging q n st u st' calls :
  merging st -> stage2_by_id q n st u = (Some st', calls) -> merging st'.
Proof.
  intros Hst (lr & c1 & c2 & Hq & [= <- _] & _)%bind_Some.
  rewrite merge_results_fold. apply fold_merge_merging; [done|].
  by eapply try_query_Q.
Qed.

Lemma stage2_by_name_merging q n st u st' calls :
  merging st -> stage2_by_name q n st u = (Some st', calls) -> merging st'.
Proof.
  intros Hst (lr & c1 & c2 & Hq & [= <- _] & _)%bind_Some.
  rewrite merge_results_fold. apply fold_merge_merging; [done|].
  apply do_query_Some in Hq. by eapply store_Q.
Qed.

Lemma NoDup_take_sorted (l : list (str * Meta * D)) n :
  NoDup (doc_id <$> l) -> NoDup (doc_id <$> take n (sort_by_distance l)).
Proof.
  intros Hnd. rewrite fmap_take.
  eapply sublist_NoDup; [|apply sublist_take].
  by rewrite sort_by_distance_perm.
Qed.

Lemma Forall_take_sorted (P : str * Meta * D -> Prop) l n :
  Forall P l -> Forall P (take n (sort_by_distance l)).
Proof.
  intros Hall. apply Forall_take. by rewrite sort_by_distance_perm.
Qed.

(** What Stage 2 returns: candidates with different keys. *)
Lemma stage2_result unit_names unit_ids q n r calls :
  retrieve_stage2 collection unit_names unit_ids q n = (Some r, calls) ->
  exists l, r = unzip3 l /\ NoDup (doc_id <$> l) /\ Forall Q l.
Proof.
  rewrite retrieve_stage2_unfold.
  intros (st1 & c1 & c' & H1 & (st2 & c2 & c3 & H2 & [= <- _] & _)%bind_Some & _)%bind_Some.
  assert (Hst1 : merging st1).
  { eapply for_each_inv; [|shelve|exact H1].
    intros. by eapply stage2_by_id_merging. }
  assert (Hst2 : merging st2).
  { destruct (all_docs st1), unit_names; try by injection H2 as <- _.
    eapply for_each_inv; [|exact Hst1|exact H2].
    intros. by eapply stage2_by_name_merging. }
  destruct Hst2 as (l & Hd & Hm & Hx & _ & Hnd & Hall).
  rewrite Hd, Hm, Hx, unzip3_zip3.
  eexists. split; [done|]. split.
  - by apply NoDup_take_sorted.
  - by apply Forall_take_sorted.
  Unshelve.
  exists []. repeat split; try done; try set_solver.
  apply NoDup_nil_2.
Qed.

(** *** Reranking and the whole of [retrieve] *)

Lemma rerank_query (r : QueryResult D) intent k :
  _rerank_with_intent (documents r) (metadatas r) (distances r) intent k
  = unzip3 (take k (sort_by_distance (boost intent <$> candidates r))).
Proof. apply rerank_unfold. Qed.

Lemma boost_doc_id intent x : doc_id (boost intent x) = doc_id x.
Proof. done. Qed.

Lemma priority_result q intent r calls :
  retrieve_with_priority collection q intent = (Some r, calls) ->
  exists pool, r = unzip3 (take 5 (sort_by_distance pool)) /\ Forall Q pool.
Proof.
  intros (res & c1 & c2 & Hq & [= <- _] & _)%bind_Some.
  apply do_query_Some, store_Q in Hq.
  rewrite rerank_query. eexists. split; [done|].
  apply Forall_fmap. eapply Forall_impl; [exact Hq|]. intros. by apply boost_Q.
Qed.

(** What the two-stage path returns: the first five of a sorted pool of
    candidates with different keys, then location chunks, each new in its
    first 100 characters. *)
Lemma two_stage_result q intent unit_names unit_ids r calls :
  two_stage collection listing q intent unit_names unit_ids = (Some r, calls) ->
  exists pool appended,
    r = unzip3 (take 5 (sort_by_distance pool) ++ appended)
    /\ NoDup (doc_id <$> pool)
    /\ Forall Q pool
    /\ Forall (fun x => is_location x /\ Q x) appended
    /\ fresh (prefix_of <$> take 5 (sort_by_distance pool)) (prefix_of <$> appended).
Proof.
  unfold two_stage.
  intros (s2 & c1 & c2 & (l & -> & Hnd & Hall)%stage2_result & Happ & _)%bind_Some.
  rewrite rerank_query in Happ. unfold candidates in Happ.
  rewrite unzip3_zip3 in Happ.
  apply append_result in Happ as (appended & -> & Happended & Hfresh).
  exists (boost intent <$> l), appended. repeat split; try done.
  - rewrite <- list_fmap_compose.
    erewrite list_fmap_ext; [exact Hnd|]. by intros.
  - apply Forall_fmap. eapply Forall_impl; [exact Hall|]. intros. by apply boost_Q.
  - by destruct Hfresh.
  - by destruct Hfresh.
Qed.

Lemma retrieve_cases q use_two_stage r calls :
  retrieve collection listing q use_two_stage = (Some r, calls) ->
  (exists c, retrieve_with_priority collection q (_get_query_intent q) = (Some r, c))
  \/ (use_two_stage = true
      /\ exists stage1 c,
           query collection q 5 None = Some stage1
           /\ ~ ((resolve_units listing stage1).1 = ∅
                 /\ (resolve_units listing stage1).2 = ∅)
           /\ two_stage collection listing q (_get_query_intent q)
                (resolve_units listing stage1).1 (resolve_units listing stage1).2
              = (Some r, c)).
Proof.
  unfold retrieve. destruct use_two_stage; cbn [negb]; [|eauto].
  intros (stage1 & c1 & c2 & Hq & Hrest & _)%bind_Some.
  apply do_query_Some in Hq.
  destruct (resolve_units listing stage1) as [unit_names unit_ids] eqn:Eu.
  simpl. repeat case_bool_decide; simpl in Hrest; eauto.
  - right. split; [done|]. exists stage1, c2. rewrite Eu. simpl.
    split; [done|]. split; [|done]. by intros [].
  - right. split; [done|]. exists stage1, c2. rewrite Eu. simpl.
    split; [done|]. split; [|done]. by intros [].
  - right. split; [done|]. exists stage1, c2. rewrite Eu. simpl.
    split; [done|]. split; [|done]. by intros [].
Qed.

End Facts.
End RetrieveFacts.

Module RetrieveMore.
Import Py RagEngine Reference RerankFacts EngFacts RetrieveFacts.

Section More.
Context {D : Type} `{Dist D}.
Variable collection : Collection D.
Variable listing : gset str -> list str.

(** *** The path through Stage 2 *)

Lemma retrieve_two_stage q stage1 r calls :
  query collection q 5 None = Some stage1 ->
  ~ ((resolve_units listing stage1).1 = ∅ /\ (resolve_units listing stage1).2 = ∅) ->
  retrieve collection listing q true = (Some r, calls) ->
  exists c,
    two_stage collection listing q (_get_query_intent q)
      (resolve_units listing stage1).1 (resolve_units listing stage1).2
    = (Some r, c).
Proof.
  intros Hq Hunits. unfold retrieve. cbn [negb].
  unfold retrieve_stage1, do_query. rewrite Hq.
  intros (s1 & c1 & c2 & [= <- _] & Hrest & _)%bind_Some.
  destruct (resolve_units listing stage1) as [unit_names unit_ids].
  simpl in *. repeat case_bool_decide; simpl in Hrest; eauto.
  destruct Hunits. done.
Qed.

Lemma two_stage_covers q intent unit_names unit_ids r calls u lr x :
  two_stage collection listing q intent unit_names unit_ids = (Some r, calls) ->
  u ∈ listing unit_ids ->
  query collection u 2 (location_where u) = Some lr ->
  x ∈ candidates lr -> is_location x ->
  prefix_of x ∈ take 100 <$> documents r.
Proof.
  assert (HQ : forall q n w r,
    query collection q n w = Some r ->
    Forall (fun _ : str * Meta * D => True) (candidates r)).
  { intros. by apply Forall_forall. }
  unfold two_stage.
  intros (s2 & c1 & c2 & Hs2 & Happ & _)%bind_Some.
  apply (stage2_result _ _ HQ) in Hs2 as (l & -> & _); [|done].
  rewrite rerank_query in Happ. unfold candidates in Happ.
  rewrite unzip3_zip3 in Happ. intros Hu Hq Hx Hloc.
  eapply (append_covers _ _ HQ); try done.
Qed.

(** *** Totality over a store that does not raise *)

Hypothesis store_total : forall q n w, is_Some (query collection q n w).

Lemma do_query_total q n w : is_Some (do_query collection q n w).1.
Proof. apply store_total. Qed.

Lemma bind_total {A B} (m : Eng A) (f : A -> Eng B) :
  is_Some m.1 -> (forall a, is_Some (f a).1) -> is_Some (m ≫= f).1.
Proof.
  destruct m as [[a|] c1]; simpl; intros [? Hm] Hf; [|done].
  unfold mbind, eng_bind. specialize (Hf a). by destruct (f a).
Qed.

Lemma try_except_total {A} (m handler : Eng A) :
  is_Some handler.1 -> is_Some (try_except m handler).1.
Proof.
  destruct m as [[a|] c1], handler as [r c2]; simpl; eauto.
Qed.

Lemma mret_total {A} (a : A) : is_Some (mret a : Eng A).1.
Proof. by eexists. Qed.

Lemma retrieve_total q use_two_stage :
  is_Some (retrieve collection listing q use_two_stage).1.
Proof.
  assert (Hprio : forall intent, is_Some (retrieve_with_priority collection q intent).1).
  { intros. apply bind_total; [apply do_query_total|]. intros. apply mret_total. }
  unfold retrieve. destruct use_two_stage; cbn [negb]; [|done].
  apply bind_total; [apply do_query_total|]. intros stage1.
  destruct (resolve_units listing stage1) as [unit_names unit_ids].
  destruct (_ && _); [done|].
  unfold two_stage. apply bind_total.
  - unfold retrieve_stage2. apply bind_total.
    + apply for_each_total. intros.
      apply bind_total; [|intros; apply mret_total].
      apply try_except_total, do_query_total.
    + intros st. apply bind_total; [|intros; apply mret_total].
      destruct (all_docs st), (listing unit_names); try apply mret_total.
      apply (for_each_total (_ :: _)). intros.
      apply bind_total; [apply do_query_total|intros; apply mret_total].
  - intros. unfold _append_location_chunks. apply bind_total.
    + apply for_each_total. intros.
      apply bind_total; [|intros; apply mret_total].
      apply try_except_total, do_query_total.
    + intros st. apply bind_total; [|intros; apply mret_total].
      destruct (listing unit_ids); [|apply mret_total].
      apply for_each_total. intros.
      apply bind_total; [apply do_query_total|intros; apply mret_total].
Qed.

End More.

Section Calls.
Context {D : Type} `{Dist D}.
Variable collection : Collection D.
Variable listing : gset str -> list str.
Hypothesis listing_sound : forall (X : gset str) x, x ∈ listing X -> x ∈ X.

(** *** The filters sent to the store *)

Lemma contains_LF (s : str) : contains [LF] s = false -> LF ∉ s.
Proof.
  induction s as [|c s IH]; [by intros _ ?%elem_of_nil|].
  change (contains [LF] (c :: s)) with (((LF =? c) && true) || contains [LF] s).
  rewrite orb_false_iff, andb_true_r. intros [Hc Hs].
  apply not_elem_of_cons. split; [|by apply IH].
  by apply N.eqb_neq in Hc.
Qed.

Lemma valid_unit_id_spec (u : str) :
  valid_unit_id u = true -> (length u < 50)%nat /\ LF ∉ u.
Proof.
  unfold valid_unit_id. rewrite !andb_true_iff, !negb_true_iff.
  intros [[_ Hlen] Hlf]. split; [by apply Nat.ltb_lt|by apply contains_LF].
Qed.

Lemma resolve_units_valid (stage1 : QueryResult D) u :
  u ∈ (resolve_units listing stage1).2 -> valid_unit_id u = true.
Proof.
  unfold resolve_units.
  match goal with
  | |- _ ∈ (fold_left ?f ?ms (?names0, ?ids0)).2 -> _ =>
    assert (Hgen : forall metas (names ids : gset str),
      (forall v, v ∈ ids -> valid_unit_id v = true) ->
      u ∈ (fold_left f metas (names, ids)).2 -> valid_unit_id u = true)
  end.
  { induction metas as [|meta metas IH]; intros names ids Hids; simpl; [apply Hids|].
    apply IH. destruct (meta !! "unit_id"%string) as [v|]; [|done].
    destruct (valid_unit_id v) eqn:Ev; [|done].
    intros w [->%elem_of_singleton|?]%elem_of_union; eauto. }
  apply Hgen. intros v ?. set_solver.
Qed.

(** A call whose filter names only unit ids that passed the test. *)
Definition well_filtered (call : Call) : Prop :=
  forall conds v,
    call_where call = Some conds -> ("unit_id"%string, v) ∈ conds ->
    valid_unit_id v = true.

Lemma do_query_unfiltered q n : Forall well_filtered (do_query collection q n None).2.
Proof. apply Forall_singleton. intros conds v. done. Qed.

Lemma do_query_by_unit_id q n u :
  valid_unit_id u = true ->
  Forall well_filtered (do_query collection q n (Some [("unit_id"%string, u)])).2.
Proof.
  intros Hu. apply Forall_singleton. intros conds v [= <-].
  by intros [= <-]%list_elem_of_singleton.
Qed.

Lemma do_query_location q n u :
  valid_unit_id u = true ->
  Forall well_filtered (do_query collection q n (location_where u)).2.
Proof.
  intros Hu. apply Forall_singleton. intros conds v [= <-].
  intros [[= <-]|[[=]|[]%elem_of_nil]%elem_of_cons]%elem_of_cons. done.
Qed.

Lemma mret_calls {A} (a : A) : Forall well_filtered (mret a : Eng A).2.
Proof. constructor. Qed.

Lemma retrieve_well_filtered q use_two_stage :
  Forall well_filtered (retrieve collection listing q use_two_stage).2.
Proof.
  assert (Hprio : forall intent,
    Forall well_filtered (retrieve_with_priority collection q intent).2).
  { intros. apply bind_calls; [apply do_query_unfiltered|]. intros. apply mret_calls. }
  unfold retrieve. destruct use_two_stage; cbn [negb]; [|done].
  apply bind_calls; [apply do_query_unfiltered|]. intros stage1 _.
  pose proof (resolve_units_valid stage1) as Hvalid.
  destruct (resolve_units listing stage1) as [unit_names unit_ids]. simpl in Hvalid.
  destruct (_ && _); [done|].
  assert (Hids : forall u, u ∈ listing unit_ids -> valid_unit_id u = true).
  { intros u Hu. by apply Hvalid, listing_sound. }
  unfold two_stage. apply bind_calls.
  - unfold retrieve_stage2. apply bind_calls.
    + apply for_each_calls. intros u st Hu.
      apply bind_calls; [|intros; apply mret_calls].
      apply try_except_calls; [|apply do_query_unfiltered].
      by apply do_query_by_unit_id, Hids.
    + intros st _. apply bind_calls; [|intros; apply mret_calls].
      destruct (all_docs st), (listing unit_names); try apply mret_calls.
      apply (for_each_calls well_filtered (_ :: _)). intros.
      apply bind_calls; [apply do_query_unfiltered|intros; apply mret_calls].
  - intros s2 _. unfold _append_location_chunks. apply bind_calls.
    + apply for_each_calls. intros u st Hu.
      apply bind_calls; [|intros; apply mret_calls].
      apply try_except_calls; [|apply do_query_unfiltered].
      by apply do_query_location, Hids.
    + intros st _. apply bind_calls; [|intros; apply mret_calls].
      destruct (listing unit_ids); [|apply mret_calls].
      apply for_each_calls. intros.
      apply bind_calls; [apply do_query_unfiltered|intros; apply mret_calls].
Qed.

End Calls.

End RetrieveMore.

Module StoreFacts.
Import Py RagEngine Reference RerankFacts EngFacts RetrieveFacts RetrieveMore.

Section Knn.
Context {D : Type} `{Dist D}.
Variable chunks : list Processor.Chunk.
Variable distance : str -> Processor.Chunk -> D.

(** A candidate that is a chunk of the store, text and metadata. *)
Definition from_store (x : str * Meta * D) : Prop :=
  exists c, c ∈ chunks /\ x.1.1 = Processor.text c /\ x.1.2 = Processor.metadata c.

(** A location chunk of the unit [u]. *)
Definition location_for (u : str) (meta : Meta) : Prop :=
  meta !! "type"%string = Some (utf8 "location")
  /\ meta !! "unit_id"%string = Some u.

Definition hits (q : str) (w : Where) : list (str * Meta * D) :=
  map (fun c => (Processor.text c, Processor.metadata c, distance q c))
      (List.filter (fun c => where_holds w (Processor.metadata c)) chunks).

Lemma knn_query q n w :
  query (knn_collection chunks distance) q n w
  = Some (unzip3 (take n (sort_by_distance (hits q w)))).
Proof. done. Qed.

Lemma knn_total q n w : is_Some (query (knn_collection chunks distance) q n w).
Proof. rewrite knn_query. eauto. Qed.

Lemma hits_spec q w x :
  x ∈ hits q w <->
  exists c, c ∈ chunks /\ where_holds w (Processor.metadata c) = true
            /\ x = (Processor.text c, Processor.metadata c, distance q c).
Proof.
  unfold hits. rewrite list_elem_of_In, in_map_iff. split.
  - intros (c & <- & [Hc Hw]%filter_In). exists c.
    by rewrite list_elem_of_In.
  - intros (c & Hc & Hw & ->). exists c. split; [done|].
    apply filter_In. by rewrite <- list_elem_of_In.
Qed.

Lemma knn_from_store q n w r :
  query (knn_collection chunks distance) q n w = Some r ->
  Forall from_store (candidates r).
Proof.
  rewrite knn_query. intros [= <-]. unfold candidates. rewrite unzip3_zip3.
  apply Forall_take. rewrite sort_by_distance_perm.
  apply Forall_forall. intros x (c & Hc & _ & ->)%hits_spec. by exists c.
Qed.

Lemma boost_from_store intent x : from_store x -> from_store (boost intent x).
Proof. done. Qed.

Lemma location_where_holds u meta :
  where_holds (location_where u) meta = true <-> location_for u meta.
Proof.
  unfold location_where, where_holds, location_for. simpl.
  rewrite andb_true_r, andb_true_iff, !bool_decide_eq_true. tauto.
Qed.

(** The filtered query of a unit that has a location chunk answers with
    a location chunk of that unit first. *)
Lemma knn_location_first u n c0 :
  c0 ∈ chunks -> location_for u (Processor.metadata c0) ->
  exists x rest,
    candidates (unzip3 (take (S n) (sort_by_distance (hits u (location_where u)))))
      = x :: rest
    /\ from_store x /\ location_for u x.1.2.
Proof.
  intros Hc0 Hloc. unfold candidates. rewrite unzip3_zip3.
  assert (Hin : (Processor.text c0, Processor.metadata c0, distance u c0)
                ∈ hits u (location_where u)).
  { apply hits_spec. exists c0. by rewrite location_where_holds. }
  destruct (sort_by_distance (hits u (location_where u))) as [|x rest] eqn:Es.
  - rewrite <- sort_by_distance_perm, Es in Hin. by apply elem_of_nil in Hin.
  - exists x, (take n rest). split; [done|].
    assert (Hx : x ∈ hits u (location_where u)).
    { rewrite <- sort_by_distance_perm, Es. left. }
    apply hits_spec in Hx as (c & Hc & Hw & ->).
    split; [by exists c|]. by apply location_where_holds.
Qed.

End Knn.
End StoreFacts.

(** ** Part XIII. [EnhancedRAGEngine]: the claims on [retrieve] *)

Module RetrieveClaims.
Import Py RagEngine Reference RerankFacts EngFacts RetrieveFacts RetrieveMore StoreFacts.

(** *** Stores used as examples *)

Definition registrar_office : Processor.Office :=
  {| Processor.building := utf8 "行政大樓";
     Processor.floor := utf8 "1樓";
     Processor.room := utf8 "106";
     Processor.name_zh := utf8 "註冊組";
     Processor.name_en := utf8 "Registrar" |}.

(** The location chunk that the pipeline builds for the Registrar. *)
Definition registrar_location : Processor.Chunk :=
  Processor.location_chunk (utf8 "https://map.ntu.edu.tw/admin") (utf8 "admin")
    registrar_office.

Definition registrar_page (body : string) : Processor.Chunk :=
  {| Processor.text := utf8 body;
     Processor.metadata :=
       <["title" := utf8 "註冊組"]>
       (<["url" := utf8 "https://www.aca.ntu.edu.tw/"]>
       (<["department" := utf8 "aca"]>
       (<["type" := utf8 "general"]>
       (<["unit_name" := utf8 "註冊組"]>
       (<["unit_id" := utf8 "註冊組"]> ∅))))) |}.

(** Five pages of the Registrar and its location chunk. *)
Definition registrar_chunks : list Processor.Chunk :=
  [registrar_page "休學一"; registrar_page "休學二"; registrar_page "休學三";
   registrar_page "休學四"; registrar_page "休學五"; registrar_location].

(** Distances to the query text ["註冊組"] (the location chunk is the
    nearest) and to any other query text (the pages are nearer, in their
    order). *)
Definition registrar_distance (q : str) (c : Processor.Chunk) : Q :=
  let is_loc := bool_decide (Processor.metadata c !! "type"%string
                             = Some (utf8 "location")) in
  if str_eqb q (utf8 "註冊組") then (if is_loc then 5 # 100 else 80 # 100)%Q
  else if is_loc then (90 # 100)%Q
  else if str_eqb (Processor.text c) (utf8 "休學一") then (1 # 10)%Q
  else if str_eqb (Processor.text c) (utf8 "休學二") then (2 # 10)%Q
  else if str_eqb (Processor.text c) (utf8 "休學三") then (3 # 10)%Q
  else if str_eqb (Processor.text c) (utf8 "休學四") then (4 # 10)%Q
  else (5 # 10)%Q.

(** A notice stored twice. *)
Definition notice : Processor.Chunk :=
  {| Processor.text := utf8 "開放時間：週一至週五 8:00-22:00";
     Processor.metadata :=
       <["title" := utf8 "開放時間"]>
       (<["url" := utf8 "https://www.lib.ntu.edu.tw/hours"]>
       (<["type" := utf8 "general"]> ∅)) |}.

(** The Registrar's location chunk behind a chunk of the same text, url and
    title that is typed [general] and was indexed first. *)
Definition shadowed_chunks : list Processor.Chunk :=
  [{| Processor.text := Processor.text registrar_location;
      Processor.metadata :=
        <["type" := utf8 "general"]> (Processor.metadata registrar_location) |};
   registrar_location].

Definition half (q : str) (c : Processor.Chunk) : Q := (1 # 2)%Q.

(** The (url, title, first 80 characters) fingerprint of an entry. *)
Definition fingerprint {D} (x : str * Meta * D) : option str * option str * str :=
  (x.1.2 !! "url"%string, x.1.2 !! "title"%string, take 80 x.1.1).

Lemma NoDup_fingerprint {D} (l : list (str * Meta * D)) :
  NoDup (doc_id <$> l) -> NoDup (fingerprint <$> l).
Proof.
  intros Hnd.
  apply (NoDup_fmap_1
    (fun f : option str * option str * str =>
       default [] f.1.1 ++ utf8 "_" ++ default [] f.1.2 ++ utf8 "_" ++ f.2)).
  by rewrite <- list_fmap_compose.
Qed.

(** *** C9 *)

(** A page whose metadata holds [unit_id], as a corrupted index has
    them. *)
Definition page_of_unit (unit_id : str) : Processor.Chunk :=
  {| Processor.text := utf8 "休學申請";
     Processor.metadata :=
       <["title" := utf8 "休學"]>
       (<["url" := utf8 "https://www.aca.ntu.edu.tw/"]>
       (<["type" := utf8 "service"]>
       (<["unit_id" := unit_id]> ∅))) |}.

(** A unit id with a line feed in it, and one with a carriage return. *)
Definition unit_id_LF : str := utf8 "註冊組
電話".
Definition unit_id_CR : str := utf8 "註冊組" ++ [0xD] ++ utf8 "電話".

(** The line-break characters, in the words of the specification: the
    line boundaries of [str.splitlines]. *)
Definition line_breaks : list char :=
  [0xA; 0xB; 0xC; 0xD; 0x1C; 0x1D; 0x1E; 0x85; 0x2028; 0x2029].

(** A store with a page of the corrupted unit. *)
Definition store_CR : Collection Q := knn_collection [page_of_unit unit_id_CR] half.

(** A store with a page of the corrupted unit and a page of a sound
    one. *)
Definition store_LF : Collection Q :=
  knn_collection [page_of_unit unit_id_LF; page_of_unit (utf8 "註冊組")] half.

(** C9, as stated, fails on the line breaks other than the line feed: the
    code tests for ['\n'] only. A unit id with a carriage return in it is
    read from the Stage-1 metadata and is sent to the store in the filter
    of the Stage-2 query (10 results) and in the filter of the
    augmentation query (2 results). *)
Lemma malformed_unit_id_cr_counterexample :
  (0xD ∈ line_breaks /\ 0xD ∈ unit_id_CR)
  /\ (exists stage1 meta,
        query store_CR (utf8 "休學") 5 None = Some stage1
        /\ meta ∈ metadatas stage1
        /\ meta !! "unit_id"%string = Some unit_id_CR)
  /\ (exists call,
        call ∈ (retrieve store_CR listing_elements (utf8 "休學") true).2
        /\ call_n call = 10%nat
        /\ call_where call = Some [("unit_id"%string, unit_id_CR)])
  /\ (exists call,
        call ∈ (retrieve store_CR listing_elements (utf8 "休學") true).2
        /\ call_n call = 2%nat
        /\ call_where call
           = Some [("unit_id"%string, unit_id_CR); ("type"%string, utf8 "location")]).
Proof.
  assert (Hcalls : (retrieve store_CR listing_elements (utf8 "休學") true).2
    = [{| call_text := utf8 "休學"; call_n := 5; call_where := None |};
       {| call_text := utf8 "休學"; call_n := 10;
          call_where := Some [("unit_id"%string, unit_id_CR)] |};
       {| call_text := unit_id_CR; call_n := 2;
          call_where := Some [("unit_id"%string, unit_id_CR);
                              ("type"%string, utf8 "location")] |}])
    by (vm_compute; reflexivity).
  split; [|split; [|split]].
  - split; apply (bool_decide_unpack _); vm_compute; exact I.
  - eexists _, (Processor.metadata (page_of_unit unit_id_CR)).
    split; [vm_compute; reflexivity|]. split; [left|]. vm_compute. reflexivity.
  - eexists. rewrite Hcalls. split; [right; left|]. split; reflexivity.
  - eexists. rewrite Hcalls. split; [right; right; left|]. split; reflexivity.
Qed.

(** C9, amended. A [unit_id] of 50 characters or more (so, one longer
    than 50), or one that contains a line feed, is not among the unit ids
    that [retrieve] resolves, and no query that [retrieve] sends to the
    store, in Stage 2 or in augmentation, filters on it. *)
Theorem malformed_unit_id_never_queried {D : Type} `{Dist D}
    (collection : Collection D) (listing : gset str -> list str)
    (q unit_id : str) (use_two_stage : bool) :
  (forall (X : gset str) x, x ∈ listing X -> x ∈ X) ->
  (50 <= length unit_id)%nat \/ LF ∈ unit_id ->
  (forall stage1 : QueryResult D, unit_id ∉ (resolve_units listing stage1).2)
  /\ (forall call conds,
        call ∈ (retrieve collection listing q use_two_stage).2 ->
        call_where call = Some conds ->
        ("unit_id"%string, unit_id) ∉ conds).
Proof.
  intros Hlisting Hbad.
  assert (Hinvalid : valid_unit_id unit_id = true -> False).
  { intros [Hlen Hlf]%valid_unit_id_spec. destruct Hbad; [lia|done]. }
  split.
  - intros stage1 Hin. by apply resolve_units_valid in Hin.
  - intros call conds Hcall Hwhere Hin.
    pose proof (retrieve_well_filtered collection listing Hlisting q use_two_stage)
      as Hall.
    rewrite Forall_forall in Hall. apply Hinvalid.
    by eapply (Hall call Hcall).
Qed.

Lemma listing_elements_sound (X : gset str) x : x ∈ listing_elements X -> x ∈ X.
Proof. apply elem_of_elements. Qed.

Lemma listing_elements_complete (X : gset str) x : x ∈ X -> x ∈ listing_elements X.
Proof. apply elem_of_elements. Qed.

(** The Stage-1 answer of [store_LF] holds the unit id with the line feed
    beside a sound one; the queries of the retrieval filter on the sound
    one only. *)
Lemma malformed_unit_id_never_queried_witness :
  (exists stage1 meta,
     query store_LF (utf8 "休學") 5 None = Some stage1
     /\ meta ∈ metadatas stage1
     /\ meta !! "unit_id"%string = Some unit_id_LF)
  /\ (forall stage1 : QueryResult Q,
        unit_id_LF ∉ (resolve_units listing_elements stage1).2)
  /\ (forall call conds,
        call ∈ (retrieve store_LF listing_elements (utf8 "休學") true).2 ->
        call_where call = Some conds ->
        ("unit_id"%string, unit_id_LF) ∉ conds).
Proof.
  split.
  - eexists _, (Processor.metadata (page_of_unit unit_id_LF)).
    split; [vm_compute; reflexivity|]. split; [left|]. vm_compute. reflexivity.
  - apply malformed_unit_id_never_queried.
    + apply listing_elements_sound.
    + right. apply (bool_decide_unpack _). vm_compute. exact I.
Defined.

(** The queries of that retrieval: the filters hold the sound unit id. *)
Lemma store_LF_queries :
  (retrieve store_LF listing_elements (utf8 "休學") true).2
  = [{| call_text := utf8 "休學"; call_n := 5; call_where := None |};
     {| call_text := utf8 "休學"; call_n := 10;
        call_where := Some [("unit_id"%string, utf8 "註冊組")] |};
     {| call_text := utf8 "註冊組"; call_n := 2;
        call_where := Some [("unit_id"%string, utf8 "註冊組");
                            ("type"%string, utf8 "location")] |}].
Proof. vm_compute. reflexivity. Qed.

(** *** C3 *)

(** C3, as stated, fails where [retrieve] does not go through Stage 2: a
    notice that the store holds twice comes back twice. *)
Lemma retrieve_duplicate_counterexample :
  exists r : QueryResult Q,
    (retrieve (knn_collection [notice; notice] half) listing_elements
       (utf8 "開放時間") true).1 = Some r
    /\ ~ NoDup (fingerprint <$> candidates r).
Proof.
  eexists. split; [vm_compute; reflexivity|].
  intros Hnd. vm_compute in Hnd.
  apply NoDup_cons in Hnd as [Hnot _]. apply Hnot. left.
Qed.

(** C3, amended. When [retrieve] goes through Stage 2 (some unit name or
    unit id was resolved), its result is at most five reranked entries
    with pairwise different (url, title, first 80 characters)
    fingerprints, followed by the appended location chunks, each of which
    differs from every other entry in the first 100 characters of its
    text. *)
Theorem retrieve_two_stage_dedup {D : Type} `{Dist D}
    (collection : Collection D) (listing : gset str -> list str)
    (q : str) (stage1 r : QueryResult D) :
  query collection q 5 None = Some stage1 ->
  ~ ((resolve_units listing stage1).1 = ∅ /\ (resolve_units listing stage1).2 = ∅) ->
  (retrieve collection listing q true).1 = Some r ->
  exists ranked appended : list (str * Meta * D),
    candidates r = ranked ++ appended
    /\ (length ranked <= 5)%nat
    /\ NoDup (fingerprint <$> ranked)
    /\ Forall is_location appended
    /\ NoDup (prefix_of <$> appended)
    /\ (forall x y, x ∈ ranked -> y ∈ appended -> take 100 x.1.1 <> take 100 y.1.1).
Proof.
  intros Hq Hunits Hr.
  destruct (retrieve collection listing q true) as [o calls] eqn:E.
  simpl in Hr. subst o.
  apply (retrieve_two_stage _ _ _ _ _ _ Hq Hunits) in E as [c E].
  apply (two_stage_result _ _ (fun _ => True)) in E
    as (pool & appended & -> & Hnd & _ & Happ & Hfresh & Hbase).
  - exists (take 5 (sort_by_distance pool)), appended.
    unfold candidates. rewrite unzip3_zip3. repeat split; try done.
    + rewrite length_take. lia.
    + apply NoDup_fingerprint. by apply NoDup_take_sorted.
    + eapply Forall_impl; [exact Happ|]. by intros ? [].
    + intros x y Hx Hy Heq. apply (Hbase (prefix_of y)).
      * by apply list_elem_of_fmap_2.
      * unfold prefix_of at 1. rewrite <- Heq. by apply (list_elem_of_fmap_2 prefix_of).
  - intros. by apply Forall_forall.
  - done.
Qed.

Lemma registrar_resolved :
  exists stage1 : QueryResult Q,
    query (knn_collection registrar_chunks registrar_distance) (utf8 "休學") 5 None
      = Some stage1
    /\ utf8 "註冊組" ∈ (resolve_units listing_elements stage1).2.
Proof.
  eexists. split; [vm_compute; reflexivity|].
  apply (bool_decide_unpack _). vm_compute. exact I.
Qed.

Lemma retrieve_two_stage_dedup_witness :
  exists r : QueryResult Q,
    (retrieve (knn_collection registrar_chunks registrar_distance)
       listing_elements (utf8 "休學") true).1 = Some r
    /\ exists ranked appended : list (str * Meta * Q),
         candidates r = ranked ++ appended
         /\ (length ranked <= 5)%nat
         /\ NoDup (fingerprint <$> ranked)
         /\ Forall is_location appended
         /\ NoDup (prefix_of <$> appended)
         /\ (forall x y, x ∈ ranked -> y ∈ appended ->
               take 100 x.1.1 <> take 100 y.1.1).
Proof.
  destruct registrar_resolved as (stage1 & Hq & Hu).
  destruct (retrieve_total (knn_collection registrar_chunks registrar_distance)
              listing_elements (knn_total _ _) (utf8 "休學") true) as [r Hr].
  exists r. split; [exact Hr|].
  apply (retrieve_two_stage_dedup
           (knn_collection registrar_chunks registrar_distance)
           listing_elements (utf8 "休學") stage1 r Hq); [|exact Hr].
  intros [_ Hids]. rewrite Hids in Hu. by apply not_elem_of_empty in Hu.
Defined.

(** *** C4 *)

Lemma apply_type_boost_cases {D : Type} `{Dist D} (meta : Meta) (dist : D) intent :
  _apply_type_boost meta dist intent = dist
  \/ exists discount, _apply_type_boost meta dist intent = max0 (dsub dist discount).
Proof.
  unfold _apply_type_boost. repeat destruct (_ && _); eauto.
Qed.

Lemma boost_nonneg {D : Type} `{DistOrder D} intent (x : str * Meta * D) :
  dle dzero x.2 -> dle dzero (boost intent x).2.
Proof.
  intros Hx. unfold boost. simpl.
  destruct (apply_type_boost_cases x.1.2 x.2 intent) as [->|[discount ->]];
    [done|apply max0_nonneg].
Qed.

Lemma candidates_distances {D : Type} (P : D -> Prop) (r : QueryResult D) :
  Forall P (distances r) -> Forall (fun x : str * Meta * D => P x.2) (candidates r).
Proof.
  intros Hall. apply Forall_forall. intros [[d m] x] Hin.
  unfold candidates, zip3 in Hin. apply elem_of_zip_r in Hin.
  rewrite Forall_forall in Hall. by apply Hall.
Qed.

(** C4, as stated, fails on the two-stage path: the location chunks are
    appended after the reranked entries with the distances of their own
    query. Here the fifth entry is at 0.5 and the appended location chunk
    at 0.05. *)
Lemma retrieve_unsorted_counterexample :
  exists r : QueryResult Q,
    (retrieve (knn_collection registrar_chunks registrar_distance)
       listing_elements (utf8 "休學") true).1 = Some r
    /\ distances r !! 4%nat = Some (5 # 10)%Q
    /\ distances r !! 5%nat = Some (5 # 100)%Q
    /\ ~ dle (5 # 10)%Q (5 # 100)%Q.
Proof.
  eexists. split; [vm_compute; reflexivity|].
  repeat split; try (vm_compute; reflexivity). vm_compute. discriminate.
Qed.

(** C4, amended. A result of [retrieve] has three lists of one length;
    its distances are non-negative when those of the store are; and it is
    made of at most five reranked entries in ascending order of
    distance, followed by the location chunks that augmentation appended,
    of which there are none on the single-stage path. *)
Theorem retrieve_result_shape {D : Type} `{DistOrder D}
    (collection : Collection D) (listing : gset str -> list str)
    (q : str) (use_two_stage : bool) (r : QueryResult D) :
  (retrieve collection listing q use_two_stage).1 = Some r ->
  length (documents r) = length (metadatas r)
  /\ length (metadatas r) = length (distances r)
  /\ ((forall q' n w res,
         query collection q' n w = Some res -> Forall (dle dzero) (distances res)) ->
      Forall (dle dzero) (distances r))
  /\ exists ranked appended : list (str * Meta * D),
       candidates r = ranked ++ appended
       /\ (length ranked <= 5)%nat
       /\ StronglySorted by_distance ranked
       /\ Forall is_location appended
       /\ (use_two_stage = false -> appended = []).
Proof.
  intros Hr.
  destruct (retrieve collection listing q use_two_stage) as [o calls] eqn:E.
  simpl in Hr. subst o.
  assert (Hshape : forall Q : str * Meta * D -> Prop,
    (forall q' n w res, query collection q' n w = Some res -> Forall Q (candidates res)) ->
    (forall intent x, Q x -> Q (boost intent x)) ->
    exists pool appended,
      r = unzip3 (take 5 (sort_by_distance pool) ++ appended)
      /\ Forall Q (take 5 (sort_by_distance pool) ++ appended)
      /\ Forall is_location appended
      /\ (use_two_stage = false -> appended = [])).
  { intros Q HQ HboostQ.
    apply retrieve_cases in E as [[c E]|(-> & stage1 & c & _ & _ & E)];
      pose proof E as E'; clear E.
    - apply (priority_result _ Q HQ HboostQ) in E' as (pool & Heq & Hall).
      exists pool, []. rewrite app_nil_r. repeat split; try done.
      by apply Forall_take_sorted.
    - apply (two_stage_result _ _ Q HQ HboostQ) in E'
        as (pool & appended & Heq & _ & Hall & Happ & _).
      exists pool, appended. repeat split; try done.
      + apply Forall_app. split; [by apply Forall_take_sorted|].
        eapply Forall_impl; [exact Happ|]. by intros ? [].
      + eapply Forall_impl; [exact Happ|]. by intros ? []. }
  destruct (Hshape (fun _ => True)) as (pool & appended & Hrpool & _ & Hloc & Hsingle).
  { intros. by apply Forall_forall. }
  { done. }
  split; [|split; [|split]].
  - rewrite Hrpool. simpl. by rewrite !length_map.
  - rewrite Hrpool. simpl. by rewrite !length_map.
  - intros Hstore.
    destruct (Hshape (fun x => dle dzero x.2)) as (pool' & appended' & Heq & Hall & _).
    { intros. apply candidates_distances. by eapply Hstore. }
    { intros. by apply boost_nonneg. }
    rewrite Heq. simpl. apply Forall_fmap. exact Hall.
  - exists (take 5 (sort_by_distance pool)), appended. rewrite Hrpool.
    unfold candidates. rewrite unzip3_zip3. repeat split; try done.
    + rewrite length_take. lia.
    + apply StronglySorted_take, sort_by_distance_sorted.
Qed.

Lemma retrieve_result_shape_witness :
  exists r : QueryResult Q,
    (retrieve (knn_collection registrar_chunks registrar_distance)
       listing_elements (utf8 "休學") true).1 = Some r
    /\ length (documents r) = length (metadatas r)
    /\ length (metadatas r) = length (distances r)
    /\ ((forall q' n w res,
           query (knn_collection registrar_chunks registrar_distance) q' n w = Some res ->
           Forall (dle dzero) (distances res)) ->
        Forall (dle dzero) (distances r))
    /\ exists ranked appended : list (str * Meta * Q),
         candidates r = ranked ++ appended
         /\ (length ranked <= 5)%nat
         /\ StronglySorted by_distance ranked
         /\ Forall is_location appended
         /\ (true = false -> appended = []).
Proof.
  destruct (retrieve_total (knn_collection registrar_chunks registrar_distance)
              listing_elements (knn_total _ _) (utf8 "休學") true) as [r Hr].
  exists r. split; [exact Hr|].
  exact (retrieve_result_shape (D := Q)
           (knn_collection registrar_chunks registrar_distance)
           listing_elements (utf8 "休學") true r Hr).
Defined.

(** *** C2 *)

(** C2, as stated, fails when another entry already has the first 100
    characters of the location chunk: Stage 2 keeps the chunk typed
    [general] (same url, title and text), and augmentation skips the
    location chunk as already present. *)
Lemma location_coverage_counterexample :
  exists stage1 r : QueryResult Q,
    query (knn_collection shadowed_chunks half) (utf8 "註冊組在哪裡") 5 None
      = Some stage1
    /\ utf8 "註冊組" ∈ (resolve_units listing_elements stage1).2
    /\ registrar_location ∈ shadowed_chunks
    /\ location_for (utf8 "註冊組") (Processor.metadata registrar_location)
    /\ (retrieve (knn_collection shadowed_chunks half) listing_elements
          (utf8 "註冊組在哪裡") true).1 = Some r
    /\ forall x, x ∈ candidates r ->
         x.1.2 !! "type"%string <> Some (utf8 "location").
Proof.
  eexists _, _. split; [vm_compute; reflexivity|].
  split; [apply (bool_decide_unpack _); vm_compute; exact I|].
  split; [right; left|].
  split; [split; vm_compute; reflexivity|].
  split; [vm_compute; reflexivity|].
  intros x Hx. vm_compute in Hx.
  apply list_elem_of_singleton in Hx as ->. vm_compute. discriminate.
Qed.

(** C2, amended. Over a store that answers every query with the nearest
    chunks that pass the filter: when [retrieve] resolves a unit id [u]
    from the Stage-1 result, the store holds a location chunk of [u], and
    no chunk of the store has the first 100 characters of a location
    chunk of [u] without being one itself, the result of [retrieve]
    holds a location chunk of [u]. *)
Theorem location_coverage {D : Type} `{Dist D}
    (chunks : list Processor.Chunk) (distance : str -> Processor.Chunk -> D)
    (listing : gset str -> list str) (q u : str) (stage1 : QueryResult D)
    (c0 : Processor.Chunk) :
  (forall (X : gset str) x, x ∈ X -> x ∈ listing X) ->
  query (knn_collection chunks distance) q 5 None = Some stage1 ->
  u ∈ (resolve_units listing stage1).2 ->
  c0 ∈ chunks ->
  location_for u (Processor.metadata c0) ->
  (forall c c', c ∈ chunks -> c' ∈ chunks ->
     take 100 (Processor.text c) = take 100 (Processor.text c') ->
     location_for u (Processor.metadata c) ->
     location_for u (Processor.metadata c')) ->
  exists r,
    (retrieve (knn_collection chunks distance) listing q true).1 = Some r
    /\ exists x, x ∈ candidates r /\ location_for u x.1.2.
Proof.
  intros Hlisting Hq Hu Hc0 Hloc0 Hprefix.
  set (collection := knn_collection chunks distance) in *.
  destruct (retrieve_total collection listing (knn_total _ _) q true) as [r Hr].
  exists r. split; [exact Hr|].
  destruct (retrieve collection listing q true) as [o calls] eqn:E.
  simpl in Hr. subst o.
  apply (retrieve_two_stage _ _ _ stage1) in E as [c E]; [|done|].
  2:{ intros [_ Hids]. rewrite Hids in Hu. by apply not_elem_of_empty in Hu. }
  destruct (knn_location_first chunks distance u 1 c0 Hc0 Hloc0)
    as (x & rest & Hfirst & (cx & Hcx & Hxt & Hxm) & Hxloc).
  assert (Hcov : prefix_of x ∈ take 100 <$> documents r).
  { eapply (two_stage_covers collection listing); [exact E|by apply Hlisting| |..].
    - apply knn_query.
    - rewrite Hfirst. left.
    - by destruct Hxloc. }
  apply (two_stage_result _ _ (from_store chunks)) in E
    as (pool & appended & -> & _ & Hpool & Happ & _).
  2:{ intros. by eapply knn_from_store. }
  2:{ intros. by apply boost_from_store. }
  simpl in Hcov. rewrite <- list_fmap_compose in Hcov.
  apply list_elem_of_fmap in Hcov as (y & Hy & Hin).
  assert (Hfrom : from_store chunks y).
  { apply elem_of_app in Hin as [Hin|Hin].
    - pose proof (Forall_take_sorted (from_store chunks) pool 5 Hpool) as Hall.
      rewrite Forall_forall in Hall. by apply Hall.
    - rewrite Forall_forall in Happ. by apply Happ in Hin as [_ ?]. }
  destruct Hfrom as (cy & Hcy & Hyt & Hym).
  exists y. split.
  - unfold candidates. by rewrite unzip3_zip3.
  - rewrite Hym. apply (Hprefix cx cy Hcx Hcy).
    + unfold prefix_of in Hy. simpl in Hy. by rewrite <- Hxt, <- Hyt.
    + by rewrite <- Hxm.
Qed.

Lemma location_coverage_witness :
  exists r : QueryResult Q,
    (retrieve (knn_collection registrar_chunks registrar_distance)
       listing_elements (utf8 "休學") true).1 = Some r
    /\ exists x, x ∈ candidates r /\ location_for (utf8 "註冊組") x.1.2.
Proof.
  destruct registrar_resolved as (stage1 & Hq & Hu).
  apply (location_coverage registrar_chunks registrar_distance listing_elements
           (utf8 "休學") (utf8 "註冊組") stage1 registrar_location).
  - apply listing_elements_complete.
  - exact Hq.
  - exact Hu.
  - do 5 right. left.
  - split; vm_compute; reflexivity.
  - intros c c' Hc Hc' Hpre Hloc.
    apply list_elem_of_In in Hc, Hc'. unfold registrar_chunks in Hc, Hc'.
    cbn [In] in Hc, Hc'.
    destruct Hc as [<-|[<-|[<-|[<-|[<-|[<-|[]]]]]]];
      try (destruct Hloc as [Ht _]; vm_compute in Ht; discriminate).
    destruct Hc' as [<-|[<-|[<-|[<-|[<-|[<-|[]]]]]]];
      try (vm_compute in Hpre; discriminate).
    exact Hloc.
Defined.

End RetrieveClaims.

(** ** Part XIV. Further properties of the Python primitives *)

Module StrFacts.
Import Py.

Lemma startswith_spec (p s : str) :
  startswith p s = true <-> exists rest, s = p ++ rest.
Proof.
  revert s. induction p as [|a p IH]; intros s; simpl.
  - split; [eauto|done].
  - destruct s as [|b s]; [split; [done|by intros [? ?]]|].
    rewrite andb_true_iff, IH, N.eqb_eq. split.
    + intros [-> [rest ->]]. eauto.
    + intros [rest [= -> ->]]. eauto.
Qed.

Lemma startswith_app (p s t : str) :
  startswith p s = true -> startswith p (s ++ t) = true.
Proof.
  rewrite !startswith_spec. intros [rest ->]. exists (rest ++ t).
  by rewrite app_assoc.
Qed.

Lemma contains_spec (sub s : str) :
  contains sub s = true <-> exists pre post, s = pre ++ sub ++ post.
Proof.
  induction s as [|c s IH]; simpl.
  - rewrite orb_false_r, startswith_spec. split.
    + intros [rest ->]. by exists [], rest.
    + intros (pre & post & Heq). symmetry in Heq.
      apply app_eq_nil in Heq as [-> Heq]. eauto.
  - rewrite orb_true_iff, startswith_spec, IH. split.
    + intros [[rest ->]|(pre & post & ->)]; [by exists [], rest|].
      by exists (c :: pre), post.
    + intros ([|c' pre] & post & Heq); simpl in Heq; [left; eauto|].
      injection Heq as <- ->. right. eauto.
Qed.

Lemma contains_infix (sub a s b : str) :
  contains sub s = true -> contains sub (a ++ s ++ b) = true.
Proof.
  rewrite !contains_spec. intros (pre & post & ->).
  exists (a ++ pre), (post ++ b). by rewrite <- !app_assoc.
Qed.

Lemma contains_elem (sub s : str) c :
  contains sub s = true -> c ∈ sub -> c ∈ s.
Proof.
  rewrite contains_spec. intros (pre & post & ->) Hc.
  rewrite !elem_of_app. auto.
Qed.

(** *** [strip] *)

Lemma drop_while_suffix p (s : str) : exists a, s = a ++ drop_while p s.
Proof.
  induction s as [|c s [a IH]]; simpl; [by exists []|].
  destruct (p c); [|by exists []]. exists (c :: a). simpl. by rewrite <- IH.
Qed.

Lemma strip_infix (s : str) : exists a b, s = a ++ strip s ++ b.
Proof.
  unfold strip, rstrip, lstrip.
  destruct (drop_while_suffix isspace s) as [a Ha].
  destruct (drop_while_suffix isspace (rev (drop_while isspace s))) as [b Hb].
  exists a, (rev b). rewrite Ha at 1. f_equal.
  rewrite <- rev_app_distr, <- Hb. by rewrite rev_involutive.
Qed.

Lemma strip_elem (s : str) c : c ∈ strip s -> c ∈ s.
Proof.
  destruct (strip_infix s) as (a & b & Hs). intros Hc. rewrite Hs.
  rewrite !elem_of_app. auto.
Qed.

Lemma contains_strip (sub s : str) :
  contains sub (strip s) = true -> contains sub s = true.
Proof.
  destruct (strip_infix s) as (a & b & Hs). intros Hc. rewrite Hs.
  by apply contains_infix.
Qed.

Lemma drop_while_all p (s : str) : forallb p s = true -> drop_while p s = [].
Proof.
  induction s as [|c s IH]; simpl; [done|].
  intros [Hc Hs]%andb_true_iff. rewrite Hc. by apply IH.
Qed.

Lemma strip_blank (s : str) : forallb isspace s = true -> strip s = [].
Proof.
  intros Hs. unfold strip, lstrip, rstrip. by rewrite (drop_while_all _ _ Hs).
Qed.

(** *** [split] *)

(** The text before the first occurrence of [sep]. *)
Fixpoint before (sep s : str) : str :=
  match s with
  | [] => []
  | c :: s' => if startswith sep s then [] else c :: before sep s'
  end.

Lemma split_go_head sep cur s :
  hd [] (split_go sep 0 cur s) = rev cur ++ before sep s.
Proof.
  revert cur. induction s as [|c s IH]; intros cur.
  - simpl. by rewrite app_nil_r.
  - cbn [split_go before]. destruct (startswith sep (c :: s)).
    + simpl. by rewrite app_nil_r.
    + rewrite IH. simpl. by rewrite <- app_assoc.
Qed.

Lemma split_head sep s : hd [] (split sep s) = before sep s.
Proof. apply split_go_head. Qed.

Lemma before_prefix sep s : exists rest, s = before sep s ++ rest.
Proof.
  induction s as [|c s [rest IH]]; [by exists []|].
  cbn [before]. destruct (startswith sep (c :: s)); [by exists (c :: s)|].
  exists rest. simpl. by rewrite <- IH.
Qed.

Lemma before_free sep s : sep <> [] -> contains sep (before sep s) = false.
Proof.
  intros Hsep. induction s as [|c s IH].
  - destruct sep; [done|]. done.
  - cbn [before]. destruct (startswith sep (c :: s)) eqn:E.
    + destruct sep; [done|]. done.
    + cbn [contains]. rewrite IH, orb_false_r.
      destruct (startswith sep (c :: before sep s)) eqn:E'; [|done].
      destruct (before_prefix sep s) as [rest Hrest].
      apply (startswith_app _ _ rest) in E'. simpl in E'.
      rewrite <- Hrest in E'. congruence.
Qed.

Lemma before_none sep s : contains sep s = false -> before sep s = s.
Proof.
  induction s as [|c s IH]; [done|].
  cbn [contains before]. intros [-> Hs]%orb_false_iff. by rewrite IH.
Qed.

Lemma before_elem sep s c : c ∈ before sep s -> c ∈ s.
Proof.
  destruct (before_prefix sep s) as [rest Hs]. intros Hc. rewrite Hs.
  apply elem_of_app. by left.
Qed.

Lemma elem_of_rev_1 (l : str) c : c ∈ rev l -> c ∈ l.
Proof. rewrite !list_elem_of_In. apply in_rev. Qed.

Lemma split_go_elem sep skip cur s piece c :
  piece ∈ split_go sep skip cur s -> c ∈ piece -> c ∈ cur \/ c ∈ s.
Proof.
  revert skip cur. induction s as [|x s IH]; intros skip cur.
  - simpl. intros ->%list_elem_of_singleton Hc. left.
    by apply elem_of_rev_1 in Hc.
  - cbn [split_go]. destruct skip as [|k].
    + destruct (startswith sep (x :: s)).
      * intros [->|Hp]%elem_of_cons Hc; [left; by apply elem_of_rev_1 in Hc|].
        destruct (IH _ _ Hp Hc) as [?%elem_of_nil|?]; [done|]. right. by right.
      * intros Hp Hc. destruct (IH _ _ Hp Hc) as [[->|?]%elem_of_cons|?];
          [right; left|by left|right; by right].
    + intros Hp Hc. destruct (IH _ _ Hp Hc); [by left|right; by right].
Qed.

Lemma split_elem sep s piece c : piece ∈ split sep s -> c ∈ piece -> c ∈ s.
Proof.
  intros Hp Hc. destruct (split_go_elem _ _ _ _ _ _ Hp Hc) as [?%elem_of_nil|?]; done.
Qed.

(** *** [replace] *)

Lemma replace_go_elem old new skip s c :
  c ∈ replace_go old new skip s -> c ∈ new \/ c ∈ s.
Proof.
  revert skip. induction s as [|x s IH]; intros skip; cbn [replace_go].
  - by intros ?%elem_of_nil.
  - destruct skip as [|k].
    + destruct (startswith old (x :: s)).
      * intros [?|Hc]%elem_of_app; [by left|].
        destruct (IH _ Hc); [by left|right; by right].
      * intros [->|Hc]%elem_of_cons; [right; left|].
        destruct (IH _ Hc); [by left|right; by right].
    + intros Hc. destruct (IH _ Hc); [by left|right; by right].
Qed.

Lemma replace_elem old new s c : c ∈ replace old new s -> c ∈ new \/ c ∈ s.
Proof. apply replace_go_elem. Qed.

Lemma replace_none old new s : contains old s = false -> replace old new s = s.
Proof.
  unfold replace. induction s as [|c s IH]; [done|].
  cbn [contains replace_go]. intros [-> Hs]%orb_false_iff. by rewrite IH.
Qed.

End StrFacts.

(** ** Part XV. [DataProcessor]: further properties of the cleaning *)

Module CleanFacts.
Import Py Processor StrFacts.

Lemma MARKER_nonempty : MARKER <> [].
Proof. vm_compute. discriminate. Qed.

Lemma cut_marker_free (text : str) : contains MARKER (cut_marker text) = false.
Proof.
  unfold cut_marker. destruct (contains MARKER text) eqn:E; [|done].
  destruct (contains MARKER (strip _)) eqn:E'; [|done].
  apply contains_strip in E'. rewrite split_head in E'.
  by rewrite before_free in E' by apply MARKER_nonempty.
Qed.

Lemma cut_marker_elem (text : str) c : c ∈ cut_marker text -> c ∈ text.
Proof.
  unfold cut_marker. destruct (contains MARKER text); [|done].
  intros Hc%strip_elem. rewrite split_head in Hc. by eapply before_elem.
Qed.

Lemma dept_prefix_elem dept (text : str) c :
  c ∈ dept_prefix dept text -> c ∈ utf8 "Administration" \/ c ∈ text.
Proof.
  unfold dept_prefix. destruct (str_eqb dept _); [|by right].
  rewrite split_head. intros Hc%before_elem. by apply replace_elem in Hc.
Qed.

(** A line without [#] is kept as it is, stripped, or dropped. *)
Lemma clean_line_no_hash line l :
  ch "#" ∉ line -> clean_line line = Some l -> l = strip line /\ l <> [].
Proof.
  intros Hh. unfold clean_line.
  destruct (strip line) as [|c s] eqn:Es; [done|]. cbn [is_empty].
  destruct (existsb _ noise_patterns); [done|].
  destruct (startswith (utf8 "##") (c :: s)) eqn:E.
  - apply startswith_spec in E as [rest E]. exfalso. apply Hh.
    apply strip_elem. rewrite Es, E. left.
  - by intros [= <-].
Qed.

Lemma reformat_total (clean_lines : list str) :
  Forall (fun l => l <> []) clean_lines -> is_Some (reformat clean_lines).
Proof.
  remember (length clean_lines) as n eqn:Hn. revert clean_lines Hn.
  induction n as [n IH] using lt_wf_ind. intros [|line rest] Hn Hall; [by eexists|].
  apply Forall_cons in Hall as [_ Hrest]. simpl in Hn.
  assert (Hsingle : is_Some (cons (format_floor line) <$> reformat rest)).
  { destruct (IH (length rest)) with (clean_lines := rest) as [r Hr]; try done; [lia|].
    rewrite Hr. by eexists. }
  cbn [reformat]. destruct (is_room line); [|done].
  destruct rest as [|next1 [|next2 rest']]; try done.
  apply Forall_cons in Hrest as [Hn1 Hrest]. apply Forall_cons in Hrest as [_ Hrest'].
  destruct next1 as [|c next1]; [done|].
  destruct (negb _); [|done].
  destruct (IH (length rest')) with (clean_lines := rest') as [r Hr]; try done.
  { simpl in Hn. lia. }
  rewrite Hr. by eexists.
Qed.

End CleanFacts.

Module CleanExtras.
Import Py Processor StrFacts CleanFacts.

(** X1. Whatever [clean_text_advanced] returns does not contain the marker
    of an enrichment block. *)
Theorem clean_text_advanced_no_marker (text dept r : str) :
  clean_text_advanced text dept = Some r -> contains MARKER r = false.
Proof.
  unfold clean_text_advanced. destruct (is_empty text); [by intros [= <-]|].
  destruct (reformat _) as [final_lines|]; [|done].
  simpl. intros [= <-]. apply cut_marker_free.
Qed.

Lemma clean_text_advanced_no_marker_witness :
  contains MARKER (utf8 "## 1樓
- 106 註冊組 (Registrar)") = false.
Proof.
  apply (clean_text_advanced_no_marker
           (utf8 "1樓
106
註冊組
Registrar

【系統補充位置資訊】
註冊組位置：行政大樓 1樓 106室") (utf8 "admin")).
  vm_compute. reflexivity.
Defined.

(** X2. On a text without the character [#], [clean_text_advanced] does
    not raise: the [IndexError] of [next1[0]] needs a heading line. *)
Theorem clean_text_advanced_no_hash (text dept : str) :
  ch "#" ∉ text -> is_Some (clean_text_advanced text dept).
Proof.
  intros Hh. unfold clean_text_advanced. destruct (is_empty text); [by eexists|].
  set (lines := split [LF] (dept_prefix dept (cut_marker text))).
  assert (Hlines : forall line, line ∈ lines -> ch "#" ∉ line).
  { intros line Hline Hc. pose proof (split_elem _ _ _ _ Hline Hc) as Hc'.
    apply dept_prefix_elem in Hc' as [Hc'|Hc'].
    - revert Hc'. apply (bool_decide_eq_false_1 _). vm_compute. reflexivity.
    - by apply Hh, cut_marker_elem. }
  destruct (reformat_total (omap clean_line lines)) as [final_lines Hf].
  { apply Forall_forall. intros l (line & Hline & Hl)%list_elem_of_omap.
    by apply clean_line_no_hash in Hl as [_ ?]; [|apply Hlines]. }
  rewrite Hf. simpl. by eexists.
Qed.

Lemma clean_text_advanced_no_hash_witness :
  is_Some (clean_text_advanced (utf8 "1樓
106
註冊組
Registrar") (utf8 "admin")).
Proof.
  apply clean_text_advanced_no_hash.
  apply (bool_decide_eq_false_1 _). vm_compute. reflexivity.
Defined.

Lemma blank_no_word (word text : str) c :
  forallb isspace text = true -> c ∈ word -> isspace c = false ->
  contains word text = false.
Proof.
  intros Hb Hc Hsp. destruct (contains word text) eqn:E; [|done].
  pose proof (contains_elem _ _ _ E Hc) as Hin.
  rewrite forallb_forall in Hb. apply list_elem_of_In, Hb in Hin. congruence.
Qed.

Lemma clean_line_blank line : forallb isspace line = true -> clean_line line = None.
Proof. intros Hb. unfold clean_line. by rewrite strip_blank. Qed.

Lemma omap_all_None {A B} (f : A -> option B) (l : list A) :
  (forall x, x ∈ l -> f x = None) -> omap f l = [].
Proof.
  induction l as [|x l IH]; intros Hall; simpl; [done|].
  rewrite (Hall x) by left. apply IH. intros. apply Hall. by right.
Qed.

(** X3. A text of white space only (blank lines, spaces, tabs) is cleaned
    to the empty string, for every department. *)
Theorem clean_text_advanced_blank (text dept : str) :
  forallb isspace text = true -> clean_text_advanced text dept = Some [].
Proof.
  intros Hb. unfold clean_text_advanced. destruct (is_empty text); [done|].
  assert (Hcut : cut_marker text = text).
  { unfold cut_marker.
    rewrite (blank_no_word MARKER text (ch "【") Hb); [done| |].
    - apply (bool_decide_unpack _). vm_compute. exact I.
    - vm_compute. reflexivity. }
  assert (Hdept : dept_prefix dept text = text).
  { unfold dept_prefix. destruct (str_eqb dept _); [|done].
    rewrite replace_none, split_head, before_none; [done|..].
    - apply (blank_no_word _ text (ch "O") Hb).
      + apply (bool_decide_unpack _). vm_compute. exact I.
      + vm_compute. reflexivity.
    - apply (blank_no_word _ text (ch "A") Hb).
      + apply (bool_decide_unpack _). vm_compute. exact I.
      + vm_compute. reflexivity. }
  rewrite Hcut, Hdept. rewrite omap_all_None.
  - vm_compute. reflexivity.
  - intros line Hline. apply clean_line_blank, forallb_forall.
    intros c Hc%list_elem_of_In. rewrite forallb_forall in Hb.
    apply Hb, list_elem_of_In. by eapply split_elem.
Qed.

Lemma clean_text_advanced_blank_witness :
  clean_text_advanced (utf8 "  
	
 ") (utf8 "admin") = Some [].
Proof. apply clean_text_advanced_blank. vm_compute. reflexivity. Defined.

End CleanExtras.

(** ** Part XVI. Buildings and sorted sets *)

Module MoreFacts.
Import Py PyMore Processor ProcessorMore StrFacts CleanFacts.

(** *** The order of strings and [sorted_set] *)

Definition str_lt (a b : str) : Prop := str_ltb a b = true.

Lemma str_ltb_irrefl a : str_ltb a a = false.
Proof.
  induction a as [|x a IH]; simpl; [done|]. by rewrite N.ltb_irrefl.
Qed.

Lemma str_ltb_trans a b c :
  str_ltb a b = true -> str_ltb b c = true -> str_ltb a c = true.
Proof.
  revert b c. induction a as [|x a IH]; intros [|y b] [|z c]; simpl; try done.
  destruct (N.ltb_spec x y), (N.ltb_spec y x), (N.ltb_spec y z), (N.ltb_spec z y),
    (N.ltb_spec x z), (N.ltb_spec z x); try done; try lia.
  apply IH.
Qed.

Lemma str_ltb_total a b :
  str_ltb a b = false -> str_ltb b a = false -> a = b.
Proof.
  revert b. induction a as [|x a IH]; intros [|y b]; simpl; try done.
  destruct (N.ltb_spec x y), (N.ltb_spec y x); try done.
  intros Ha Hb. assert (x = y) as -> by lia. f_equal. by apply IH.
Qed.

Global Instance str_lt_trans : Transitive str_lt.
Proof. intros a b c. apply str_ltb_trans. Qed.

Lemma insert_unique_elem x l y : y ∈ insert_unique x l <-> y = x \/ y ∈ l.
Proof.
  induction l as [|z l IH]; simpl.
  - rewrite list_elem_of_singleton, elem_of_nil. tauto.
  - destruct (str_ltb x z) eqn:E1; [by rewrite elem_of_cons|].
    destruct (str_ltb z x) eqn:E2.
    + rewrite !elem_of_cons, IH. tauto.
    + rewrite (str_ltb_total x z E1 E2), elem_of_cons. tauto.
Qed.

Lemma sorted_set_elem l y : y ∈ sorted_set l <-> y ∈ l.
Proof.
  induction l as [|x l IH]; simpl; [done|].
  by rewrite insert_unique_elem, IH, elem_of_cons.
Qed.

Lemma insert_unique_sorted x l :
  Sorted str_lt l -> Sorted str_lt (insert_unique x l).
Proof.
  induction l as [|y l IH]; simpl; intros Hs.
  - by repeat constructor.
  - destruct (str_ltb x y) eqn:E1; [constructor; [done|constructor; exact E1]|].
    destruct (str_ltb y x) eqn:E2; [|done].
    apply Sorted_inv in Hs as [Hs Hhd]. constructor; [by apply IH|].
    destruct l as [|z l]; simpl; [constructor; exact E2|].
    destruct (str_ltb x z) eqn:E3; [constructor; exact E2|].
    destruct (str_ltb z x) eqn:E4; constructor; by apply HdRel_inv in Hhd.
Qed.

Lemma sorted_set_sorted l : StronglySorted str_lt (sorted_set l).
Proof.
  apply Sorted_StronglySorted; [apply _|].
  induction l as [|x l IH]; simpl; [constructor|]. by apply insert_unique_sorted.
Qed.

Lemma sorted_set_nil l : sorted_set l = [] -> l = [].
Proof.
  destruct l as [|x l]; [done|]. intros Hs.
  assert (Hx : x ∈ sorted_set (x :: l)) by (apply sorted_set_elem; left).
  rewrite Hs in Hx. by apply elem_of_nil in Hx.
Qed.

(** *** Buildings *)

Definition known_building (b : str) : Prop :=
  exists patterns, (b, patterns) ∈ building_patterns.

Lemma detect_building_Some text b :
  _detect_building text = Some b ->
  exists patterns pattern,
    (b, patterns) ∈ building_patterns /\ pattern ∈ patterns
    /\ contains pattern text = true.
Proof.
  unfold _detect_building.
  destruct (List.find _ building_patterns) as [[b' patterns]|] eqn:E; [|done].
  intros [= <-]. apply find_some in E as [Hin Hex].
  apply existsb_exists in Hex as (pattern & Hp & Hc).
  exists patterns, pattern. by rewrite !list_elem_of_In.
Qed.

Lemma detect_building_None text b patterns pattern :
  _detect_building text = None ->
  (b, patterns) ∈ building_patterns -> pattern ∈ patterns ->
  contains pattern text = false.
Proof.
  unfold _detect_building.
  destruct (List.find _ building_patterns) as [entry|] eqn:E; [done|].
  intros _ Hb Hp. apply list_elem_of_In in Hb.
  pose proof (find_none _ _ E _ Hb) as Hnone. simpl in Hnone.
  destruct (contains pattern text) eqn:Ec; [|done].
  rewrite <- Hnone. symmetry. apply existsb_exists. exists pattern.
  by rewrite <- list_elem_of_In.
Qed.

End MoreFacts.

(** ** Part XVII. [DataProcessor]: the enrichment *)

Module EnrichFacts.
Import Py PyMore Processor ProcessorMore StrFacts CleanFacts MoreFacts.

Lemma join_infix sep (l : list str) x :
  x ∈ l -> exists a b, join sep l = a ++ x ++ b.
Proof.
  induction l as [|y l IH]; [by intros ?%elem_of_nil|].
  intros [->|Hx]%elem_of_cons.
  - destruct l as [|z l]; [exists [], []; simpl; by rewrite app_nil_r|].
    exists [], (sep ++ join sep (z :: l)). done.
  - destruct (IH Hx) as (a & b & Heq). destruct l as [|z l]; [by apply elem_of_nil in Hx|].
    exists (y ++ sep ++ a), b. change (join sep (y :: z :: l)) with (y ++ sep ++ join sep (z :: l)).
    rewrite Heq. by rewrite <- !app_assoc.
Qed.

Lemma contains_join sep (l : list str) x : x ∈ l -> contains x (join sep l) = true.
Proof.
  intros (a & b & ->)%(join_infix sep). apply contains_spec. eauto.
Qed.

(** *** [repr] leaves plain characters as they are *)

(** Printable, and neither a quote nor a backslash. *)
Definition plain (c : char) : bool :=
  (32 <=? c) && negb (c =? 34) && negb (c =? 39) && negb (c =? BACKSLASH)
  && negb (c =? 127) && negb (in_ranges c NON_PRINTABLE).

Lemma repr_char_plain quote c :
  quote = 34 \/ quote = 39 -> plain c = true -> repr_char quote c = [c].
Proof.
  unfold plain, repr_char, BACKSLASH.
  rewrite !andb_true_iff, !negb_true_iff, N.leb_le, !N.eqb_neq.
  intros Hq (((((H32 & H34) & H39) & H92) & H127) & Hnp).
  rewrite Hnp.
  destruct (N.eqb_spec c quote) as [->|_]; [lia|].
  destruct (N.eqb_spec c 92); [lia|].
  destruct (N.eqb_spec c 9); [lia|].
  destruct (N.eqb_spec c 10); [lia|].
  destruct (N.eqb_spec c 13); [lia|].
  destruct (N.ltb_spec c 32); [lia|].
  destruct (N.eqb_spec c 127); [lia|].
  cbv [orb negb]. by destruct (c <? 127).
Qed.

Lemma flat_map_plain quote (s : str) :
  quote = 34 \/ quote = 39 -> forallb plain s = true ->
  flat_map (repr_char quote) s = s.
Proof.
  intros Hq. induction s as [|c s IH]; [done|].
  intros [Hc Hs]%andb_true_iff.
  change (flat_map (repr_char quote) (c :: s))
    with (repr_char quote c ++ flat_map (repr_char quote) s).
  by rewrite repr_char_plain, IH.
Qed.

Lemma repr_str_contains (t a b : str) :
  forallb plain t = true -> contains t (repr_str (a ++ t ++ b)) = true.
Proof.
  intros Ht. unfold repr_str.
  set (quote := if _ && _ then 34 else 39).
  assert (Hq : quote = 34 \/ quote = 39) by (subst quote; destruct (_ && _); auto).
  rewrite !flat_map_app, (flat_map_plain _ _ Hq Ht).
  apply contains_spec.
  exists ([quote] ++ flat_map (repr_char quote) a),
         (flat_map (repr_char quote) b ++ [quote]).
  by rewrite <- !app_assoc.
Qed.

Lemma repr_list_contains (t : str) (xs : list str) a b :
  forallb plain t = true -> a ++ t ++ b ∈ xs -> contains t (repr_list xs) = true.
Proof.
  intros Ht Hin. unfold repr_list.
  assert (Hr : repr_str (a ++ t ++ b) ∈ map repr_str xs).
  { apply list_elem_of_In, in_map, list_elem_of_In, Hin. }
  destruct (join_infix (utf8 ", ") _ _ Hr) as (u & v & ->).
  apply contains_infix, contains_infix. by apply repr_str_contains.
Qed.

Definition LABEL : str := utf8 "位置：".

Lemma LABEL_plain : forallb plain LABEL = true.
Proof. vm_compute. reflexivity. Qed.

(** *** The loop of [enrich_content_with_locations] *)

Lemma add_location_elem content acc entry line :
  line ∈ add_location content acc entry ->
  line ∈ acc
  \/ (contains entry.1 content = true /\ line = entry.1 ++ LABEL ++ entry.2).
Proof.
  unfold add_location. destruct (contains entry.1 content); [|auto].
  destruct (negb _); [|auto].
  rewrite elem_of_app, list_elem_of_singleton. intros [Hl| ->]; auto.
Qed.

Lemma added_locations_elem content m acc line :
  line ∈ fold_left (add_location content) m acc ->
  line ∈ acc
  \/ exists entry, entry ∈ m /\ contains entry.1 content = true
                   /\ line = entry.1 ++ LABEL ++ entry.2.
Proof.
  revert acc. induction m as [|e m IH]; simpl; intros acc H; [auto|].
  apply IH in H as [H|(entry & ? & ? & ?)].
  - apply add_location_elem in H as [?|[? ?]]; [auto|].
    right. exists e. split; [left|done].
  - right. exists entry. split; [by right|done].
Qed.

Lemma add_location_keeps content acc entry line :
  line ∈ acc -> line ∈ add_location content acc entry.
Proof.
  intros Hl. unfold add_location. destruct (contains entry.1 content); [|done].
  destruct (negb _); [|done]. apply elem_of_app. auto.
Qed.

Lemma added_locations_keeps content m acc line :
  line ∈ acc -> line ∈ fold_left (add_location content) m acc.
Proof.
  revert acc. induction m as [|e m IH]; simpl; intros acc H; [done|].
  by apply IH, add_location_keeps.
Qed.

Lemma added_locations_unmentioned content m acc :
  (forall entry, entry ∈ m -> contains entry.1 content = false) ->
  fold_left (add_location content) m acc = acc.
Proof.
  revert acc. induction m as [|e m IH]; simpl; intros acc H; [done|].
  assert (add_location content acc e = acc) as ->.
  { unfold add_location. by rewrite (H e) by left. }
  apply IH. intros. apply H. by right.
Qed.

Lemma add_location_first content entry :
  contains entry.1 content = true ->
  add_location content [] entry = [entry.1 ++ LABEL ++ entry.2].
Proof.
  intros Hc. unfold add_location. rewrite Hc.
  assert (Hn : contains (entry.1 ++ utf8 "位置：") (repr_list []) = false).
  { destruct (contains _ (repr_list [])) eqn:E; [|done].
    assert (Hin : ch "位" ∈ entry.1 ++ utf8 "位置：").
    { apply elem_of_app. right. apply (bool_decide_unpack _). vm_compute. exact I. }
    pose proof (contains_elem _ _ _ E Hin) as Hbad. revert Hbad.
    apply (bool_decide_unpack _). vm_compute. exact I. }
  by rewrite Hn.
Qed.

(** Once the line of an office whose name ends in [k] is there, an entry
    for [k] adds nothing. *)
Lemma add_location_shadowed content acc p k v entry :
  forallb plain k = true -> (p ++ k) ++ LABEL ++ v ∈ acc -> entry.1 = k ->
  add_location content acc entry = acc.
Proof.
  intros Hk Hin He. unfold add_location. rewrite He.
  destruct (contains k content); [|done].
  assert (Hc : contains (k ++ utf8 "位置：") (repr_list acc) = true).
  { apply (repr_list_contains _ _ p v).
    - rewrite forallb_app, Hk. exact LABEL_plain.
    - revert Hin. unfold LABEL. by rewrite <- !app_assoc. }
  by rewrite Hc.
Qed.

(** An entry of the location map, as [build_location_map] makes them. *)
Definition registrar_entry : str * str :=
  (utf8 "註冊組", utf8 "行政大樓 1樓 106室").

Lemma enrich_unfold content m :
  content <> [] ->
  enrich_content_with_locations content m =
    match fold_left (add_location content) m [] with
    | [] => content
    | _ :: _ =>
      content ++ ENRICHMENT_HEADER
      ++ join [LF] (sorted_set (fold_left (add_location content) m []))
    end.
Proof.
  intros Hc. unfold enrich_content_with_locations.
  by destruct content.
Qed.

End EnrichFacts.

Module EnrichExtras.
Import Py PyMore Processor ProcessorMore StrFacts CleanFacts MoreFacts EnrichFacts.

(** X4. [enrich_content_with_locations] keeps the content as a prefix:
    the result is the content itself, or the content followed by the
    header of the enrichment block and by lines in strictly ascending
    order, each of the form [name 位置：location] for an entry of the map
    whose name occurs in the content. *)
Theorem enrich_content_with_locations_shape (content : str) (m : list (str * str)) :
  exists lines,
    StronglySorted str_lt lines
    /\ (forall line, line ∈ lines ->
          exists entry, entry ∈ m /\ contains entry.1 content = true
                        /\ line = entry.1 ++ utf8 "位置：" ++ entry.2)
    /\ enrich_content_with_locations content m =
         match lines with
         | [] => content
         | _ => content ++ ENRICHMENT_HEADER ++ join [LF] lines
         end.
Proof.
  destruct content as [|c content].
  { exists []. split; [constructor|]. split; [by intros ? ?%elem_of_nil|done]. }
  rewrite enrich_unfold by done.
  remember (fold_left (add_location (c :: content)) m []) as added eqn:E.
  destruct added as [|x added].
  { exists []. split; [constructor|]. split; [by intros ? ?%elem_of_nil|done]. }
  exists (sorted_set (x :: added)). split; [apply sorted_set_sorted|]. split.
  - intros line Hl. apply (proj1 (sorted_set_elem _ _)) in Hl. rewrite E in Hl.
    apply added_locations_elem in Hl as [Hl|Hl]; [by apply elem_of_nil in Hl|done].
  - destruct (sorted_set (x :: added)) eqn:Es; [|done].
    by apply sorted_set_nil in Es.
Qed.

(** X5. When no office name of the map occurs in the content, the
    enrichment returns the content unchanged. *)
Theorem enrich_content_with_locations_unmentioned (content : str) (m : list (str * str)) :
  (forall entry, entry ∈ m -> contains entry.1 content = false) ->
  enrich_content_with_locations content m = content.
Proof.
  intros H. destruct content as [|c content]; [done|].
  rewrite enrich_unfold by done. by rewrite added_locations_unmentioned.
Qed.

Lemma enrich_content_with_locations_unmentioned_witness :
  enrich_content_with_locations (utf8 "申請成績單")
    [(utf8 "註冊組", utf8 "行政大樓 1樓 106室")] = utf8 "申請成績單".
Proof.
  apply enrich_content_with_locations_unmentioned.
  intros entry ->%list_elem_of_singleton. vm_compute. reflexivity.
Defined.

(** X6. The first office of the map whose name occurs in a non-empty
    content always gets its line: the result contains
    [name 位置：location] for it. *)
Theorem enrich_content_with_locations_first_mention
    (content : str) (m1 m2 : list (str * str)) (entry : str * str) :
  content <> [] ->
  (forall e, e ∈ m1 -> contains e.1 content = false) ->
  contains entry.1 content = true ->
  contains (entry.1 ++ utf8 "位置：" ++ entry.2)
    (enrich_content_with_locations content (m1 ++ entry :: m2)) = true.
Proof.
  intros Hne Hm1 Hc. rewrite enrich_unfold by done.
  rewrite fold_left_app, (added_locations_unmentioned _ _ _ Hm1).
  cbn [fold_left]. rewrite (add_location_first _ _ Hc).
  change (utf8 "位置：") with LABEL.
  assert (Hin : entry.1 ++ LABEL ++ entry.2
                ∈ fold_left (add_location content) m2 [entry.1 ++ LABEL ++ entry.2]).
  { apply added_locations_keeps. left. }
  remember (fold_left (add_location content) m2 [entry.1 ++ LABEL ++ entry.2])
    as added eqn:E.
  destruct added as [|x added]; [by apply elem_of_nil in Hin|].
  destruct (join_infix [LF] (sorted_set (x :: added)) _
              (proj2 (sorted_set_elem _ _) Hin)) as (a & b & ->).
  apply contains_spec. exists (content ++ ENRICHMENT_HEADER ++ a), b.
  by rewrite <- !app_assoc.
Qed.

Lemma enrich_content_with_locations_first_mention_witness :
  contains (registrar_entry.1 ++ utf8 "位置：" ++ registrar_entry.2)
    (enrich_content_with_locations (utf8 "請洽註冊組")
       ([(utf8 "出納組", utf8 "行政大樓 1樓 101室")] ++ registrar_entry :: [])) = true.
Proof.
  apply (enrich_content_with_locations_first_mention (utf8 "請洽註冊組")
           [(utf8 "出納組", utf8 "行政大樓 1樓 101室")] [] registrar_entry).
  - vm_compute. discriminate.
  - intros e ->%list_elem_of_singleton. vm_compute. reflexivity.
  - vm_compute. reflexivity.
Defined.

(** X7. The check against repeated lines looks for [name 位置：] in the
    printed list of the lines added so far, so a name that is the ending
    of an office already added counts as added: after an entry for
    [p ++ k] whose name occurs in the content, the entries for [k] change
    nothing ([k] of printable characters other than quotes and the
    backslash). *)
Theorem enrich_content_with_locations_shadowed
    (content p k v : str) (m : list (str * str)) :
  forallb plain k = true ->
  contains (p ++ k) content = true ->
  enrich_content_with_locations content ((p ++ k, v) :: m) =
  enrich_content_with_locations content
    ((p ++ k, v) :: filter (fun entry => negb (str_eqb entry.1 k)) m).
Proof.
  intros Hk Hc. destruct content as [|c0 content]; [done|].
  rewrite !enrich_unfold by done. cbn [fold_left].
  rewrite (add_location_first _ (p ++ k, v) Hc). cbn [fst snd].
  assert (Hgo : forall acc, (p ++ k) ++ LABEL ++ v ∈ acc ->
            fold_left (add_location (c0 :: content)) m acc =
            fold_left (add_location (c0 :: content))
              (filter (fun entry => negb (str_eqb entry.1 k)) m) acc).
  { induction m as [|e m IH]; intros acc Hacc; [done|].
    rewrite filter_cons. cbn [fold_left]. destruct (str_eqb e.1 k) eqn:Ee.
    - rewrite decide_False by (cbn; tauto).
      rewrite (add_location_shadowed _ _ p k v e Hk Hacc); [by apply IH|].
      by apply (bool_decide_eq_true_1 _).
    - rewrite decide_True by (cbn; tauto). cbn [fold_left].
      by apply IH, add_location_keeps. }
  rewrite <- Hgo; [done|left].
Qed.

Lemma enrich_content_with_locations_shadowed_witness :
  enrich_content_with_locations (utf8 "教務處註冊組辦理")
    ((utf8 "教務處" ++ utf8 "註冊組", utf8 "行政大樓 1樓 106室")
     :: [(utf8 "註冊組", utf8 "行政大樓 1樓 108室")]) =
  enrich_content_with_locations (utf8 "教務處註冊組辦理")
    ((utf8 "教務處" ++ utf8 "註冊組", utf8 "行政大樓 1樓 106室")
     :: filter (fun entry => negb (str_eqb entry.1 (utf8 "註冊組")))
          [(utf8 "註冊組", utf8 "行政大樓 1樓 108室")]).
Proof.
  apply enrich_content_with_locations_shadowed; vm_compute; reflexivity.
Defined.

End EnrichExtras.

(** ** Part XVIII. [DataProcessor]: cleaning what was enriched *)

Module StrMore.
Import Py StrFacts.

Lemma startswith_app_inv (p u v : str) :
  startswith p (u ++ v) = true ->
  startswith p u = true \/ exists w, w <> [] /\ p = u ++ w /\ startswith w v = true.
Proof.
  revert u. induction p as [|a p IH]; intros u; [by left|].
  destruct u as [|b u]; [right; by exists (a :: p)|].
  simpl. intros [Hab Hp]%andb_true_iff. rewrite Hab.
  apply N.eqb_eq in Hab as ->.
  destruct (IH _ Hp) as [?|(w & ? & -> & ?)]; [by left|right; by exists w].
Qed.

Lemma ends_with (init w u : str) z :
  init ++ [z] = u ++ w -> w <> [] -> z ∈ w.
Proof.
  intros Heq Hw. destruct (exists_last Hw) as (w0 & y & ->).
  rewrite app_assoc in Heq. apply app_inj_tail in Heq as [_ ->].
  apply elem_of_app. right. left.
Qed.

(** An occurrence of a text that ends in [z] cannot reach into a text
    without [z]. *)
Lemma startswith_app_last (init u v : str) z :
  z ∉ v -> startswith (init ++ [z]) (u ++ v) = startswith (init ++ [z]) u.
Proof.
  intros Hz. destruct (startswith (init ++ [z]) u) eqn:E.
  - by apply startswith_app.
  - destruct (startswith _ (u ++ v)) eqn:E'; [|done].
    apply startswith_app_inv in E' as [E'|(w & Hw & Heq & Hs)]; [congruence|].
    pose proof (ends_with _ _ _ _ Heq Hw) as Hin.
    apply startswith_spec in Hs as [rest ->].
    exfalso. apply Hz, elem_of_app. by left.
Qed.

Lemma contains_app_last (init u v : str) z :
  z ∉ v -> contains (init ++ [z]) (u ++ v) = contains (init ++ [z]) u.
Proof.
  intros Hz. induction u as [|c u IH].
  - simpl app. destruct (contains _ v) eqn:E.
    + exfalso. apply Hz. eapply contains_elem; [exact E|].
      apply elem_of_app. right. left.
    + by destruct init.
  - change ((c :: u) ++ v) with (c :: (u ++ v)).
    change (contains (init ++ [z]) (c :: u ++ v))
      with (startswith (init ++ [z]) ((c :: u) ++ v) || contains (init ++ [z]) (u ++ v)).
    by rewrite startswith_app_last, IH.
Qed.

Lemma before_cons sep c (s : str) :
  before sep (c :: s) = if startswith sep (c :: s) then [] else c :: before sep s.
Proof. done. Qed.

Lemma contains_cons sub c (s : str) :
  contains sub (c :: s) = startswith sub (c :: s) || contains sub s.
Proof. done. Qed.

Lemma before_app_last (init u v : str) z :
  z ∉ v ->
  before (init ++ [z]) (u ++ v) =
    if contains (init ++ [z]) u then before (init ++ [z]) u else u ++ v.
Proof.
  intros Hz. induction u as [|c u IH].
  - simpl app. assert (contains (init ++ [z]) [] = false) as -> by by destruct init.
    apply before_none.
    rewrite (contains_app_last init [] v z Hz : contains (init ++ [z]) v = _).
    by destruct init.
  - change ((c :: u) ++ v) with (c :: (u ++ v)).
    rewrite !before_cons, contains_cons.
    change (c :: u ++ v) with ((c :: u) ++ v) at 1.
    rewrite startswith_app_last by done.
    destruct (startswith _ (c :: u)); [done|]. simpl orb. rewrite IH.
    by destruct (contains _ u).
Qed.

Lemma startswith_first y (sep' a t : str) :
  y ∉ a -> a <> [] -> startswith (y :: sep') (a ++ t) = false.
Proof.
  destruct a as [|x a]; [done|]. intros Hy _. simpl.
  destruct (N.eqb_spec y x) as [->|]; [|done]. exfalso. apply Hy. left.
Qed.

Lemma before_app_first y (sep' a t : str) :
  y ∉ a -> before (y :: sep') (a ++ t) = a ++ before (y :: sep') t.
Proof.
  induction a as [|x a IH]; [done|]. intros Hy.
  change ((x :: a) ++ t) with (x :: (a ++ t)). rewrite before_cons.
  change (x :: a ++ t) with ((x :: a) ++ t) at 1.
  rewrite startswith_first by done. simpl. f_equal. apply IH.
  intros ?. apply Hy. by right.
Qed.

(** The text before a separator that follows a character it does not
    have. *)
Lemma before_app_sep (sep u v : str) x :
  x ∉ sep -> contains sep u = false ->
  before sep ((u ++ [x]) ++ sep ++ v) = u ++ [x].
Proof.
  intros Hx. induction u as [|c u IH]; intros Hu.
  - destruct sep as [|y sep]; [done|]. simpl.
    destruct (N.eqb_spec y x) as [->|_]; [exfalso; apply Hx; left|].
    simpl. by rewrite N.eqb_refl, (proj2 (startswith_spec sep (sep ++ v))) by eauto.
  - rewrite contains_cons in Hu. apply orb_false_iff in Hu as [Hs Hu].
    change (((c :: u) ++ [x]) ++ sep ++ v) with (c :: ((u ++ [x]) ++ sep ++ v)).
    rewrite before_cons.
    assert (Hn : startswith sep (c :: (u ++ [x]) ++ sep ++ v) = false).
    { destruct (startswith sep (c :: (u ++ [x]) ++ sep ++ v)) eqn:E; [|done].
      change (c :: (u ++ [x]) ++ sep ++ v) with (((c :: u) ++ [x]) ++ sep ++ v) in E.
      rewrite <- (app_assoc (c :: u)) in E.
      apply startswith_app_inv in E as [E|(w & Hw & Heq & Hsw)]; [congruence|].
      destruct w as [|x' w]; [done|]. simpl in Hsw.
      apply andb_true_iff in Hsw as [->%N.eqb_eq _].
      exfalso. apply Hx. rewrite Heq. apply elem_of_app. right. left. }
    rewrite Hn. simpl. f_equal. by apply IH.
Qed.

(** *** [strip] and blank text around *)

Lemma drop_while_app p (s b : str) :
  drop_while p (s ++ b) =
    if forallb p s then drop_while p b else drop_while p s ++ b.
Proof.
  induction s as [|c s IH]; simpl; [done|].
  destruct (p c); simpl; [apply IH|done].
Qed.

Lemma forallb_rev p (s : str) : forallb p (rev s) = forallb p s.
Proof.
  induction s as [|c s IH]; simpl; [done|].
  rewrite forallb_app, IH. simpl. rewrite andb_true_r. apply andb_comm.
Qed.

Lemma drop_while_prefix p (s : str) :
  exists a, s = a ++ drop_while p s /\ forallb p a = true.
Proof.
  induction s as [|c s (a & IH & Ha)]; simpl; [by exists []|].
  destruct (p c) eqn:E; [|by exists []]. exists (c :: a). simpl.
  rewrite E, Ha. by rewrite <- IH.
Qed.

Lemma strip_decomp (s : str) :
  exists a b, s = a ++ strip s ++ b
              /\ forallb isspace a = true /\ forallb isspace b = true.
Proof.
  unfold strip, rstrip, lstrip.
  destruct (drop_while_prefix isspace s) as (a & Ha & Hwa).
  destruct (drop_while_prefix isspace (rev (drop_while isspace s))) as (b & Hb & Hwb).
  exists a, (rev b). split; [|split; [done|by rewrite forallb_rev]].
  rewrite Ha at 1. f_equal.
  rewrite <- rev_app_distr, <- Hb. by rewrite rev_involutive.
Qed.

Lemma strip_app_blank (s b : str) :
  forallb isspace b = true -> strip (s ++ b) = strip s.
Proof.
  intros Hb. unfold strip, lstrip. rewrite drop_while_app.
  destruct (forallb isspace s) eqn:Es.
  - by rewrite (drop_while_all _ _ Hb), (drop_while_all _ _ Es).
  - unfold rstrip. rewrite rev_app_distr, drop_while_app, forallb_rev, Hb. done.
Qed.

Lemma strip_blank_app (a s : str) :
  forallb isspace a = true -> strip (a ++ s) = strip s.
Proof.
  intros Ha. unfold strip, lstrip. by rewrite drop_while_app, Ha.
Qed.

(** *** [replace] and text around *)

Lemma replace_go_cons old new c (s : str) :
  replace_go old new 0 (c :: s) =
    if startswith old (c :: s)
    then new ++ replace_go old new (length old - 1) s
    else c :: replace_go old new 0 s.
Proof. done. Qed.

Lemma replace_go_skip old new (x rest : str) :
  replace_go old new (length x) (x ++ rest) = replace_go old new 0 rest.
Proof. induction x as [|c x IH]; [by destruct rest|apply IH]. Qed.

Lemma replace_old old new (rest : str) :
  old <> [] -> replace old new (old ++ rest) = new ++ replace old new rest.
Proof.
  intros Hne. destruct old as [|o old]; [done|]. unfold replace.
  change ((o :: old) ++ rest) with (o :: (old ++ rest)). rewrite replace_go_cons.
  change (o :: old ++ rest) with ((o :: old) ++ rest).
  rewrite (proj2 (startswith_spec _ _)) by eauto.
  f_equal. replace (length (o :: old) - 1)%nat with (length old) by (simpl; lia).
  apply replace_go_skip.
Qed.

Lemma replace_app_first y (old' new a t : str) :
  y ∉ a -> replace (y :: old') new (a ++ t) = a ++ replace (y :: old') new t.
Proof.
  unfold replace. induction a as [|x a IH]; [done|]. intros Hy.
  change ((x :: a) ++ t) with (x :: (a ++ t)). rewrite replace_go_cons.
  change (x :: a ++ t) with ((x :: a) ++ t).
  rewrite startswith_first by done. simpl. f_equal. apply IH.
  intros ?. apply Hy. by right.
Qed.

Lemma replace_app_last (init new s b : str) z :
  z ∉ b ->
  replace (init ++ [z]) new (s ++ b) = replace (init ++ [z]) new s ++ b.
Proof.
  intros Hz. remember (length s) as n eqn:Hn. revert s Hn.
  induction n as [n IH] using lt_wf_ind. intros s ->.
  destruct s as [|c s].
  - change (replace (init ++ [z]) new [] ++ b) with b. change ([] ++ b) with b.
    apply replace_none.
    rewrite (contains_app_last init [] b z Hz : contains (init ++ [z]) b = _).
    by destruct init.
  - destruct (startswith (init ++ [z]) (c :: s)) eqn:E.
    + apply startswith_spec in E as [rest E]. rewrite E, <- app_assoc.
      rewrite !replace_old by (by destruct init).
      rewrite <- app_assoc. f_equal. eapply IH; [|done].
      apply (f_equal length) in E. rewrite !length_app in E. simpl in E.
      simpl. lia.
    + unfold replace. change ((c :: s) ++ b) with (c :: (s ++ b)).
      rewrite !replace_go_cons.
      change (c :: s ++ b) with ((c :: s) ++ b).
      rewrite startswith_app_last, E by done. simpl. f_equal.
      eapply (IH (length s)); [simpl; lia|done].
Qed.

End StrMore.

Module CleanMore.
Import Py PyMore Processor ProcessorMore StrFacts CleanFacts MoreFacts StrMore.

(** *** Lines and blank text around *)

Lemma split_go_LF_cons cur c (s : str) :
  split_go [LF] 0 cur (c :: s) =
    if LF =? c then rev cur :: split_go [LF] 0 [] s
    else split_go [LF] 0 (c :: cur) s.
Proof. simpl. rewrite andb_true_r. by destruct (LF =? c). Qed.

Lemma omap_cons {A B} (f : A -> option B) x (l : list A) :
  omap f (x :: l) = match f x with Some y => y :: omap f l | None => omap f l end.
Proof. done. Qed.

Lemma clean_line_around (a line b : str) :
  forallb isspace a = true -> forallb isspace b = true ->
  clean_line (a ++ line ++ b) = clean_line line.
Proof.
  intros Ha Hb. unfold clean_line.
  by rewrite (strip_blank_app _ _ Ha), (strip_app_blank _ _ Hb).
Qed.

Lemma clean_line_all_blank line : forallb isspace line = true -> clean_line line = None.
Proof. intros Hb. unfold clean_line. by rewrite strip_blank. Qed.

Lemma clean_line_cur (blank cur : str) :
  forallb isspace blank = true ->
  clean_line (rev (cur ++ blank)) = clean_line (rev cur).
Proof.
  intros Hb. rewrite rev_app_distr.
  rewrite <- (app_nil_r (rev cur)) at 1.
  apply (clean_line_around (rev blank) (rev cur) []); [|done].
  by rewrite forallb_rev.
Qed.

(** Blank text at the beginning of the current piece does not count. *)
Lemma clean_lines_cur (blank cur s : str) :
  forallb isspace blank = true ->
  omap clean_line (split_go [LF] 0 (cur ++ blank) s) =
  omap clean_line (split_go [LF] 0 cur s).
Proof.
  intros Hb. revert cur. induction s as [|c s IH]; intros cur.
  - change (split_go [LF] 0 ?x []) with [rev x]. rewrite !omap_cons.
    by rewrite clean_line_cur.
  - rewrite !split_go_LF_cons. destruct (LF =? c).
    + rewrite !omap_cons. by rewrite clean_line_cur.
    + apply (IH (c :: cur)).
Qed.

Lemma clean_lines_blank_first (a s cur : str) :
  forallb isspace a = true -> forallb isspace cur = true ->
  omap clean_line (split_go [LF] 0 cur (a ++ s)) =
  omap clean_line (split_go [LF] 0 [] s).
Proof.
  revert cur. induction a as [|x a IH]; intros cur Ha Hcur.
  - apply (clean_lines_cur cur [] s Hcur).
  - apply andb_true_iff in Ha as [Hx Ha].
    change ((x :: a) ++ s) with (x :: (a ++ s)). rewrite split_go_LF_cons.
    destruct (LF =? x).
    + rewrite omap_cons, clean_line_all_blank by (by rewrite forallb_rev).
      by apply IH.
    + apply IH; [done|]. simpl. by rewrite Hx.
Qed.

Lemma clean_lines_blank_only (b cur : str) :
  forallb isspace b = true ->
  omap clean_line (split_go [LF] 0 cur b) = omap clean_line [rev cur].
Proof.
  revert cur. induction b as [|x b IH]; intros cur Hb; [done|].
  apply andb_true_iff in Hb as [Hx Hb]. rewrite split_go_LF_cons.
  destruct (LF =? x).
  - rewrite omap_cons, (IH [] Hb), !omap_cons, (clean_line_all_blank (rev [])) by done.
    done.
  - rewrite (IH _ Hb), !omap_cons.
    assert (Hx' : forallb isspace [x] = true) by (simpl; by rewrite Hx).
    change (rev (x :: cur)) with (rev cur ++ [x]).
    by rewrite (clean_line_around [] (rev cur) [x] eq_refl Hx'
                : clean_line (rev cur ++ [x]) = _).
Qed.

Lemma clean_lines_blank_last (s b cur : str) :
  forallb isspace b = true ->
  omap clean_line (split_go [LF] 0 cur (s ++ b)) =
  omap clean_line (split_go [LF] 0 cur s).
Proof.
  intros Hb. revert cur. induction s as [|c s IH]; intros cur.
  - by apply clean_lines_blank_only.
  - change ((c :: s) ++ b) with (c :: (s ++ b)). rewrite !split_go_LF_cons.
    destruct (LF =? c); [|apply IH]. by rewrite !omap_cons, IH.
Qed.

(** The cleaned lines of a text: steps 1 and 2 of [clean_text_advanced]. *)
Definition clean_lines (dept text : str) : list str :=
  omap clean_line (split [LF] (dept_prefix dept text)).

Lemma clean_lines_around_plain (a s b : str) :
  forallb isspace a = true -> forallb isspace b = true ->
  omap clean_line (split [LF] (a ++ s ++ b)) = omap clean_line (split [LF] s).
Proof.
  intros Ha Hb. unfold split.
  by rewrite (clean_lines_blank_first a (s ++ b) [] Ha), clean_lines_blank_last.
Qed.

Lemma blank_not_elem (a : str) y :
  forallb isspace a = true -> isspace y = false -> y ∉ a.
Proof.
  intros Ha Hy Hin. rewrite forallb_forall in Ha.
  apply list_elem_of_In, Ha in Hin. congruence.
Qed.

Lemma replace_around (old new old' init a s b : str) y z :
  old = y :: old' -> old = init ++ [z] -> y ∉ a -> z ∉ b ->
  replace old new (a ++ s ++ b) = a ++ replace old new s ++ b.
Proof.
  intros -> Hz Ha Hb. rewrite replace_app_first by done. rewrite Hz.
  by rewrite replace_app_last.
Qed.

Lemma before_around (sep sep' init a s b : str) y z :
  sep = y :: sep' -> sep = init ++ [z] -> y ∉ a -> z ∉ b ->
  before sep (a ++ s ++ b) = a ++ (if contains sep s then before sep s else s ++ b).
Proof.
  intros -> Hz Ha Hb. rewrite before_app_first by done. rewrite Hz.
  by rewrite before_app_last.
Qed.

Definition OLD : str := utf8 "Admi nistration".

Lemma OLD_ends : exists y old' init z,
  OLD = y :: old' /\ OLD = init ++ [z] /\ isspace y = false /\ isspace z = false.
Proof.
  exists (hd 0 OLD), (tl OLD), (removelast OLD), (List.last OLD 0).
  split; [|split; [|split]]; vm_compute; reflexivity.
Qed.

Lemma ADMIN_FOOTER_ends : exists y sep' init z,
  ADMIN_FOOTER = y :: sep' /\ ADMIN_FOOTER = init ++ [z]
  /\ isspace y = false /\ isspace z = false.
Proof.
  exists (hd 0 ADMIN_FOOTER), (tl ADMIN_FOOTER), (removelast ADMIN_FOOTER),
         (List.last ADMIN_FOOTER 0).
  split; [|split; [|split]]; vm_compute; reflexivity.
Qed.

Lemma dept_prefix_around (dept a s b : str) :
  forallb isspace a = true -> forallb isspace b = true ->
  exists b', forallb isspace b' = true
             /\ dept_prefix dept (a ++ s ++ b) = a ++ dept_prefix dept s ++ b'.
Proof.
  intros Ha Hb. unfold dept_prefix.
  destruct (str_eqb dept (utf8 "admin")); [|by exists b].
  rewrite !split_head. change (utf8 "Admi nistration") with OLD.
  destruct OLD_ends as (y & old' & init & z & Hy & Hz & Hys & Hzs).
  destruct ADMIN_FOOTER_ends as (y' & sep' & init' & z' & Hy' & Hz' & Hys' & Hzs').
  rewrite (replace_around OLD _ old' init a s b y z Hy Hz)
    by by apply blank_not_elem.
  set (R := replace OLD _ s).
  rewrite (before_around ADMIN_FOOTER sep' init' a R b y' z' Hy' Hz')
    by by apply blank_not_elem.
  destruct (contains ADMIN_FOOTER R) eqn:E.
  - exists []. by rewrite app_nil_r.
  - exists b. by rewrite (before_none _ _ E).
Qed.

Lemma clean_lines_strip (dept text : str) :
  clean_lines dept (strip text) = clean_lines dept text.
Proof.
  destruct (strip_decomp text) as (a & b & Heq & Ha & Hb).
  unfold clean_lines. rewrite Heq at 2.
  destruct (dept_prefix_around dept a (strip text) b Ha Hb) as (b' & Hb' & ->).
  by rewrite clean_lines_around_plain.
Qed.

Lemma clean_text_advanced_unfold (text dept : str) :
  text <> [] ->
  clean_text_advanced text dept =
    (final_lines ← reformat (clean_lines dept (cut_marker text));
     Some (cut_marker (join [LF] final_lines))).
Proof. by destruct text. Qed.

(** *** The enrichment block is cut off *)

Lemma MARKER_ends : exists init z, MARKER = init ++ [z] /\ z <> LF.
Proof.
  exists (removelast MARKER), (List.last MARKER 0). split; vm_compute; [reflexivity|discriminate].
Qed.

Lemma LF_not_in_MARKER : LF ∉ MARKER.
Proof. apply (bool_decide_unpack _). vm_compute. exact I. Qed.

Lemma ENRICHMENT_HEADER_eq : ENRICHMENT_HEADER = [LF; LF] ++ MARKER ++ [LF].
Proof. vm_compute. reflexivity. Qed.

Lemma regroup (content marker rest : str) x :
  content ++ ([x; x] ++ marker ++ [x]) ++ rest =
  ((content ++ [x]) ++ [x]) ++ marker ++ ([x] ++ rest).
Proof. by rewrite <- !app_assoc. Qed.

Lemma cut_marker_enriched (content rest : str) :
  contains MARKER content = false ->
  cut_marker (content ++ ENRICHMENT_HEADER ++ rest) = strip content.
Proof.
  intros Hc. rewrite ENRICHMENT_HEADER_eq.
  rewrite regroup. unfold cut_marker.
  rewrite (proj2 (contains_spec _ _)) by eauto.
  rewrite split_head, before_app_sep.
  - rewrite <- app_assoc. apply strip_app_blank. vm_compute. reflexivity.
  - apply LF_not_in_MARKER.
  - destruct MARKER_ends as (init & z & HM & Hz). rewrite HM in Hc |- *.
    rewrite contains_app_last; [done|].
    intros ->%list_elem_of_singleton. done.
Qed.

End CleanMore.

Module CleanEnrichExtras.
Import Py PyMore Processor ProcessorMore StrFacts CleanFacts MoreFacts StrMore
  EnrichFacts CleanMore.

(** X8. Cleaning does not see the enrichment: for a content without the
    marker [【系統補充位置資訊】], cleaning the enriched content gives what
    cleaning the content gives (the same text, or the same failure),
    whatever the location map and the department. *)
Theorem clean_text_advanced_enriched (content dept : str) (m : list (str * str)) :
  contains MARKER content = false ->
  clean_text_advanced (enrich_content_with_locations content m) dept =
  clean_text_advanced content dept.
Proof.
  intros Hc. destruct content as [|c content]; [done|].
  rewrite enrich_unfold by done.
  destruct (fold_left _ m []) as [|x added]; [done|].
  rewrite !clean_text_advanced_unfold by done.
  rewrite cut_marker_enriched by done.
  rewrite clean_lines_strip.
  unfold cut_marker at 3. by rewrite Hc.
Qed.

Lemma clean_text_advanced_enriched_witness :
  clean_text_advanced
    (enrich_content_with_locations (utf8 "請洽註冊組") [registrar_entry]) [] =
  clean_text_advanced (utf8 "請洽註冊組") [].
Proof.
  apply clean_text_advanced_enriched. vm_compute. reflexivity.
Defined.

End CleanEnrichExtras.

(** ** Part XIX. [DataProcessor]: the location map and the chunks of an item *)

Module MapFacts.
Import Py PyMore Processor ProcessorMore StrFacts ExtractFacts MoreFacts.

(** *** [dict_set] *)

Lemma dict_set_elem k v (d : list (str * str)) kv :
  kv ∈ dict_set k v d -> kv = (k, v) \/ kv ∈ d.
Proof.
  induction d as [|e d IH]; simpl.
  - intros ->%list_elem_of_singleton. by left.
  - destruct (str_eqb k e.1).
    + intros [->|?]%elem_of_cons; [by left|right; by right].
    + intros [->|Hin]%elem_of_cons; [right; left|].
      destruct (IH Hin); [by left|right; by right].
Qed.

Lemma dict_set_keys k v (d : list (str * str)) k' :
  k' ∈ (dict_set k v d).*1 <-> k' = k \/ k' ∈ d.*1.
Proof.
  induction d as [|e d IH]; simpl.
  - rewrite list_elem_of_singleton, elem_of_nil. tauto.
  - destruct (str_eqb k e.1) eqn:E.
    + apply (bool_decide_eq_true_1 _) in E. simpl. rewrite !elem_of_cons, <- E. tauto.
    + simpl. rewrite !elem_of_cons, IH. tauto.
Qed.

(** A [dict] keeps one entry for a key. *)
Lemma dict_set_NoDup k v (d : list (str * str)) :
  NoDup d.*1 -> NoDup (dict_set k v d).*1.
Proof.
  induction d as [|e d IH]; simpl; intros Hnd.
  - apply NoDup_singleton.
  - apply NoDup_cons in Hnd as [Hnotin Hnd]. destruct (str_eqb k e.1) eqn:E.
    + apply (bool_decide_eq_true_1 _) in E. simpl. rewrite E.
      by apply NoDup_cons.
    + apply (bool_decide_eq_false_1 _) in E. simpl. apply NoDup_cons. split; [|by apply IH].
      rewrite dict_set_keys. intros [Heq|Hin]; [by symmetry in Heq|done].
Qed.

(** *** The records of [_extract_office_locations] *)

Lemma extracted_office content b office :
  office ∈ _extract_office_locations content b ->
  building office = b /\ floor office <> [].
Proof.
  rewrite extract_emitted. intros (pre & l & post & groups & _ & _ & Hf & ->)%emitted_sound.
  done.
Qed.

(** *** The loop of [build_location_map] *)

(** The entry of the map that an office of an [admin] item gives. *)
Definition located (items : list RawItem) (kv : str * str) : Prop :=
  exists item clean office,
    item ∈ items
    /\ item_department item = utf8 "admin"
    /\ clean_text_advanced (item_content item) (utf8 "admin") = Some clean
    /\ _detect_building clean = Some (building office)
    /\ office ∈ _extract_office_locations clean (building office)
    /\ floor office <> []
    /\ kv = (name_zh office, loc_info office).

Lemma fold_dict_set_elem (offices : list Office) m kv :
  kv ∈ fold_left (fun m office => dict_set (name_zh office) (loc_info office) m) offices m ->
  kv ∈ m \/ exists office, office ∈ offices /\ kv = (name_zh office, loc_info office).
Proof.
  revert m. induction offices as [|o offices IH]; intros m; simpl; [auto|].
  intros [Hin|(office & Hin & ->)]%IH.
  - apply dict_set_elem in Hin as [->|Hin]; [|by left].
    right. exists o. split; [left|done].
  - right. exists office. split; [by right|done].
Qed.

Lemma fold_dict_set_NoDup (offices : list Office) m :
  NoDup m.*1 ->
  NoDup (fold_left (fun m office => dict_set (name_zh office) (loc_info office) m)
           offices m).*1.
Proof.
  revert m. induction offices as [|o offices IH]; intros m Hnd; simpl; [done|].
  by apply IH, dict_set_NoDup.
Qed.

Lemma add_item_locations_elem m item m' kv :
  add_item_locations m item = Some m' -> kv ∈ m' -> kv ∈ m \/ located [item] kv.
Proof.
  unfold add_item_locations.
  destruct (str_eqb (item_department item) (utf8 "admin")) eqn:Ed;
    [|intros [= <-]; auto].
  apply (bool_decide_eq_true_1 _) in Ed.
  destruct (is_empty (item_content item)); [intros [= <-]; auto|].
  destruct (clean_text_advanced (item_content item) (utf8 "admin")) as [clean|] eqn:Ec;
    [|done].
  cbn [mbind option_bind].
  destruct (_detect_building clean) as [b|] eqn:Eb; [|intros [= <-]; auto].
  destruct (_ || _); [|intros [= <-]; auto].
  intros [= <-] [Hin|(office & Hin & ->)]%fold_dict_set_elem; [by left|].
  right. destruct (extracted_office _ _ _ Hin) as [Hb Hf].
  exists item, clean, office. rewrite Hb. split; [left|done].
Qed.

Lemma add_item_locations_NoDup m item m' :
  add_item_locations m item = Some m' -> NoDup m.*1 -> NoDup m'.*1.
Proof.
  unfold add_item_locations.
  destruct (str_eqb _ _); [|by intros [= <-]].
  destruct (is_empty _); [by intros [= <-]|].
  destruct (clean_text_advanced _ _) as [clean|]; [|done]. cbn [mbind option_bind].
  destruct (_detect_building clean) as [b|]; [|by intros [= <-]].
  destruct (_ || _); [|by intros [= <-]].
  intros [= <-]. apply fold_dict_set_NoDup.
Qed.

Lemma located_mono items items' kv :
  (forall item, item ∈ items -> item ∈ items') -> located items kv -> located items' kv.
Proof.
  intros Hsub (item & clean & office & Hin & H). exists item, clean, office.
  split; [by apply Hsub|done].
Qed.

Lemma build_from_elem items m m' kv :
  build_from m items = Some m' -> kv ∈ m' -> kv ∈ m \/ located items kv.
Proof.
  revert m. induction items as [|item items IH]; intros m; simpl.
  - intros [= <-]. auto.
  - destruct (add_item_locations m item) as [m1|] eqn:E; [|done]. cbn [mbind option_bind].
    intros Hb Hin. destruct (IH _ Hb Hin) as [Hm1|Hloc].
    + destruct (add_item_locations_elem _ _ _ _ E Hm1) as [?|Hloc]; [by left|].
      right. eapply located_mono; [|exact Hloc].
      intros ? ->%list_elem_of_singleton. left.
    + right. eapply located_mono; [|exact Hloc]. intros. by right.
Qed.

Lemma build_from_NoDup items m m' :
  build_from m items = Some m' -> NoDup m.*1 -> NoDup m'.*1.
Proof.
  revert m. induction items as [|item items IH]; intros m; simpl.
  - by intros [= <-].
  - destruct (add_item_locations m item) as [m1|] eqn:E; [|done]. cbn [mbind option_bind].
    intros Hb Hnd. eapply IH; [exact Hb|]. by eapply add_item_locations_NoDup.
Qed.

(** An item that [build_location_map] cleans. *)
Definition cleaned_for_map (item : RawItem) : Prop :=
  item_department item = utf8 "admin" /\ item_content item <> [].

Lemma add_item_locations_total m item :
  is_Some (add_item_locations m item) <->
  (cleaned_for_map item ->
   is_Some (clean_text_advanced (item_content item) (utf8 "admin"))).
Proof.
  unfold add_item_locations, cleaned_for_map.
  destruct (str_eqb (item_department item) (utf8 "admin")) eqn:Ed.
  - apply (bool_decide_eq_true_1 _) in Ed.
    destruct (item_content item) as [|c content] eqn:Ec.
    + simpl. split; [by intros _ [_ ?]|eauto].
    + cbn [is_empty].
      destruct (clean_text_advanced (c :: content) (utf8 "admin")) as [clean|].
      * cbn [mbind option_bind]. split; [eauto|intros _].
        destruct (_detect_building clean); [|eauto]. destruct (_ || _); eauto.
      * cbn [mbind option_bind]. split; [by intros [? ?]|].
        intros Hc. by destruct Hc as [? ?].
  - apply (bool_decide_eq_false_1 _) in Ed. split; [by intros _ [? _]|eauto].
Qed.

Lemma build_from_total items m :
  is_Some (build_from m items) <->
  (forall item, item ∈ items -> cleaned_for_map item ->
     is_Some (clean_text_advanced (item_content item) (utf8 "admin"))).
Proof.
  revert m. induction items as [|item items IH]; intros m; simpl.
  - split; [by intros _ ? ?%elem_of_nil|eauto].
  - destruct (add_item_locations m item) as [m1|] eqn:E; cbn [mbind option_bind].
    + rewrite IH. split.
      * intros Hrest it [->|Hin]%elem_of_cons; [|by apply Hrest].
        apply (add_item_locations_total m). by rewrite E.
      * intros Hall it Hin. apply Hall. by right.
    + split; [by intros [? ?]|]. intros Hall.
      assert (Hs : is_Some (add_item_locations m item)).
      { apply add_item_locations_total, Hall. left. }
      rewrite E in Hs. by destruct Hs.
Qed.

End MapFacts.

Module MapExtras.
Import Py PyMore Processor ProcessorMore StrFacts ExtractFacts MoreFacts MapFacts.

(** X9. [build_location_map] fails exactly when the cleaning fails on an
    item of the department [admin] with a non-empty content, whether or
    not the item was scraped with success; the other items are not
    cleaned. *)
Theorem build_location_map_total (raw_items : list RawItem) :
  is_Some (build_location_map raw_items) <->
  (forall item, item ∈ raw_items ->
     item_department item = utf8 "admin" -> item_content item <> [] ->
     is_Some (clean_text_advanced (item_content item) (utf8 "admin"))).
Proof.
  unfold build_location_map. rewrite build_from_total. unfold cleaned_for_map.
  split; intros Hall item Hin.
  - intros Hd Hc. by apply Hall.
  - intros [Hd Hc]. by apply Hall.
Qed.

(** X10. Every entry of the location map comes from an office record
    extracted from the cleaned content of an [admin] item in which a
    known building was detected: the key is the Chinese name, the value is
    [building floor room室] with the detected building and a non-empty
    floor. No key occurs twice. *)
Theorem build_location_map_sound (raw_items : list RawItem) (m : list (str * str)) :
  build_location_map raw_items = Some m ->
  NoDup m.*1
  /\ forall k v, (k, v) ∈ m ->
       exists item clean office,
         item ∈ raw_items
         /\ item_department item = utf8 "admin"
         /\ clean_text_advanced (item_content item) (utf8 "admin") = Some clean
         /\ _detect_building clean = Some (building office)
         /\ known_building (building office)
         /\ office ∈ _extract_office_locations clean (building office)
         /\ floor office <> []
         /\ k = name_zh office
         /\ v = building office ++ utf8 " " ++ floor office ++ utf8 " "
                ++ room office ++ utf8 "室".
Proof.
  unfold build_location_map. intros Hb. split.
  - eapply build_from_NoDup; [exact Hb|constructor].
  - intros k v Hin.
    destruct (build_from_elem _ _ _ _ Hb Hin) as [Hnil|Hloc];
      [by apply elem_of_nil in Hnil|].
    destruct Hloc as (item & clean & office & ? & ? & ? & Hd & ? & ? & [= -> ->]).
    exists item, clean, office. repeat (split; [done|]).
    split; [|done]. apply detect_building_Some in Hd as (patterns & _ & ? & _).
    by exists patterns.
Qed.

Definition office_list : RawItem :=
  {| item_department := utf8 "admin";
     item_success := true;
     item_content := utf8 "行政大樓
## 1樓
- 106 註冊組 (Registrar)";
     item_title := [];
     item_url := [] |}.

Lemma build_location_map_sound_witness :
  NoDup [(utf8 "註冊組", utf8 "行政大樓 1樓 106室")].*1
  /\ forall k v, (k, v) ∈ [(utf8 "註冊組", utf8 "行政大樓 1樓 106室")] ->
       exists item clean office,
         item ∈ [office_list]
         /\ item_department item = utf8 "admin"
         /\ clean_text_advanced (item_content item) (utf8 "admin") = Some clean
         /\ _detect_building clean = Some (building office)
         /\ known_building (building office)
         /\ office ∈ _extract_office_locations clean (building office)
         /\ floor office <> []
         /\ k = name_zh office
         /\ v = building office ++ utf8 " " ++ floor office ++ utf8 " "
                ++ room office ++ utf8 "室".
Proof.
  apply (build_location_map_sound [office_list]). vm_compute. reflexivity.
Defined.

End MapExtras.

Module ChunkExtras.
Import Py PyMore Processor ProcessorMore StrFacts ExtractFacts MoreFacts MapFacts.

(** X11. Every location chunk that [process] makes for an item carries,
    in its metadata, the type [location], the building detected in the
    text of the item (one of the known buildings), a non-empty floor, the
    room, the name of the office with its normalised identifier, and the
    URL and department of the item. *)
Theorem item_location_chunks_metadata (text url department : str) (chunk : Chunk) :
  chunk ∈ item_location_chunks text url department ->
  exists office,
    office ∈ _extract_office_locations text (building office)
    /\ _detect_building text = Some (building office)
    /\ known_building (building office)
    /\ floor office <> []
    /\ metadata chunk !! "type"%string = Some (utf8 "location")
    /\ metadata chunk !! "building"%string = Some (building office)
    /\ metadata chunk !! "floor"%string = Some (floor office)
    /\ metadata chunk !! "room"%string = Some (room office)
    /\ metadata chunk !! "unit_name"%string = Some (name_zh office)
    /\ metadata chunk !! "unit_id"%string = Some (_normalize_unit_id (name_zh office))
    /\ metadata chunk !! "url"%string = Some url
    /\ metadata chunk !! "department"%string = Some department.
Proof.
  unfold item_location_chunks.
  destruct (_detect_building text) as [b|] eqn:Eb; [|by intros ?%elem_of_nil].
  destruct (_ && _); [|by intros ?%elem_of_nil].
  unfold _create_location_chunks.
  intros (office & <- & Hin%list_elem_of_In)%list_elem_of_In%in_map_iff.
  destruct (extracted_office _ _ _ Hin) as [Hb Hf].
  exists office. rewrite Hb. split; [done|]. split; [done|]. split.
  { apply detect_building_Some in Eb as (patterns & _ & ? & _). by exists patterns. }
  split; [done|]. rewrite <- Hb. by repeat split.
Qed.

Definition registrar : Office :=
  {| building := utf8 "行政大樓"; floor := utf8 "1樓"; room := utf8 "106";
     name_zh := utf8 "註冊組"; name_en := utf8 "Registrar" |}.

Definition registrar_chunk : Chunk := location_chunk [] (utf8 "admin") registrar.

Lemma item_location_chunks_metadata_witness :
  exists office,
    office ∈ _extract_office_locations (item_content MapExtras.office_list)
               (building office)
    /\ _detect_building (item_content MapExtras.office_list) = Some (building office)
    /\ known_building (building office)
    /\ floor office <> []
    /\ metadata registrar_chunk !! "type"%string = Some (utf8 "location")
    /\ metadata registrar_chunk !! "building"%string = Some (building office)
    /\ metadata registrar_chunk !! "floor"%string = Some (floor office)
    /\ metadata registrar_chunk !! "room"%string = Some (room office)
    /\ metadata registrar_chunk !! "unit_name"%string = Some (name_zh office)
    /\ metadata registrar_chunk !! "unit_id"%string
       = Some (_normalize_unit_id (name_zh office))
    /\ metadata registrar_chunk !! "url"%string = Some []
    /\ metadata registrar_chunk !! "department"%string = Some (utf8 "admin").
Proof.
  apply (item_location_chunks_metadata (item_content MapExtras.office_list)
           [] (utf8 "admin") registrar_chunk).
  unfold item_location_chunks.
  assert (_detect_building (item_content MapExtras.office_list)
          = Some (utf8 "行政大樓")) as -> by (vm_compute; reflexivity).
  assert (_extract_office_locations (item_content MapExtras.office_list)
            (utf8 "行政大樓") = [registrar]) as -> by (vm_compute; reflexivity).
  assert ((contains (utf8 "## ") (item_content MapExtras.office_list)
           || contains (utf8 "樓") (item_content MapExtras.office_list))
          && contains (utf8 "- ") (item_content MapExtras.office_list) = true)
    as -> by (vm_compute; reflexivity).
  left.
Defined.

End ChunkExtras.

Module MetadataExtras.
Import Py PyMore Processor ProcessorMore StrFacts MoreFacts.

Lemma classify_chunk_type_range (text : str) :
  _classify_chunk_type text = utf8 "phone"
  \/ _classify_chunk_type text = utf8 "service"
  \/ _classify_chunk_type text = utf8 "general".
Proof.
  unfold _classify_chunk_type. destruct (is_empty text); [auto|].
  destruct (any_keyword phone_keywords _); [auto|].
  destruct (any_keyword service_keywords _); auto.
Qed.

Lemma classify_chunk_type_not_location (text : str) :
  _classify_chunk_type text <> utf8 "location".
Proof.
  destruct (classify_chunk_type_range text) as [-> | [-> | ->]];
    vm_compute; discriminate.
Qed.

(** Looks a key up in a chain of insertions. *)
Ltac lookup_key :=
  repeat (rewrite lookup_insert_ne by done);
  rewrite ?lookup_insert_eq, ?lookup_empty; try done; try congruence.

(** X12. The metadata that [process] attaches to the generic chunks of a
    document never has the type [location] (the type is [phone],
    [service] or [general]) and never has a building, a floor or a room;
    a [unit_id], when present, is non-empty and is the normalised
    [unit_name] of the same metadata. *)
Theorem document_metadata_generic (item_title url department text : str) :
  let md := document_metadata item_title url department text in
  md !! "type"%string = Some (_classify_chunk_type text)
  /\ md !! "type"%string <> Some (utf8 "location")
  /\ md !! "building"%string = None
  /\ md !! "floor"%string = None
  /\ md !! "room"%string = None
  /\ md !! "url"%string = Some url
  /\ md !! "department"%string = Some department
  /\ forall unit_id,
       md !! "unit_id"%string = Some unit_id ->
       unit_id <> []
       /\ exists unit_name,
            md !! "unit_name"%string = Some unit_name
            /\ unit_id = _normalize_unit_id unit_name.
Proof.
  intros md. subst md. unfold document_metadata.
  set (title := if negb (is_empty item_title) then item_title else _extract_title text).
  set (unit_name := match _extract_unit_name_from_text title with
                    | Some (c :: u) => Some (c :: u)
                    | _ => _extract_unit_name_from_text text
                    end).
  pose proof (classify_chunk_type_not_location text) as Hty.
  destruct unit_name as [[|c u]|].
  - cbn [is_empty negb]. do 7 (split; [lookup_key|]). intros unit_id. lookup_key.
  - destruct (_normalize_unit_id (c :: u)) as [|x uid] eqn:En.
    + cbn [is_empty negb]. do 7 (split; [lookup_key|]). intros unit_id. lookup_key.
    + cbn [is_empty negb]. do 7 (split; [lookup_key|]). intros unit_id.
      rewrite lookup_insert_eq. intros [= <-]. split; [done|].
      exists (c :: u). by lookup_key.
  - cbn [is_empty negb]. do 7 (split; [lookup_key|]). intros unit_id. lookup_key.
Qed.

End MetadataExtras.

(** ** Part XX. [DataProcessor]: titles and unit names *)

Module TitleFacts.
Import Py Processor StrFacts StrMore CleanMore.

(** *** [strip] once is enough *)








(** *** The lines of a text *)

Lemma LF_eqb_false c : (LF =? c) = false -> c <> LF.
Proof. intros H%N.eqb_neq. congruence. Qed.





End TitleFacts.

Module TitleExtras.
Import Py Processor StrFacts StrMore CleanMore TitleFacts.


End TitleExtras.

Module RegexFacts.
Import Py StrFacts.

(** What a bounded repetition hands to its continuation. *)
Lemma rep_from_result {R} p lo hi (k : str -> str -> option R) acc s r :
  Re.rep_from p lo hi k acc s = Some r ->
  exists g s', s = g ++ s' /\ forallb p g = true
               /\ (lo <= length g <= hi)%nat /\ k (acc ++ g) s' = Some r.
Proof.
  assert (Hstop : forall lo' hi' acc' s',
    match lo' with O => k acc' s' | S _ => None end = Some r ->
    exists g s'', s' = g ++ s'' /\ forallb p g = true
                  /\ (lo' <= length g <= hi')%nat /\ k (acc' ++ g) s'' = Some r).
  { intros [|lo'] hi' acc' s' Hk; [|done]. exists [], s'. rewrite app_nil_r.
    repeat split; simpl; try done; lia. }
  revert lo acc s. induction hi as [|hi IH]; intros lo acc s.
  - simpl. apply Hstop.
  - destruct s as [|c s]; [apply Hstop|]. simpl. destruct (p c) eqn:Ec; [|apply Hstop].
    destruct (Re.rep_from p (pred lo) hi k (acc ++ [c]) s) as [r'|] eqn:E; [|apply Hstop].
    intros [= ->]. apply IH in E as (g & s' & -> & Hg & Hlen & Hk).
    exists (c :: g), s'. rewrite <- app_assoc in Hk. simpl. rewrite Ec, Hg.
    repeat split; try done; lia.
Qed.

Lemma rep_result {R} p lo hi (k : str -> str -> option R) s r :
  Re.rep p lo hi k s = Some r ->
  exists g s', s = g ++ s' /\ forallb p g = true
               /\ (lo <= length g <= hi)%nat /\ k g s' = Some r.
Proof. apply rep_from_result. Qed.

Lemma lit_result {R} c (k : str -> option R) s r :
  Re.lit c k s = Some r -> exists s', s = c :: s' /\ k s' = Some r.
Proof.
  unfold Re.lit. destruct s as [|x s]; [done|].
  destruct (N.eqb_spec x c) as [->|]; [eauto|done].
Qed.

Lemma lits_result {R} w (k : str -> option R) s r :
  Re.lits w k s = Some r -> exists s', s = w ++ s' /\ k s' = Some r.
Proof.
  revert s. induction w as [|c w IH]; intros s; simpl; [eauto|].
  intros (s1 & -> & (s' & -> & Hk)%IH)%lit_result. eauto.
Qed.


Lemma findall_go_result (m : str -> option str) skip s g :
  g ∈ Re.findall_go m skip s -> exists pre s', s = pre ++ s' /\ m s' = Some g.
Proof.
  revert skip. induction s as [|c s IH]; intros skip; simpl.
  - by intros ?%elem_of_nil.
  - assert (Hrest : forall k, g ∈ Re.findall_go m k s ->
              exists pre s', c :: s = pre ++ s' /\ m s' = Some g).
    { intros k (pre & s' & -> & Hm)%IH. by exists (c :: pre), s'. }
    destruct skip as [|k]; [|apply Hrest].
    destruct (m (c :: s)) as [g'|] eqn:E; [|apply Hrest].
    intros [->|Hin]%elem_of_cons; [by exists [], (c :: s)|by eapply Hrest].
Qed.

Lemma findall_result (m : str -> option str) s g :
  g ∈ Re.findall m s -> exists pre s', s = pre ++ s' /\ m s' = Some g.
Proof. apply findall_go_result. Qed.


End RegexFacts.

Module UnitNameFacts.
Import Py Processor StrFacts StrMore CleanMore TitleFacts RegexFacts.

(** A suffix has no white space at either end. *)
Definition solid (suffix : str) : Prop :=
  exists y rest init z, suffix = y :: rest /\ suffix = init ++ [z]
                        /\ isspace y = false /\ isspace z = false.


Lemma rstrip_solid (x init : str) z :
  isspace z = false -> rstrip (x ++ init ++ [z]) = x ++ init ++ [z].
Proof.
  intros Hz. unfold rstrip. rewrite app_assoc, rev_app_distr. simpl. rewrite Hz.
  change (z :: rev (x ++ init)) with (rev [z] ++ rev (x ++ init)).
  by rewrite <- rev_app_distr, rev_involutive.
Qed.

(** Stripping a match keeps its suffix. *)
Lemma strip_unit (g suffix : str) :
  solid suffix ->
  strip (g ++ suffix) = drop_while isspace g ++ suffix.
Proof.
  intros (y & rest & init & z & Hy & Hz & Hys & Hzs). unfold strip, lstrip.
  rewrite drop_while_app.
  assert (Hsuf : drop_while isspace suffix = suffix).
  { rewrite Hy. simpl. by rewrite Hys. }
  destruct (forallb isspace g) eqn:Eg.
  - rewrite (drop_while_all _ _ Eg), Hsuf. simpl. rewrite Hz.
    apply (rstrip_solid [] init z Hzs).
  - rewrite Hz. by apply rstrip_solid.
Qed.



End UnitNameFacts.

Module UnitNameExtras.
Import Py Processor StrFacts StrMore CleanMore TitleFacts RegexFacts UnitNameFacts.



End UnitNameExtras.

(** ** Part XXI. [EnhancedRAGEngine]: unit names, failures and queries *)

Module UnitsFacts.
Import Py RagEngine StrFacts StrMore RegexFacts UnitNameFacts.

Lemma unit_patterns_solid hi suffix :
  (hi, suffix) ∈ unit_patterns -> solid suffix.
Proof.
  intros Hin.
  assert (Hall : Forall (fun pat : nat * str =>
            isspace (hd 0 pat.2) = false /\ isspace (List.last pat.2 0) = false
            /\ pat.2 = hd 0 pat.2 :: tl pat.2
            /\ pat.2 = removelast pat.2 ++ [List.last pat.2 0]) unit_patterns).
  { repeat (constructor; [by vm_compute|]). constructor. }
  rewrite Forall_forall in Hall. destruct (Hall _ Hin) as (Hy & Hz & Hs & Hs').
  by exists (hd 0 suffix), (tl suffix), (removelast suffix), (List.last suffix 0).
Qed.

Lemma name_char_solid (g : str) :
  forallb name_char g = true -> drop_while isspace g = g.
Proof.
  destruct g as [|c g]; [done|]. simpl. intros [Hc _]%andb_true_iff.
  unfold name_char in Hc. apply negb_true_iff, orb_false_iff in Hc as [-> _]. done.
Qed.

Lemma engine_unit_pattern_result hi suffix s m :
  unit_pattern hi suffix s = Some m ->
  exists g rest, s = (g ++ suffix) ++ rest /\ m = g ++ suffix
                 /\ forallb name_char g = true /\ (2 <= length g <= hi)%nat.
Proof.
  unfold unit_pattern.
  intros (g & s' & -> & Hg & Hlen & (rest & -> & [= <-])%lits_result)%rep_result.
  exists g, rest. by rewrite <- app_assoc.
Qed.

Lemma keep_unit_Some m u :
  keep_unit m = Some u ->
  u = strip m
  /\ (forall c, head u = Some c -> isdigit_char c = false)
  /\ (u ∉ exclude_terms)
  /\ (forall v, v ∈ verb_chars -> contains v u = false).
Proof.
  unfold keep_unit.
  destruct (match strip m with c :: _ => isdigit_char c | [] => false end) eqn:Ed;
    [done|].
  case_bool_decide as Hex; [done|].
  destruct (existsb _ verb_chars) eqn:Ev; [done|]. intros [= <-].
  split; [done|]. split.
  { intros c Hc. destruct (strip m); [done|]. by injection Hc as ->. }
  split; [done|]. intros v Hv%list_elem_of_In.
  destruct (contains v (strip m)) eqn:Ec; [|done].
  rewrite <- Ev. symmetry. apply existsb_exists. eauto.
Qed.

Lemma extracted_units_elem text u :
  u ∈ extracted_units text ->
  exists hi suffix m,
    (hi, suffix) ∈ unit_patterns
    /\ m ∈ Re.findall (unit_pattern hi suffix) text
    /\ keep_unit m = Some u.
Proof.
  unfold extracted_units. rewrite elem_of_list_to_set, list_elem_of_omap.
  intros (m & Hm & Hk). apply list_elem_of_In, in_flat_map in Hm as ([hi suffix] & Hp & Hm).
  exists hi, suffix, m. by rewrite !list_elem_of_In.
Qed.

End UnitsFacts.

Module UnitsExtras.
Import Py RagEngine StrFacts StrMore RegexFacts UnitNameFacts UnitsFacts.

(** X15. Every unit name that [_extract_unit_names] returns is a run of 2
    to [hi] characters other than white space and the four separators,
    followed by the suffix of one of the six patterns ([hi] is 6, or 8 for
    [中心]); it occurs in the text, does not start with a digit, is not a
    stop word and has none of the six verb characters. *)
Theorem extract_unit_names_filtered (listing : gset str -> list str) (text u : str) :
  (forall (X : gset str) x, x ∈ listing X -> x ∈ X) ->
  u ∈ _extract_unit_names listing text ->
  exists hi suffix g,
    (hi, suffix) ∈ unit_patterns
    /\ u = g ++ suffix
    /\ (2 <= length g <= hi)%nat
    /\ forallb name_char g = true
    /\ contains u text = true
    /\ (forall c, head u = Some c -> isdigit_char c = false)
    /\ (u ∉ exclude_terms)
    /\ (forall v, v ∈ verb_chars -> contains v u = false).
Proof.
  intros Hsound Hin%Hsound.
  apply extracted_units_elem in Hin as (hi & suffix & m & Hp & Hm & Hk).
  apply findall_result in Hm as (pre & s' & -> & Hm).
  apply engine_unit_pattern_result in Hm as (g & rest & -> & -> & Hg & Hlen).
  apply keep_unit_Some in Hk as (Hu & Hd & Hex & Hv).
  rewrite (strip_unit g suffix (unit_patterns_solid _ _ Hp)) in Hu.
  rewrite (name_char_solid _ Hg) in Hu. subst u.
  exists hi, suffix, g. repeat (split; [done|]). split; [|done].
  apply contains_spec. eauto.
Qed.

Lemma extract_unit_names_filtered_witness :
  exists hi suffix g,
    (hi, suffix) ∈ unit_patterns
    /\ utf8 "請洽註冊組" = g ++ suffix
    /\ (2 <= length g <= hi)%nat
    /\ forallb name_char g = true
    /\ contains (utf8 "請洽註冊組") (utf8 "請洽註冊組 辦理") = true
    /\ (forall c, head (utf8 "請洽註冊組") = Some c -> isdigit_char c = false)
    /\ (utf8 "請洽註冊組" ∉ exclude_terms)
    /\ (forall v, v ∈ verb_chars -> contains v (utf8 "請洽註冊組") = false).
Proof.
  apply (extract_unit_names_filtered Reference.listing_elements
           (utf8 "請洽註冊組 辦理")).
  - intros X x. apply elem_of_elements.
  - apply elem_of_elements, elem_of_list_to_set.
    apply (bool_decide_unpack _). vm_compute. exact I.
Defined.

End UnitsExtras.

Module EngineExtras.
Import Py RagEngine Reference RerankFacts EngFacts RetrieveFacts RetrieveMore.

Definition call (q : str) (n : nat) : Call :=
  {| call_text := q; call_n := n; call_where := None |}.

Section Failures.
Context {D : Type} `{Dist D}.
Variable collection : Collection D.
Variable listing : gset str -> list str.

(** X16. [retrieve] returns whenever the queries without a filter do: a
    failure of a filtered query is caught and answered by the same query
    without the filter. *)
Theorem retrieve_returns (q : str) (use_two_stage : bool) :
  (forall q' n, is_Some (query collection q' n None)) ->
  is_Some (retrieve collection listing q use_two_stage).1.
Proof.
  intros Hplain.
  assert (Hq : forall q' n, is_Some (do_query collection q' n None).1)
    by (intros; apply Hplain).
  assert (Hprio : forall intent, is_Some (retrieve_with_priority collection q intent).1).
  { intros. apply bind_total; [apply Hq|]. intros. apply mret_total. }
  unfold retrieve. destruct use_two_stage; cbn [negb]; [|done].
  apply bind_total; [apply Hq|]. intros stage1.
  destruct (resolve_units listing stage1) as [unit_names unit_ids].
  destruct (_ && _); [done|].
  unfold two_stage. apply bind_total.
  - unfold retrieve_stage2. apply bind_total.
    + apply for_each_total. intros.
      apply bind_total; [|intros; apply mret_total].
      apply try_except_total, Hq.
    + intros st. apply bind_total; [|intros; apply mret_total].
      destruct (all_docs st), (listing unit_names); try apply mret_total.
      apply (for_each_total (_ :: _)). intros.
      apply bind_total; [apply Hq|intros; apply mret_total].
  - intros. unfold _append_location_chunks. apply bind_total.
    + apply for_each_total. intros.
      apply bind_total; [|intros; apply mret_total].
      apply try_except_total, Hq.
    + intros st. apply bind_total; [|intros; apply mret_total].
      destruct (listing unit_ids); [|apply mret_total].
      apply for_each_total. intros.
      apply bind_total; [apply Hq|intros; apply mret_total].
Qed.

(** X17. A failure of the first query is not caught: [retrieve] raises
    after that one query, the Stage-1 query for 5 results or, in the
    single-stage mode, the query for 15 results. *)
Theorem retrieve_first_query_fails (q : str) (use_two_stage : bool) :
  query collection q (if use_two_stage then 5 else 15)%nat None = None ->
  retrieve collection listing q use_two_stage
  = (None, [call q (if use_two_stage then 5 else 15)%nat]).
Proof.
  intros Hq. unfold retrieve, retrieve_with_priority, retrieve_stage1, do_query.
  destruct use_two_stage; cbn [negb]; rewrite Hq; done.
Qed.

(** X18. When Stage 1 resolves no unit, its documents are dropped:
    [retrieve] queries the store again, for 15 results, and answers as
    the single-stage retrieval does, which sends that one query. *)
Theorem retrieve_no_units (q : str) (stage1 : QueryResult D) :
  query collection q 5 None = Some stage1 ->
  resolve_units listing stage1 = (∅, ∅) ->
  (retrieve collection listing q false).2 = [call q 15]
  /\ retrieve collection listing q true
     = ((retrieve collection listing q false).1,
        call q 5 :: (retrieve collection listing q false).2).
Proof.
  intros Hq Hunits. split.
  - unfold retrieve, retrieve_with_priority, do_query. cbn [negb].
    by destruct (query collection q 15 None).
  - unfold retrieve, retrieve_stage1. cbn [negb].
    unfold do_query at 1. rewrite Hq. cbn [mbind eng_bind]. rewrite Hunits.
    rewrite !bool_decide_eq_true_2 by done. cbn [andb].
    by destruct (retrieve_with_priority collection q (_get_query_intent q)).
Qed.

(** *** The number of queries *)

Lemma bind_length {A B} (m : Eng A) (f : A -> Eng B) a b :
  (length m.2 <= a)%nat -> (forall x, (length (f x).2 <= b)%nat) ->
  (length (m ≫= f).2 <= a + b)%nat.
Proof.
  destruct m as [[x|] c1]; unfold mbind, eng_bind; simpl; [|lia].
  intros Ha Hb. specialize (Hb x). destruct (f x) as [r c2]. simpl in *.
  rewrite length_app. lia.
Qed.

Lemma try_query_length q n w q' n' w' :
  (length (try_except (do_query collection q n w) (do_query collection q' n' w')).2
   <= 2)%nat.
Proof. unfold try_except, do_query. destruct (query collection q n w); simpl; lia. Qed.

Lemma for_each_length {A St} (xs : list A) (body : St -> A -> Eng St) st k :
  (forall x s, (length (body s x).2 <= k)%nat) ->
  (length (for_each xs body st).2 <= k * length xs)%nat.
Proof.
  intros Hbody. revert st. induction xs as [|x xs IH]; intros st; simpl; [lia|].
  replace (k * S (length xs))%nat with (k + k * length xs)%nat by lia.
  apply bind_length; [apply Hbody|]. intros. apply IH.
Qed.

Lemma mret_length {A} (a : A) n : (length (mret a : Eng A).2 <= n)%nat.
Proof. simpl. lia. Qed.

(** X19. The queries of a retrieval are bounded by the units resolved:
    after Stage 1, at most four queries for each unit identifier and two
    for each unit name. *)
Theorem two_stage_query_count (q intent : str) (unit_names unit_ids : gset str) :
  (length (two_stage collection listing q intent unit_names unit_ids).2
   <= 4 * length (listing unit_ids) + 2 * length (listing unit_names))%nat.
Proof.
  set (ids := listing unit_ids). set (names := listing unit_names).
  assert (Hbody_id : forall {St} (g : St -> QueryResult D -> St) q1 n1 w1 q2 n2 w2 s,
    (length ((try_except (do_query collection q1 n1 w1) (do_query collection q2 n2 w2))
             ≫= (fun r => mret (g s r))).2 <= 2)%nat).
  { intros. replace 2%nat with (2 + 0)%nat by lia.
    apply bind_length; [apply try_query_length|]. intros. apply mret_length. }
  assert (Hbody_name : forall {St} (g : St -> QueryResult D -> St) q1 n1 s,
    (length ((do_query collection q1 n1 None) ≫= (fun r => mret (g s r))).2 <= 1)%nat).
  { intros. replace 1%nat with (1 + 0)%nat by lia.
    apply bind_length; [done|]. intros. apply mret_length. }
  unfold two_stage. fold ids names.
  replace (4 * length ids + 2 * length names)%nat
    with ((2 * length ids + (1 * length names + 0))
          + (2 * length ids + (1 * length names + 0)))%nat by lia.
  apply bind_length.
  - unfold retrieve_stage2. apply bind_length.
    + apply for_each_length. intros u st. apply Hbody_id.
    + intros st. apply bind_length; [|intros; apply mret_length].
      destruct (all_docs st), names as [|name names']; try apply mret_length.
      apply (for_each_length (name :: names')). intros u st'. apply Hbody_name.
  - intros s2. unfold _append_location_chunks. apply bind_length.
    + apply for_each_length. intros u st. apply Hbody_id.
    + intros st. apply bind_length; [|intros; apply mret_length].
      destruct ids; [|apply mret_length].
      apply for_each_length. intros u st'. apply Hbody_name.
Qed.

End Failures.

(** A store that rejects every filter, one that always fails, and one
    that has nothing. *)
Definition nothing : QueryResult Q :=
  {| documents := []; metadatas := []; distances := [] |}.
Definition unfiltered_only : Collection Q :=
  {| query := fun _ _ w => match w with None => Some nothing | Some _ => None end |}.
Definition failing : Collection Q := {| query := fun _ _ _ => None |}.

(** A page of the Registrar, with its unit in the metadata, and a
    distance that grows with the length of the text. *)
Definition registrar_page (body : string) : Processor.Chunk :=
  {| Processor.text := utf8 body;
     Processor.metadata :=
       <["title" := utf8 "註冊組"]>
       (<["url" := utf8 "https://www.aca.ntu.edu.tw/"]>
       (<["type" := utf8 "service"]>
       (<["unit_name" := utf8 "註冊組"]>
       (<["unit_id" := utf8 "註冊組"]> ∅)))) |}.

Definition by_length (q : str) (c : Processor.Chunk) : Q :=
  (Z.of_nat (length (Processor.text c)) # 10)%Q.

(** A store with two pages that rejects every filter. *)
Definition filter_rejecting : Collection Q :=
  {| query := fun q n w =>
       match w with
       | None =>
         query (knn_collection [registrar_page "休學"; registrar_page "休學申請"]
                  by_length) q n None
       | Some _ => None
       end |}.

(** Stage 1 resolves the unit of the pages; the filtered query of Stage 2
    and the filtered query of the augmentation both fail and are sent
    again without the filter, and [retrieve] returns. *)
Lemma retrieve_returns_witness :
  is_Some (retrieve filter_rejecting listing_elements (utf8 "休學") true).1
  /\ (retrieve filter_rejecting listing_elements (utf8 "休學") true).2
     = [call (utf8 "休學") 5;
        {| call_text := utf8 "休學"; call_n := 10;
           call_where := Some [("unit_id"%string, utf8 "註冊組")] |};
        call (utf8 "休學") 10;
        {| call_text := utf8 "註冊組"; call_n := 2;
           call_where := Some [("unit_id"%string, utf8 "註冊組");
                               ("type"%string, utf8 "location")] |};
        call (utf8 "註冊組") 2].
Proof.
  split.
  - apply retrieve_returns. intros q' n. by eexists.
  - vm_compute. reflexivity.
Defined.

Lemma retrieve_first_query_fails_witness :
  retrieve failing listing_elements (utf8 "註冊組在哪") true
  = (None, [call (utf8 "註冊組在哪") (if true then 5 else 15)%nat]).
Proof. by apply (retrieve_first_query_fails failing listing_elements _ true). Defined.

Lemma retrieve_no_units_witness :
  (retrieve unfiltered_only listing_elements (utf8 "註冊組在哪") false).2
  = [call (utf8 "註冊組在哪") 15]
  /\ retrieve unfiltered_only listing_elements (utf8 "註冊組在哪") true
     = ((retrieve unfiltered_only listing_elements (utf8 "註冊組在哪") false).1,
        call (utf8 "註冊組在哪") 5
        :: (retrieve unfiltered_only listing_elements (utf8 "註冊組在哪") false).2).
Proof. by apply (retrieve_no_units unfiltered_only listing_elements _ nothing). Defined.

End EngineExtras.

Module RerankExtras.
Import Py RagEngine Reference RerankFacts EngFacts RetrieveFacts.

Section NoBoost.
Context {D : Type} `{Dist D}.

Lemma boost_general (x : str * Meta * D) : boost (utf8 "general") x = x.
Proof.
  destruct x as [[d m] x]. unfold boost, _apply_type_boost. cbn [fst snd].
  assert (str_eqb (utf8 "general") (utf8 "location") = false) as -> by by vm_compute.
  assert (str_eqb (utf8 "general") (utf8 "phone") = false) as -> by by vm_compute.
  assert (str_eqb (utf8 "general") (utf8 "service") = false) as -> by by vm_compute.
  done.
Qed.

(** The stable sort leaves an ascending list as it is. *)
Lemma sort_by_distance_sorted_id (l : list (str * Meta * D)) :
  Sorted (fun x y : str * Meta * D => dle x.2 y.2) l -> sort_by_distance l = l.
Proof.
  induction l as [|x l IH]; [done|]. intros [Hs Hhd]%Sorted_inv.
  simpl. rewrite (IH Hs). destruct Hhd as [|y l' Hxy]; [done|].
  simpl. unfold dle in Hxy. by rewrite Hxy.
Qed.

Lemma Sorted_zip_snd {A} (l : list A) (dists : list D) :
  Sorted dle dists -> Sorted (fun x y : A * D => dle x.2 y.2) (zip l dists).
Proof.
  intros Hs. revert l. induction Hs as [|d dists Hs IH Hhd]; intros l.
  - destruct l; constructor.
  - destruct l as [|a l]; [constructor|]. cbn [zip zip_with].
    constructor; [apply IH|].
    destruct Hhd as [|d' dists' Hd]; destruct l; cbn [zip zip_with]; by constructor.
Qed.

Lemma Sorted_zip3 (docs : list str) (metas : list Meta) (dists : list D) :
  Sorted dle dists ->
  Sorted (fun x y : str * Meta * D => dle x.2 y.2) (zip3 docs metas dists).
Proof. apply Sorted_zip_snd. Qed.

Lemma unzip3_take (docs : list str) (metas : list Meta) (dists : list D) k :
  length docs = length metas -> length docs = length dists ->
  unzip3 (take k (zip3 docs metas dists))
  = {| documents := take k docs; metadatas := take k metas;
       distances := take k dists |}.
Proof.
  revert docs metas dists.
  induction k as [|k IH]; intros [|doc docs] [|meta metas] [|d dists]; try done.
  intros [= Hm] [= Hd]. specialize (IH docs metas dists Hm Hd).
  unfold unzip3, zip3 in *. cbn [zip zip_with take map fst snd].
  injection IH as -> -> ->. done.
Qed.

(** X20. For the intent [general], reranking results that are already in
    ascending order of distance, as a store returns them, keeps the first
    [top_k] of them as they are: nothing is boosted and the stable sort
    moves nothing. *)
Theorem rerank_general_sorted (docs : list str) (metas : list Meta) (dists : list D)
    (top_k : nat) :
  length docs = length metas -> length docs = length dists ->
  Sorted dle dists ->
  _rerank_with_intent docs metas dists (utf8 "general") top_k
  = {| documents := take top_k docs;
       metadatas := take top_k metas;
       distances := take top_k dists |}.
Proof.
  intros Hm Hd Hs. rewrite rerank_unfold.
  assert (map (boost (utf8 "general")) (zip3 docs metas dists) = zip3 docs metas dists)
    as ->.
  { rewrite <- (map_id (zip3 docs metas dists)) at 2.
    apply map_ext. intros. apply boost_general. }
  rewrite (sort_by_distance_sorted_id _ (Sorted_zip3 docs metas dists Hs)).
  by apply unzip3_take.
Qed.

End NoBoost.

Lemma rerank_general_sorted_witness :
  _rerank_with_intent [utf8 "a"; utf8 "b"] [∅; ∅] [0.1%Q; 0.3%Q] (utf8 "general") 1
  = {| documents := take 1 [utf8 "a"; utf8 "b"];
       metadatas := take 1 [∅; ∅];
       distances := take 1 [0.1%Q; 0.3%Q] |}.
Proof.
  apply rerank_general_sorted; [done|done|].
  repeat constructor.
Defined.

Section Stage2.
Context {D : Type} `{DistOrder D}.
Variable collection : Collection D.

(** X21. What [retrieve_stage2] returns has at most [n_results]
    candidates, three lists of the same length, in ascending order of
    distance. *)
Theorem retrieve_stage2_shape (unit_names unit_ids : list str) (q : str)
    (n_results : nat) (r : QueryResult D) (calls : list Call) :
  retrieve_stage2 collection unit_names unit_ids q n_results = (Some r, calls) ->
  (length (documents r) <= n_results)%nat
  /\ length (metadatas r) = length (documents r)
  /\ length (distances r) = length (documents r)
  /\ StronglySorted dle (distances r).
Proof.
  unfold retrieve_stage2.
  intros (st1 & c1 & c2 & _ & (st2 & c3 & c4 & _ & [= <- _] & _)%bind_Some & _)%bind_Some.
  set (sorted := sort_by_distance _).
  destruct (unzip3_lengths (take (length sorted `min` n_results) sorted))
    as (Hd & Hm & Hx).
  rewrite Hd, Hm, Hx. split; [rewrite length_take; lia|]. split; [done|].
  split; [done|].
  apply StronglySorted_distances, StronglySorted_take, sort_by_distance_sorted.
Qed.

End Stage2.

Definition one_hit : Collection Q :=
  {| query := fun _ _ _ =>
       Some {| documents := [utf8 "a"]; metadatas := [∅]; distances := [0.1%Q] |} |}.

(** Two units with two pages each: Stage 2 merges the pages of the first
    unit, at 0.1 and 0.4, with those of the second, at 0.2 and 0.3. *)
Definition unit_page (unit_id body : string) : Processor.Chunk :=
  {| Processor.text := utf8 body;
     Processor.metadata :=
       <["title" := utf8 unit_id]>
       (<["url" := utf8 "https://www.aca.ntu.edu.tw/"]>
       (<["type" := utf8 "service"]>
       (<["unit_id" := utf8 unit_id]> ∅))) |}.

Definition two_units : Collection Q :=
  knn_collection
    [unit_page "註冊組" "a"; unit_page "註冊組" "abcd";
     unit_page "課務組" "ab"; unit_page "課務組" "abc"] EngineExtras.by_length.

(** What Stage 2 answers for the two units and [n_results = 3]: of the
    four pages merged in the order 0.1, 0.4, 0.2, 0.3, the three nearest,
    in ascending order. *)
Definition stage2_answer : QueryResult Q :=
  unzip3 [(utf8 "a", Processor.metadata (unit_page "註冊組" "a"), (1 # 10)%Q);
          (utf8 "ab", Processor.metadata (unit_page "課務組" "ab"), (2 # 10)%Q);
          (utf8 "abc", Processor.metadata (unit_page "課務組" "abc"), (3 # 10)%Q)].

Lemma retrieve_stage2_shape_witness :
  (length (documents stage2_answer) <= 3)%nat
  /\ length (metadatas stage2_answer) = length (documents stage2_answer)
  /\ length (distances stage2_answer) = length (documents stage2_answer)
  /\ StronglySorted dle (distances stage2_answer).
Proof.
  apply (retrieve_stage2_shape two_units [] [utf8 "註冊組"; utf8 "課務組"] (utf8 "q") 3
           stage2_answer
           [{| call_text := utf8 "q"; call_n := 3;
               call_where := Some [("unit_id"%string, utf8 "註冊組")] |};
            {| call_text := utf8 "q"; call_n := 3;
               call_where := Some [("unit_id"%string, utf8 "課務組")] |}]).
  vm_compute. reflexivity.
Defined.

End RerankExtras.

(** ** Part XXII. The prompt of [generate_response] *)

Module AppFacts.
Import Py RagEngine Processor ProcessorMore App StrFacts StrMore RerankFacts
  EngFacts RetrieveFacts MoreFacts UnitNameFacts.

(** *** The context *)

Lemma context_from_total idx docs metas acc :
  is_Some (context_from idx docs metas acc)
  <-> docs = [] \/ (idx + length docs <= length metas)%nat.
Proof.
  revert idx acc. induction docs as [|doc docs IH]; intros idx acc; simpl.
  - split; [by left|eauto].
  - destruct (metas !! idx) as [meta|] eqn:E; cbn [mbind option_bind].
    + apply lookup_lt_Some in E. rewrite IH. split.
      * intros [->|Hlen]; right; simpl; lia.
      * intros [?|Hlen]; [done|]. right. lia.
    + apply lookup_ge_None in E. split; [by intros [? ?]|].
      intros [?|Hlen]; [done|lia].
Qed.

(** Whatever [retrieve] returns is three lists made together. *)
Lemma retrieve_unzipped {D} `{Dist D} (collection : Collection D) listing q
    use_two_stage (r : QueryResult D) calls :
  retrieve collection listing q use_two_stage = (Some r, calls) ->
  exists l, r = unzip3 l.
Proof.
  intros Hr. apply retrieve_cases in Hr as [[c Hp]|(_ & stage1 & c & _ & _ & Ht)].
  - apply (priority_result collection (fun _ => True)) in Hp as (pool & -> & _).
    + eauto.
    + intros. by apply Forall_forall.
    + done.
  - apply (two_stage_result collection listing (fun _ => True)) in Ht
      as (pool & appended & -> & _).
    + eauto.
    + intros. by apply Forall_forall.
    + done.
Qed.

(** *** The location hints *)

(** [seen_locations] is the set of the lines, and no line is there
    twice. *)
Definition hints_inv (st : list str * gset str) : Prop :=
  NoDup st.1 /\ forall line, line ∈ st.2 <-> line ∈ st.1.

Lemma add_hint_inv st meta : hints_inv st -> hints_inv (add_hint st meta).
Proof.
  intros [Hnd Hseen]. unfold add_hint. case_bool_decide; [|done].
  destruct (location_line meta) as [line|]; [|done].
  case_bool_decide as Hin; [done|]. split; simpl.
  - apply NoDup_app. split; [done|]. split; [|apply NoDup_singleton].
    intros x Hx ->%list_elem_of_singleton. by apply Hin, Hseen.
  - intros x. rewrite elem_of_union, elem_of_singleton, elem_of_app,
      list_elem_of_singleton, Hseen. tauto.
Qed.

Lemma fold_add_hint_inv metas st :
  hints_inv st -> hints_inv (fold_left add_hint metas st).
Proof.
  revert st. induction metas as [|meta metas IH]; intros st Hst; simpl; [done|].
  by apply IH, add_hint_inv.
Qed.

(** The metadata whose line is [line]. *)
Definition hinted (metas : list Meta) (line : str) : Prop :=
  exists meta, meta ∈ metas /\ meta !! "type"%string = Some (utf8 "location")
               /\ location_line meta = Some line.

Lemma add_hint_elem st meta line :
  line ∈ (add_hint st meta).1 -> line ∈ st.1 \/ hinted [meta] line.
Proof.
  unfold add_hint. case_bool_decide as Hty; [|by left].
  destruct (location_line meta) as [line'|] eqn:El; [|by left].
  case_bool_decide; [by left|]. simpl.
  intros [?| ->%list_elem_of_singleton]%elem_of_app; [by left|].
  right. exists meta. split; [left|done].
Qed.

Lemma fold_add_hint_elem metas st line :
  line ∈ (fold_left add_hint metas st).1 -> line ∈ st.1 \/ hinted metas line.
Proof.
  revert st. induction metas as [|meta metas IH]; intros st; simpl; [by left|].
  intros [Hin|(m & Hm & H)]%IH.
  - apply add_hint_elem in Hin as [?|(m & Hm%list_elem_of_singleton & H)]; [by left|].
    right. exists m. split; [rewrite Hm; left|done].
  - right. exists m. split; [by right|done].
Qed.

Lemma add_hint_keeps st meta line : line ∈ st.1 -> line ∈ (add_hint st meta).1.
Proof.
  intros Hin. unfold add_hint. case_bool_decide; [|done].
  destruct (location_line meta); [|done]. case_bool_decide; [done|].
  simpl. apply elem_of_app. by left.
Qed.

Lemma fold_add_hint_keeps metas st line :
  line ∈ st.1 -> line ∈ (fold_left add_hint metas st).1.
Proof.
  revert st. induction metas as [|meta metas IH]; intros st Hin; simpl; [done|].
  by apply IH, add_hint_keeps.
Qed.

Lemma add_hint_adds st meta line :
  hints_inv st -> meta !! "type"%string = Some (utf8 "location") ->
  location_line meta = Some line -> line ∈ (add_hint st meta).1.
Proof.
  intros [_ Hseen] Hty Hl. unfold add_hint.
  rewrite bool_decide_eq_true_2 by done. rewrite Hl.
  case_bool_decide as Hin; [by apply Hseen|]. simpl. apply elem_of_app. right. left.
Qed.

Lemma fold_add_hint_complete metas st line :
  hints_inv st -> hinted metas line -> line ∈ (fold_left add_hint metas st).1.
Proof.
  revert st. induction metas as [|meta metas IH]; intros st Hst (m & Hm & Hty & Hl).
  - by apply elem_of_nil in Hm.
  - simpl. apply elem_of_cons in Hm as [->|Hm].
    + apply fold_add_hint_keeps. by apply add_hint_adds.
    + apply IH; [by apply add_hint_inv|]. by exists m.
Qed.

Lemma strip_solid_ends y (rest mid suffix init : str) z :
  suffix = init ++ [z] -> isspace y = false -> isspace z = false ->
  strip ((y :: rest) ++ mid ++ suffix) = (y :: rest) ++ mid ++ suffix.
Proof.
  intros -> Hy Hz. unfold strip, lstrip. cbn [app drop_while]. rewrite Hy.
  change (y :: rest ++ mid ++ init ++ [z]) with ((y :: rest) ++ mid ++ init ++ [z]).
  rewrite (app_assoc (y :: rest) mid).
  apply (rstrip_solid ((y :: rest) ++ mid) init z Hz).
Qed.

(** The text of a location is never empty: it ends in [室]. *)
Lemma location_line_Some meta : is_Some (location_line meta).
Proof.
  unfold location_line.
  set (building := default [] (meta !! "building"%string)).
  set (floor := default [] (meta !! "floor"%string)).
  set (room := default [] (meta !! "room"%string)).
  assert (Hs : exists x, strip (building ++ utf8 " " ++ floor ++ utf8 " " ++ room
                                ++ utf8 "室") = x ++ utf8 "室").
  { exists (drop_while isspace (building ++ utf8 " " ++ floor ++ utf8 " " ++ room)).
    rewrite <- strip_unit.
    - by rewrite <- !app_assoc.
    - exists (ch "室"), [], [], (ch "室"). by vm_compute. }
  destruct Hs as [x ->]. destruct (x ++ utf8 "室") eqn:E.
  { by destruct x. }
  cbn [is_empty]. destruct (negb _); eauto.
Qed.

End AppFacts.

Module AppExtras.
Import Py RagEngine Processor ProcessorMore App StrFacts StrMore RerankFacts
  EngFacts RetrieveFacts MoreFacts UnitNameFacts AppFacts.

(** X22. The loop that builds the context of the prompt fails, with the
    [IndexError] of [metadatas[idx]], exactly when there are fewer
    metadata than documents. *)
Theorem context_text_total {D} (context_docs : QueryResult D) :
  is_Some (context_text context_docs)
  <-> (length (documents context_docs) <= length (metadatas context_docs))%nat.
Proof.
  unfold context_text. rewrite context_from_total. split; [|by right].
  intros [->|?]; simpl; lia.
Qed.

(** X23. On whatever [retrieve] returns, the context of the prompt is
    built without an [IndexError]: the documents and the metadata of a
    result have the same length. *)
Theorem context_text_of_retrieve {D} `{Dist D} (collection : Collection D)
    (listing : gset str -> list str) (q : str) (use_two_stage : bool)
    (r : QueryResult D) (calls : list Call) :
  retrieve collection listing q use_two_stage = (Some r, calls) ->
  length (metadatas r) = length (documents r) /\ is_Some (context_text r).
Proof.
  intros (l & ->)%retrieve_unzipped.
  assert (Hlen : length (metadatas (unzip3 l)) = length (documents (unzip3 l))).
  { simpl. by rewrite !length_map. }
  split; [done|]. apply context_text_total. lia.
Qed.

Lemma context_text_of_retrieve_witness :
  length (metadatas (unzip3 [(utf8 "a", (∅ : Meta), 0.1%Q)]))
  = length (documents (unzip3 [(utf8 "a", (∅ : Meta), 0.1%Q)]))
  /\ is_Some (context_text (unzip3 [(utf8 "a", (∅ : Meta), 0.1%Q)])).
Proof.
  apply (context_text_of_retrieve RerankExtras.one_hit Reference.listing_elements
           (utf8 "q") false _ [EngineExtras.call (utf8 "q") 15]).
  vm_compute. reflexivity.
Defined.

(** X24. The location hints of the prompt are the lines of the metadata
    of type [location], each once; and every metadata has a line: the
    [continue] of the loop is never taken, since the text of a location
    ends in [室] and is never empty. *)
Theorem location_lines_spec (metas : list Meta) :
  NoDup (location_lines metas)
  /\ (forall line,
        line ∈ location_lines metas <->
        exists meta, meta ∈ metas
                     /\ meta !! "type"%string = Some (utf8 "location")
                     /\ location_line meta = Some line)
  /\ (forall meta : Meta, is_Some (location_line meta)).
Proof.
  split; [|split; [|apply location_line_Some]].
  - assert (Hinit : hints_inv ([], ∅)).
    { split; [constructor|]. intros line. cbn [fst snd].
      by rewrite elem_of_empty, elem_of_nil. }
    by apply (fold_add_hint_inv metas _ Hinit).
  - assert (Hinit : hints_inv ([], ∅)).
    { split; [constructor|]. intros line. cbn [fst snd].
      by rewrite elem_of_empty, elem_of_nil. }
    intros line. unfold location_lines. split.
    + intros [Hin|Hh]%fold_add_hint_elem; [by apply elem_of_nil in Hin|done].
    + by apply fold_add_hint_complete.
Qed.

(** X25. For the metadata of a location chunk of the pipeline (a known
    building, a named office) the hint line of the prompt is
    [- name：building floor room室]: the name, then the value that the
    location map has for the office. *)
Theorem location_line_of_chunk (source_url department : str) (office : Office) :
  known_building (building office) -> name_zh office <> [] ->
  location_line (metadata (location_chunk source_url department office))
  = Some (utf8 "- " ++ name_zh office ++ utf8 "：" ++ loc_info office).
Proof.
  intros (patterns & Hb) Hname. unfold location_line, location_chunk. cbn [metadata].
  repeat (rewrite lookup_insert_ne by done). rewrite !lookup_insert_eq.
  repeat (rewrite lookup_insert_ne by done). rewrite !lookup_insert_eq.
  repeat (rewrite lookup_insert_ne by done). rewrite !lookup_insert_eq.
  repeat (rewrite lookup_insert_ne by done). rewrite !lookup_insert_eq.
  cbn [default from_option]. unfold id.
  destruct (name_zh office) as [|c name] eqn:En; [done|].
  assert (Hfirst : exists y rest, building office = y :: rest /\ isspace y = false).
  { assert (Hall : forallb (fun entry : str * list str =>
              match entry.1 with y :: _ => negb (isspace y) | [] => false end)
              building_patterns = true) by (by vm_compute).
    rewrite forallb_forall in Hall. apply list_elem_of_In, Hall in Hb.
    cbn [fst] in Hb. destruct (building office) as [|y rest]; [done|].
    exists y, rest. split; [done|]. by apply negb_true_iff. }
  destruct Hfirst as (y & rest & Hbld & Hy).
  assert (Hstrip : strip (building office ++ utf8 " " ++ floor office ++ utf8 " "
                          ++ room office ++ utf8 "室") = loc_info office).
  { unfold loc_info. rewrite Hbld.
    set (sp := utf8 " "). set (shi := utf8 "室").
    replace (sp ++ floor office ++ sp ++ room office ++ shi)
      with ((sp ++ floor office ++ sp ++ room office) ++ shi)
      by (by rewrite <- !app_assoc).
    apply (strip_solid_ends y rest _ shi [] (ch "室"));
      [subst shi; by vm_compute|done|by vm_compute]. }
  rewrite Hstrip. unfold loc_info. rewrite Hbld. done.
Qed.

Lemma location_line_of_chunk_witness :
  location_line (metadata (location_chunk [] (utf8 "admin") ChunkExtras.registrar))
  = Some (utf8 "- " ++ name_zh ChunkExtras.registrar ++ utf8 "："
          ++ loc_info ChunkExtras.registrar).
Proof.
  apply location_line_of_chunk.
  - exists [utf8 "行政大樓"; utf8 "Administration Building"]. left.
  - vm_compute. discriminate.
Defined.

End AppExtras.
